(** * PixelNutLib: the effect engine (PixelNutEngine.cpp) and its plugin factory

    A shallow embedding of [PixelNutEngine] (src/PixelNutEngine.cpp,
    src/includes/PixelNutEngine.h) and of the plugin factory
    (src/PluginFactory.cpp), followed by theorems about the stack manager,
    the command interpreter, the trigger router and the compositor.

    Conventions.
    - C integers are [Z]; a store into a narrower field is written with the
      conversion of that width ([to_byte], [to_short], [to_uint16],
      [to_uint32]), and [atoi] gives an [int] ([to_int]).
    - The two stacks are the C arrays [pluginLayers] and [pluginTracks]:
      lists indexed by [Z], read with [nthZ] and written with [setZ].
    - Plugins are objects of a type [P] with the four virtual methods of
      [PixelNutPlugin]; the engine reaches them only through that interface.
    - The platform (clock, PRNG, allocator) is an oracle indexed by the number
      of platform calls made so far, kept in the ghost field [calls].
    - The ghost field [events] records, most recent first, the plugin
      creations and deletions, buffer releases and plugin calls the engine
      makes. *)

From Stdlib Require Import ZArith Lia Bool Ascii String.
From stdpp Require Import base tactics option list list_numbers.

Local Open Scope Z_scope.

(** ** Machine integers *)

Definition to_byte (z : Z) : Z := z mod 256.
Definition to_uint16 (z : Z) : Z := z mod 65536.
Definition to_uint32 (z : Z) : Z := z mod 4294967296.
Definition to_short (z : Z) : Z := (z + 32768) mod 65536 - 32768.
Definition to_int8 (z : Z) : Z := (z + 128) mod 256 - 128.
Definition to_int (z : Z) : Z := (z + 2147483648) mod 4294967296 - 2147483648.

(** The largest [int] (32 bits) and the largest [long] (64 bits). *)
Definition INT_MAX : Z := 2147483647.
Definition LONG_MAX : Z := 9223372036854775807.

(** C's [/] on [int]: truncation toward zero. *)
Definition cdiv (a b : Z) : Z := Z.quot a b.

(** ** Constants

    Modelled from the spec: PixelNutSupport.h, which defines these macros, is
    not part of the sources at hand; the values are those of the spec's list
    of constants. [MAX_DEGREES_HUE], [MAX_DELAY_VALUE] and [MAX_PLUGIN_VALUE]
    are left to the platform ([PixelNutSupport] below). *)

Definition MAX_PERCENTAGE : Z := 100.
Definition MAX_BYTE_VALUE : Z := 255.
Definition MAX_WORD_VALUE : Z := 65535.
Definition MAX_FORCE_VALUE : Z := 1000.

(** Bit of [gettype()] that marks a drawing (track-owning) plugin. *)
Definition PLUGIN_TYPE_REDRAW : Z := 1.

(** enum ExtControlBit (PixelNutEngine.h) *)
Definition ExtControlBit_DegreeHue : Z := 1.
Definition ExtControlBit_PcentWhite : Z := 2.
Definition ExtControlBit_PixCount : Z := 4.
Definition ExtControlBit_All : Z := 7.

(** enum Status (PixelNutEngine.h) *)
Inductive Status : Set :=
| Status_Success
| Status_Error_BadVal
| Status_Error_BadCmd
| Status_Error_Memory.

Definition Status_eqb (a b : Status) : bool :=
  match a, b with
  | Status_Success, Status_Success => true
  | Status_Error_BadVal, Status_Error_BadVal => true
  | Status_Error_BadCmd, Status_Error_BadCmd => true
  | Status_Error_Memory, Status_Error_Memory => true
  | _, _ => false
  end.

(** ** C library helpers on command strings *)

Definition isdigit (c : ascii) : bool :=
  let n := N_of_ascii c in (48 <=? n)%N && (n <=? 57)%N.

Definition toupper (c : ascii) : ascii :=
  let n := N_of_ascii c in
  if (97 <=? n)%N && (n <=? 122)%N then ascii_of_N (n - 32) else c.

Fixpoint toupper_str (s : string) : string :=
  match s with
  | EmptyString => EmptyString
  | String c s' => String (toupper c) (toupper_str s')
  end.

(** [*str]: the first character, NUL at the end of the string. *)
Definition deref (s : string) : ascii :=
  match s with
  | EmptyString => zero
  | String c _ => c
  end.

(** The number that the leading run of digits of [s] writes in base ten,
    after the digits already read into [acc]. *)
Fixpoint atoi_from (acc : Z) (s : string) : Z :=
  match s with
  | EmptyString => acc
  | String c s' =>
      if isdigit c then atoi_from (10 * acc + Z.of_N (N_of_ascii c - 48)) s'
      else acc
  end.

(** [strtol(s, NULL, 10)] on a string that starts with a digit (the only
    way the engine calls it): the number written, held at [LONG_MAX] when it
    is beyond a [long] of 64 bits. *)
Definition strtol (s : string) : Z := Z.min (atoi_from 0 s) LONG_MAX.

(** The C library's [atoi(s)], which is [(int) strtol(s, NULL, 10)], on a
    host with an [int] of 32 bits and a [long] of 64: a number up to
    [INT_MAX] is read as written, a larger one is cut to the 32 bits of an
    [int] (4294967301 reads as 5, 2147483648 as -2147483648). *)
Definition atoi (s : string) : Z := to_int (strtol s).

(** [strtok(cmdstr, " ")] iterated to the end: the maximal runs of
    characters other than the space, in order. *)
Fixpoint split_spaces (s : string) : list string :=
  match s with
  | EmptyString => [EmptyString]
  | String c s' =>
      let r := split_spaces s' in
      if Ascii.eqb c " "%char then EmptyString :: r
      else match r with
           | t :: ts => String c t :: ts
           | [] => [String c EmptyString]
           end
  end.

Definition nonempty (s : string) : bool :=
  match s with
  | EmptyString => false
  | String _ _ => true
  end.

Definition strtok (s : string) : list string :=
  List.filter nonempty (split_spaces s).

(** ** Internal string to numeric value handling routines *)

(** set or toggle value according to char at 'str' *)
Definition GetBoolValue (str : string) (curval : bool) : bool :=
  if Ascii.eqb (deref str) "0"%char then false
  else if Ascii.eqb (deref str) "1"%char then true
  else negb curval.

(** returns -1 if no value, or not in range 0-'maxval' *)
Definition GetNumValue (str : string) (maxval : Z) : Z :=
  if negb (isdigit (deref str)) then -1
  else
    let newval := atoi str in
    if newval >? maxval then -1
    else if newval <? 0 then -1
    else newval.

(** clips values to range 0-'maxval'; returns 'curval' if no value is
    specified (the three-argument overload of [GetNumValue]) *)
Definition GetNumValue3 (str : string) (curval maxval : Z) : Z :=
  if negb (isdigit (deref str)) then curval
  else
    let newval := atoi str in
    if newval >? maxval then maxval
    else if newval <? 0 then 0
    else newval.

(** ** Arrays indexed by C integers *)

Definition nthZ {A} (d : A) (l : list A) (i : Z) : A :=
  if i <? 0 then d else nth (Z.to_nat i) l d.

Definition setZ {A} (l : list A) (i : Z) (x : A) : list A :=
  if i <? 0 then l else <[Z.to_nat i := x]> l.

(** ** PixelNutSupport::DrawProps

    Modelled from the spec: the struct is declared in PixelNutSupport.h,
    which is missing; the fields are those the engine uses, with the derived
    RGB triple of the spec's data model. *)

Module DrawProps.
Record t : Type := mk {
  pixStart : Z;
  pixLen : Z;
  pixCount : Z;
  msecsDelay : Z;
  degreeHue : Z;
  pcentWhite : Z;
  pcentBright : Z;
  r : Z;
  g : Z;
  b : Z;
  goUpwards : bool;
  orPixelValues : bool
}.

(** memset(&draw, 0, sizeof(DrawProps)) *)
Definition zero : t := mk 0 0 0 0 0 0 0 0 0 0 false false.

Definition set_pixStart (v : Z) (d : t) : t :=
  mk v (pixLen d) (pixCount d) (msecsDelay d) (degreeHue d) (pcentWhite d)
     (pcentBright d) (r d) (g d) (b d) (goUpwards d) (orPixelValues d).
Definition set_pixLen (v : Z) (d : t) : t :=
  mk (pixStart d) v (pixCount d) (msecsDelay d) (degreeHue d) (pcentWhite d)
     (pcentBright d) (r d) (g d) (b d) (goUpwards d) (orPixelValues d).
Definition set_pixCount (v : Z) (d : t) : t :=
  mk (pixStart d) (pixLen d) v (msecsDelay d) (degreeHue d) (pcentWhite d)
     (pcentBright d) (r d) (g d) (b d) (goUpwards d) (orPixelValues d).
Definition set_msecsDelay (v : Z) (d : t) : t :=
  mk (pixStart d) (pixLen d) (pixCount d) v (degreeHue d) (pcentWhite d)
     (pcentBright d) (r d) (g d) (b d) (goUpwards d) (orPixelValues d).
Definition set_degreeHue (v : Z) (d : t) : t :=
  mk (pixStart d) (pixLen d) (pixCount d) (msecsDelay d) v (pcentWhite d)
     (pcentBright d) (r d) (g d) (b d) (goUpwards d) (orPixelValues d).
Definition set_pcentWhite (v : Z) (d : t) : t :=
  mk (pixStart d) (pixLen d) (pixCount d) (msecsDelay d) (degreeHue d) v
     (pcentBright d) (r d) (g d) (b d) (goUpwards d) (orPixelValues d).
Definition set_pcentBright (v : Z) (d : t) : t :=
  mk (pixStart d) (pixLen d) (pixCount d) (msecsDelay d) (degreeHue d)
     (pcentWhite d) v (r d) (g d) (b d) (goUpwards d) (orPixelValues d).
Definition set_rgb (v : Z * Z * Z) (d : t) : t :=
  mk (pixStart d) (pixLen d) (pixCount d) (msecsDelay d) (degreeHue d)
     (pcentWhite d) (pcentBright d) (fst (fst v)) (snd (fst v)) (snd v)
     (goUpwards d) (orPixelValues d).
Definition set_goUpwards (v : bool) (d : t) : t :=
  mk (pixStart d) (pixLen d) (pixCount d) (msecsDelay d) (degreeHue d)
     (pcentWhite d) (pcentBright d) (r d) (g d) (b d) v (orPixelValues d).
Definition set_orPixelValues (v : bool) (d : t) : t :=
  mk (pixStart d) (pixLen d) (pixCount d) (msecsDelay d) (degreeHue d)
     (pcentWhite d) (pcentBright d) (r d) (g d) (b d) (goUpwards d) v.
End DrawProps.

(** ** struct PluginTrack (PixelNutEngine.h) *)

Module PluginTrack.
Record t : Type := mk {
  msTimeRedraw : Z;                 (* uint32_t *)
  pRedrawBuff : option (list Z);    (* byte*: None is NULL *)
  draw : DrawProps.t;
  layer : Z;                        (* byte *)
  ctrlBits : Z;                     (* byte *)
  segIndex : Z;                     (* byte *)
  disable : Z;                      (* byte *)
  segOffset : Z;                    (* uint16_t *)
  segCount : Z                      (* uint16_t *)
}.

(** memset(pTrack, 0, sizeof(PluginTrack)) *)
Definition zero : t := mk 0 None DrawProps.zero 0 0 0 0 0 0.

Definition set_msTimeRedraw (v : Z) (k : t) : t :=
  mk v (pRedrawBuff k) (draw k) (layer k) (ctrlBits k) (segIndex k)
     (disable k) (segOffset k) (segCount k).
Definition set_pRedrawBuff (v : option (list Z)) (k : t) : t :=
  mk (msTimeRedraw k) v (draw k) (layer k) (ctrlBits k) (segIndex k)
     (disable k) (segOffset k) (segCount k).
Definition set_draw (v : DrawProps.t) (k : t) : t :=
  mk (msTimeRedraw k) (pRedrawBuff k) v (layer k) (ctrlBits k) (segIndex k)
     (disable k) (segOffset k) (segCount k).
Definition set_ctrlBits (v : Z) (k : t) : t :=
  mk (msTimeRedraw k) (pRedrawBuff k) (draw k) (layer k) v (segIndex k)
     (disable k) (segOffset k) (segCount k).
End PluginTrack.

(** ** The plugin interface (class PixelNutPlugin)

    Modelled from the spec: PixelNutPlugin.h is missing. A plugin object of
    type [P] answers [gettype], is started by [begin] with its layer index
    and the segment length, and reacts to [trigger] and [nextstep]; the last
    two receive the track's draw properties and the bytes of the current draw
    sink ([None] when the sink is NULL) and give back the object, the
    properties and the sink as they left them.

    The handle ([this]) that [trigger] and [nextstep] receive serves a plugin
    in two ways: to draw, which is the sink passed in and handed back, and to
    send force (pixelNutSupport.sendForce, as PNP_CometHeads::nextstep does),
    which comes back into the engine as triggerForce(layer, force) while the
    plugin call is still running. The second is not part of this interface:
    a plugin of type [P] draws and changes its properties, and sends no
    force. The theorems below speak of what the engine itself does around
    the plugin calls. *)

Class PixelNutPlugin (P : Type) : Type := {
  gettype : P -> Z;
  begin : P -> Z -> Z -> P;
  trigger : P -> DrawProps.t -> option (list Z) -> Z ->
            P * DrawProps.t * option (list Z);
  nextstep : P -> DrawProps.t -> option (list Z) ->
             P * DrawProps.t * option (list Z)
}.

(** class PluginFactory (PixelNutEngine.h): [makePlugin] returns NULL
    ([None]) for an id it does not know. *)
Class PluginFactory (P : Type) : Type := {
  makePlugin : Z -> option P
}.

(** The platform the engine runs on: [pixelNutSupport.getMsecs()], the
    Arduino [random()], [malloc] and [pixelNutSupport.makeColorVals], with the
    three constants the spec leaves to the implementation. The first three are
    oracles: the answer to the n-th platform call. *)
Class PixelNutSupport : Type := {
  msecs_at : nat -> Z;
  random_at : nat -> Z;
  malloc_at : nat -> bool;
  makeColorRGB : Z -> Z -> Z -> Z * Z * Z;
  MAX_DEGREES_HUE : Z;
  MAX_DELAY_VALUE : Z;
  MAX_PLUGIN_VALUE : Z
}.

(** A plugin pointer: the object and the serial number of its creation. *)
Record PluginPtr (P : Type) : Type := mkPtr {
  addr : nat;
  obj : P
}.
Arguments mkPtr {P} _ _.
Arguments addr {P} _.
Arguments obj {P} _.

(** ** struct PluginLayer (PixelNutEngine.h) *)

Record PluginLayer (P : Type) : Type := mkLayer {
  trigTimeMsecs : Z;                (* uint32_t *)
  trigCount : Z;                    (* int16_t *)
  trigDelayMin : Z;                 (* uint16_t *)
  trigDelayRange : Z;               (* uint16_t *)
  trigForce : Z;                    (* short *)
  trigActive : bool;
  trigExtern : bool;
  trigSource : Z;                   (* byte *)
  track : Z;                        (* byte *)
  pPlugin : option (PluginPtr P)    (* None is NULL *)
}.
Arguments mkLayer {P} _ _ _ _ _ _ _ _ _ _.
Arguments trigTimeMsecs {P} _.
Arguments trigCount {P} _.
Arguments trigDelayMin {P} _.
Arguments trigDelayRange {P} _.
Arguments trigForce {P} _.
Arguments trigActive {P} _.
Arguments trigExtern {P} _.
Arguments trigSource {P} _.
Arguments track {P} _.
Arguments pPlugin {P} _.

(** Where [pDrawPixels] points. *)
Inductive DrawSink : Set :=
| SinkNull
| SinkDisplay
| SinkTrack (t : Z).

(** What the engine did, as seen from outside. *)
Inductive Event : Set :=
| EvNew (a : nat) (plugin : Z)
| EvDelete (a : nat)
| EvFree (trk : Z)
| EvBegin (a : nat) (id pixlen : Z)
| EvTrigger (lay force : Z)
| EvAutoTrigger (lay : Z)
| EvNextstep (lay : Z).

(** ** class PixelNutEngine *)

Record PixelNutEngine (P : Type) : Type := mkEngine {
  pDrawPixels : DrawSink;
  pcentBright : Z;                  (* byte *)
  delayOffset : Z;                  (* int8_t *)
  pluginLayers : list (PluginLayer P);
  maxPluginLayers : Z;              (* short *)
  indexLayerStack : Z;              (* short *)
  indexTrackEnable : Z;             (* short *)
  pluginTracks : list PluginTrack.t;
  maxPluginTracks : Z;              (* short *)
  indexTrackStack : Z;              (* short *)
  timePrevUpdate : Z;               (* uint32_t *)
  goUpwards : bool;
  curForce : Z;                     (* short *)
  numPixels : Z;                    (* uint16_t *)
  pDisplayPixels : list Z;          (* numPixels*3 bytes *)
  segOffset : Z;                    (* uint16_t *)
  segCount : Z;                     (* uint16_t *)
  externPropMode : bool;
  externDegreeHue : Z;              (* short *)
  externPcentWhite : Z;             (* byte *)
  externPcentCount : Z;             (* byte *)
  calls : nat;                      (* ghost: platform calls made so far *)
  events : list Event               (* ghost: most recent first *)
}.
Arguments mkEngine {P} _ _ _ _ _ _ _ _ _ _ _ _ _ _ _ _ _ _ _ _ _ _ _.
Arguments pDrawPixels {P} _.
Arguments pcentBright {P} _.
Arguments delayOffset {P} _.
Arguments pluginLayers {P} _.
Arguments maxPluginLayers {P} _.
Arguments indexLayerStack {P} _.
Arguments indexTrackEnable {P} _.
Arguments pluginTracks {P} _.
Arguments maxPluginTracks {P} _.
Arguments indexTrackStack {P} _.
Arguments timePrevUpdate {P} _.
Arguments goUpwards {P} _.
Arguments curForce {P} _.
Arguments numPixels {P} _.
Arguments pDisplayPixels {P} _.
Arguments segOffset {P} _.
Arguments segCount {P} _.
Arguments externPropMode {P} _.
Arguments externDegreeHue {P} _.
Arguments externPcentWhite {P} _.
Arguments externPcentCount {P} _.
Arguments calls {P} _.
Arguments events {P} _.

(** ** Field updates *)

Section Updates.
Context {P : Type}.
Implicit Types (e : PixelNutEngine P) (L : PluginLayer P).

(** memset(&pluginLayers[i], 0, sizeof(PluginLayer)) *)
Definition zeroLayer : PluginLayer P := mkLayer 0 0 0 0 0 false false 0 0 None.

Definition set_trigTimeMsecs (v : Z) L : PluginLayer P :=
  mkLayer v (trigCount L) (trigDelayMin L) (trigDelayRange L) (trigForce L)
    (trigActive L) (trigExtern L) (trigSource L) (track L) (pPlugin L).
Definition set_trigCount (v : Z) L : PluginLayer P :=
  mkLayer (trigTimeMsecs L) v (trigDelayMin L) (trigDelayRange L) (trigForce L)
    (trigActive L) (trigExtern L) (trigSource L) (track L) (pPlugin L).
Definition set_trigDelayMin (v : Z) L : PluginLayer P :=
  mkLayer (trigTimeMsecs L) (trigCount L) v (trigDelayRange L) (trigForce L)
    (trigActive L) (trigExtern L) (trigSource L) (track L) (pPlugin L).
Definition set_trigDelayRange (v : Z) L : PluginLayer P :=
  mkLayer (trigTimeMsecs L) (trigCount L) (trigDelayMin L) v (trigForce L)
    (trigActive L) (trigExtern L) (trigSource L) (track L) (pPlugin L).
Definition set_trigForce (v : Z) L : PluginLayer P :=
  mkLayer (trigTimeMsecs L) (trigCount L) (trigDelayMin L) (trigDelayRange L) v
    (trigActive L) (trigExtern L) (trigSource L) (track L) (pPlugin L).
Definition set_trigActive (v : bool) L : PluginLayer P :=
  mkLayer (trigTimeMsecs L) (trigCount L) (trigDelayMin L) (trigDelayRange L)
    (trigForce L) v (trigExtern L) (trigSource L) (track L) (pPlugin L).
Definition set_trigExtern (v : bool) L : PluginLayer P :=
  mkLayer (trigTimeMsecs L) (trigCount L) (trigDelayMin L) (trigDelayRange L)
    (trigForce L) (trigActive L) v (trigSource L) (track L) (pPlugin L).
Definition set_trigSource (v : Z) L : PluginLayer P :=
  mkLayer (trigTimeMsecs L) (trigCount L) (trigDelayMin L) (trigDelayRange L)
    (trigForce L) (trigActive L) (trigExtern L) v (track L) (pPlugin L).
Definition set_track (v : Z) L : PluginLayer P :=
  mkLayer (trigTimeMsecs L) (trigCount L) (trigDelayMin L) (trigDelayRange L)
    (trigForce L) (trigActive L) (trigExtern L) (trigSource L) v (pPlugin L).
Definition set_pPlugin (v : option (PluginPtr P)) L : PluginLayer P :=
  mkLayer (trigTimeMsecs L) (trigCount L) (trigDelayMin L) (trigDelayRange L)
    (trigForce L) (trigActive L) (trigExtern L) (trigSource L) (track L) v.

Definition set_pDrawPixels (v : DrawSink) e : PixelNutEngine P :=
  mkEngine v (pcentBright e) (delayOffset e) (pluginLayers e)
    (maxPluginLayers e) (indexLayerStack e) (indexTrackEnable e)
    (pluginTracks e) (maxPluginTracks e) (indexTrackStack e)
    (timePrevUpdate e) (goUpwards e) (curForce e) (numPixels e)
    (pDisplayPixels e) (segOffset e) (segCount e) (externPropMode e)
    (externDegreeHue e) (externPcentWhite e) (externPcentCount e) (calls e)
    (events e).
Definition set_pcentBright (v : Z) e : PixelNutEngine P :=
  mkEngine (pDrawPixels e) v (delayOffset e) (pluginLayers e)
    (maxPluginLayers e) (indexLayerStack e) (indexTrackEnable e)
    (pluginTracks e) (maxPluginTracks e) (indexTrackStack e)
    (timePrevUpdate e) (goUpwards e) (curForce e) (numPixels e)
    (pDisplayPixels e) (segOffset e) (segCount e) (externPropMode e)
    (externDegreeHue e) (externPcentWhite e) (externPcentCount e) (calls e)
    (events e).
Definition set_delayOffset (v : Z) e : PixelNutEngine P :=
  mkEngine (pDrawPixels e) (pcentBright e) v (pluginLayers e)
    (maxPluginLayers e) (indexLayerStack e) (indexTrackEnable e)
    (pluginTracks e) (maxPluginTracks e) (indexTrackStack e)
    (timePrevUpdate e) (goUpwards e) (curForce e) (numPixels e)
    (pDisplayPixels e) (segOffset e) (segCount e) (externPropMode e)
    (externDegreeHue e) (externPcentWhite e) (externPcentCount e) (calls e)
    (events e).
Definition set_pluginLayers (v : list (PluginLayer P)) e : PixelNutEngine P :=
  mkEngine (pDrawPixels e) (pcentBright e) (delayOffset e) v
    (maxPluginLayers e) (indexLayerStack e) (indexTrackEnable e)
    (pluginTracks e) (maxPluginTracks e) (indexTrackStack e)
    (timePrevUpdate e) (goUpwards e) (curForce e) (numPixels e)
    (pDisplayPixels e) (segOffset e) (segCount e) (externPropMode e)
    (externDegreeHue e) (externPcentWhite e) (externPcentCount e) (calls e)
    (events e).
Definition set_indexLayerStack (v : Z) e : PixelNutEngine P :=
  mkEngine (pDrawPixels e) (pcentBright e) (delayOffset e) (pluginLayers e)
    (maxPluginLayers e) v (indexTrackEnable e)
    (pluginTracks e) (maxPluginTracks e) (indexTrackStack e)
    (timePrevUpdate e) (goUpwards e) (curForce e) (numPixels e)
    (pDisplayPixels e) (segOffset e) (segCount e) (externPropMode e)
    (externDegreeHue e) (externPcentWhite e) (externPcentCount e) (calls e)
    (events e).
Definition set_indexTrackEnable (v : Z) e : PixelNutEngine P :=
  mkEngine (pDrawPixels e) (pcentBright e) (delayOffset e) (pluginLayers e)
    (maxPluginLayers e) (indexLayerStack e) v
    (pluginTracks e) (maxPluginTracks e) (indexTrackStack e)
    (timePrevUpdate e) (goUpwards e) (curForce e) (numPixels e)
    (pDisplayPixels e) (segOffset e) (segCount e) (externPropMode e)
    (externDegreeHue e) (externPcentWhite e) (externPcentCount e) (calls e)
    (events e).
Definition set_pluginTracks (v : list PluginTrack.t) e : PixelNutEngine P :=
  mkEngine (pDrawPixels e) (pcentBright e) (delayOffset e) (pluginLayers e)
    (maxPluginLayers e) (indexLayerStack e) (indexTrackEnable e)
    v (maxPluginTracks e) (indexTrackStack e)
    (timePrevUpdate e) (goUpwards e) (curForce e) (numPixels e)
    (pDisplayPixels e) (segOffset e) (segCount e) (externPropMode e)
    (externDegreeHue e) (externPcentWhite e) (externPcentCount e) (calls e)
    (events e).
Definition set_indexTrackStack (v : Z) e : PixelNutEngine P :=
  mkEngine (pDrawPixels e) (pcentBright e) (delayOffset e) (pluginLayers e)
    (maxPluginLayers e) (indexLayerStack e) (indexTrackEnable e)
    (pluginTracks e) (maxPluginTracks e) v
    (timePrevUpdate e) (goUpwards e) (curForce e) (numPixels e)
    (pDisplayPixels e) (segOffset e) (segCount e) (externPropMode e)
    (externDegreeHue e) (externPcentWhite e) (externPcentCount e) (calls e)
    (events e).
Definition set_timePrevUpdate (v : Z) e : PixelNutEngine P :=
  mkEngine (pDrawPixels e) (pcentBright e) (delayOffset e) (pluginLayers e)
    (maxPluginLayers e) (indexLayerStack e) (indexTrackEnable e)
    (pluginTracks e) (maxPluginTracks e) (indexTrackStack e)
    v (goUpwards e) (curForce e) (numPixels e)
    (pDisplayPixels e) (segOffset e) (segCount e) (externPropMode e)
    (externDegreeHue e) (externPcentWhite e) (externPcentCount e) (calls e)
    (events e).
Definition set_curForce (v : Z) e : PixelNutEngine P :=
  mkEngine (pDrawPixels e) (pcentBright e) (delayOffset e) (pluginLayers e)
    (maxPluginLayers e) (indexLayerStack e) (indexTrackEnable e)
    (pluginTracks e) (maxPluginTracks e) (indexTrackStack e)
    (timePrevUpdate e) (goUpwards e) v (numPixels e)
    (pDisplayPixels e) (segOffset e) (segCount e) (externPropMode e)
    (externDegreeHue e) (externPcentWhite e) (externPcentCount e) (calls e)
    (events e).
Definition set_pDisplayPixels (v : list Z) e : PixelNutEngine P :=
  mkEngine (pDrawPixels e) (pcentBright e) (delayOffset e) (pluginLayers e)
    (maxPluginLayers e) (indexLayerStack e) (indexTrackEnable e)
    (pluginTracks e) (maxPluginTracks e) (indexTrackStack e)
    (timePrevUpdate e) (goUpwards e) (curForce e) (numPixels e)
    v (segOffset e) (segCount e) (externPropMode e)
    (externDegreeHue e) (externPcentWhite e) (externPcentCount e) (calls e)
    (events e).
Definition set_segOffset (v : Z) e : PixelNutEngine P :=
  mkEngine (pDrawPixels e) (pcentBright e) (delayOffset e) (pluginLayers e)
    (maxPluginLayers e) (indexLayerStack e) (indexTrackEnable e)
    (pluginTracks e) (maxPluginTracks e) (indexTrackStack e)
    (timePrevUpdate e) (goUpwards e) (curForce e) (numPixels e)
    (pDisplayPixels e) v (segCount e) (externPropMode e)
    (externDegreeHue e) (externPcentWhite e) (externPcentCount e) (calls e)
    (events e).
Definition set_segCount (v : Z) e : PixelNutEngine P :=
  mkEngine (pDrawPixels e) (pcentBright e) (delayOffset e) (pluginLayers e)
    (maxPluginLayers e) (indexLayerStack e) (indexTrackEnable e)
    (pluginTracks e) (maxPluginTracks e) (indexTrackStack e)
    (timePrevUpdate e) (goUpwards e) (curForce e) (numPixels e)
    (pDisplayPixels e) (segOffset e) v (externPropMode e)
    (externDegreeHue e) (externPcentWhite e) (externPcentCount e) (calls e)
    (events e).
Definition set_externPropMode (v : bool) e : PixelNutEngine P :=
  mkEngine (pDrawPixels e) (pcentBright e) (delayOffset e) (pluginLayers e)
    (maxPluginLayers e) (indexLayerStack e) (indexTrackEnable e)
    (pluginTracks e) (maxPluginTracks e) (indexTrackStack e)
    (timePrevUpdate e) (goUpwards e) (curForce e) (numPixels e)
    (pDisplayPixels e) (segOffset e) (segCount e) v
    (externDegreeHue e) (externPcentWhite e) (externPcentCount e) (calls e)
    (events e).
Definition set_externDegreeHue (v : Z) e : PixelNutEngine P :=
  mkEngine (pDrawPixels e) (pcentBright e) (delayOffset e) (pluginLayers e)
    (maxPluginLayers e) (indexLayerStack e) (indexTrackEnable e)
    (pluginTracks e) (maxPluginTracks e) (indexTrackStack e)
    (timePrevUpdate e) (goUpwards e) (curForce e) (numPixels e)
    (pDisplayPixels e) (segOffset e) (segCount e) (externPropMode e)
    v (externPcentWhite e) (externPcentCount e) (calls e)
    (events e).
Definition set_externPcentWhite (v : Z) e : PixelNutEngine P :=
  mkEngine (pDrawPixels e) (pcentBright e) (delayOffset e) (pluginLayers e)
    (maxPluginLayers e) (indexLayerStack e) (indexTrackEnable e)
    (pluginTracks e) (maxPluginTracks e) (indexTrackStack e)
    (timePrevUpdate e) (goUpwards e) (curForce e) (numPixels e)
    (pDisplayPixels e) (segOffset e) (segCount e) (externPropMode e)
    (externDegreeHue e) v (externPcentCount e) (calls e)
    (events e).
Definition set_externPcentCount (v : Z) e : PixelNutEngine P :=
  mkEngine (pDrawPixels e) (pcentBright e) (delayOffset e) (pluginLayers e)
    (maxPluginLayers e) (indexLayerStack e) (indexTrackEnable e)
    (pluginTracks e) (maxPluginTracks e) (indexTrackStack e)
    (timePrevUpdate e) (goUpwards e) (curForce e) (numPixels e)
    (pDisplayPixels e) (segOffset e) (segCount e) (externPropMode e)
    (externDegreeHue e) (externPcentWhite e) v (calls e)
    (events e).
Definition set_calls (v : nat) e : PixelNutEngine P :=
  mkEngine (pDrawPixels e) (pcentBright e) (delayOffset e) (pluginLayers e)
    (maxPluginLayers e) (indexLayerStack e) (indexTrackEnable e)
    (pluginTracks e) (maxPluginTracks e) (indexTrackStack e)
    (timePrevUpdate e) (goUpwards e) (curForce e) (numPixels e)
    (pDisplayPixels e) (segOffset e) (segCount e) (externPropMode e)
    (externDegreeHue e) (externPcentWhite e) (externPcentCount e) v
    (events e).
Definition set_events (v : list Event) e : PixelNutEngine P :=
  mkEngine (pDrawPixels e) (pcentBright e) (delayOffset e) (pluginLayers e)
    (maxPluginLayers e) (indexLayerStack e) (indexTrackEnable e)
    (pluginTracks e) (maxPluginTracks e) (indexTrackStack e)
    (timePrevUpdate e) (goUpwards e) (curForce e) (numPixels e)
    (pDisplayPixels e) (segOffset e) (segCount e) (externPropMode e)
    (externDegreeHue e) (externPcentWhite e) (externPcentCount e) (calls e)
    v.

(** pluginLayers[i] and pluginTracks[i] *)
Definition layerAt e (i : Z) : PluginLayer P := nthZ zeroLayer (pluginLayers e) i.
Definition trackAt e (i : Z) : PluginTrack.t :=
  nthZ PluginTrack.zero (pluginTracks e) i.

Definition updLayer (i : Z) (f : PluginLayer P -> PluginLayer P) e
  : PixelNutEngine P :=
  set_pluginLayers (setZ (pluginLayers e) i (f (layerAt e i))) e.
Definition updTrack (i : Z) (f : PluginTrack.t -> PluginTrack.t) e
  : PixelNutEngine P :=
  set_pluginTracks (setZ (pluginTracks e) i (f (trackAt e i))) e.
Definition updDraw (i : Z) (f : DrawProps.t -> DrawProps.t) e
  : PixelNutEngine P :=
  updTrack i (fun k => PluginTrack.set_draw (f (PluginTrack.draw k)) k) e.

(** &pluginTracks[indexTrackStack].draw, the [pdraw] of execCmdStr *)
Definition pdraw e : DrawProps.t := PluginTrack.draw (trackAt e (indexTrackStack e)).

Definition logEvent (ev : Event) e : PixelNutEngine P :=
  set_events (ev :: events e) e.

(** one more platform call has been made *)
Definition tick e : PixelNutEngine P := set_calls (S (calls e)) e.

End Updates.

(** memset(p, 0, n) on the first [n] bytes of a buffer *)
Definition memset0 (l : list Z) (n : Z) : list Z :=
  replicate (Nat.min (Z.to_nat n) (length l)) 0 ++ drop (Z.to_nat n) l.

(** ** The engine's member functions *)

Section Engine.
Context {P : Type} {Plug : PixelNutPlugin P} {Fact : PluginFactory P}
  {Sup : PixelNutSupport}.
Local Abbreviation Engine := (PixelNutEngine P).

(** *** Platform calls *)

(** pixelNutSupport.getMsecs(): a 32-bit millisecond counter *)
Definition getMsecs (e : Engine) : Z * Engine :=
  (to_uint32 (msecs_at (calls e)), tick e).

(** The Arduino [random(howsmall, howbig)]: [howsmall] when the range is
    empty, otherwise the next PRNG output reduced into
    [howsmall .. howbig-1]. *)
Definition random (howsmall howbig : Z) (e : Engine) : Z * Engine :=
  if howsmall >=? howbig then (howsmall, e)
  else (random_at (calls e) mod (howbig - howsmall) + howsmall, tick e).

(** malloc(numbytes): whether the allocation succeeds *)
Definition malloc (numbytes : Z) (e : Engine) : bool * Engine :=
  (malloc_at (calls e), tick e).

(** pixelNutSupport.makeColorVals(pdraw): recompute r,g,b from hue,
    whiteness and brightness *)
Definition makeColorVals (d : DrawProps.t) : DrawProps.t :=
  DrawProps.set_rgb
    (makeColorRGB (DrawProps.degreeHue d) (DrawProps.pcentWhite d)
                  (DrawProps.pcentBright d)) d.

(** Modelled from the spec: pixelNutSupport.mapValue and clipValue (the
    "integer mapper" and "value clipper" of the host handle) are missing from
    the sources; they are the usual linear map with truncating division and
    the clamp. *)
Definition mapValue (inval in_min in_max out_min out_max : Z) : Z :=
  cdiv ((inval - in_min) * (out_max - out_min)) (in_max - in_min) + out_min.

Definition clipValue (inval minval maxval : Z) : Z :=
  if inval <? minval then minval
  else if inval >? maxval then maxval
  else inval.

(** pPlugin->gettype() (a NULL pointer, which no live layer holds, reads as
    type 0) and the test [gettype() & PLUGIN_TYPE_REDRAW] *)
Definition pluginType (o : option (PluginPtr P)) : Z :=
  match o with
  | Some p => gettype (obj p)
  | None => 0
  end.

Definition isRedraw (o : option (PluginPtr P)) : bool :=
  negb (Z.land (pluginType o) PLUGIN_TYPE_REDRAW =? 0).

(** delete pPlugin *)
Definition deletePlugin (o : option (PluginPtr P)) (e : Engine) : Engine :=
  match o with
  | Some p => logEvent (EvDelete (addr p)) e
  | None => e
  end.

(** *** Internal stack handling routines *)

(** clearStack, the body of the loop over [j]:
    for (j = pluginTracks[i].layer; j < indexLayerStack; ++j)
      { ++count; delete pluginLayers[j].pPlugin; }
    indexLayerStack -= count; *)
Definition clearStack_layers (i : Z) (e : Engine) : Engine :=
  let first := PluginTrack.layer (trackAt e i) in
  let js := seqZ first (indexLayerStack e - first) in
  let e1 := foldl (fun e' j => deletePlugin (pPlugin (layerAt e' j)) e') e js in
  set_indexLayerStack (to_short (indexLayerStack e - Z.of_nat (length js))) e1.

(** clearStack, the body of the loop over [i]: the layer plugins of track
    [i], then its buffer *)
Definition clearStack_track (e : Engine) (i : Z) : Engine :=
  let e1 := clearStack_layers i e in
  match PluginTrack.pRedrawBuff (trackAt e1 i) with
  | Some _ => logEvent (EvFree i) e1
  | None => e1
  end.

Definition clearStack (e : Engine) : Engine :=
  let e := foldl clearStack_track e (rev (seqZ 0 (indexTrackStack e + 1))) in
  let e := set_indexTrackEnable (-1) e in
  let e := set_indexLayerStack (-1) e in
  let e := set_indexTrackStack (-1) e in
  let e := set_segOffset 0 e in
  let e := set_segCount (numPixels e) e in
  set_pDisplayPixels (memset0 (pDisplayPixels e) (numPixels e * 3)) e.

(** The new track of NewPluginLayer: the block under [if (newtrack)] *)
Definition newTrack (segindex : Z) (e : Engine) : PluginTrack.t :=
  let d := DrawProps.zero in
  let d := DrawProps.set_pixLen (segCount e) d in
  let d := DrawProps.set_pcentBright MAX_PERCENTAGE d in
  let d := DrawProps.set_pixCount 1 d in
  let d := DrawProps.set_goUpwards (goUpwards e) d in
  let d := DrawProps.set_orPixelValues true d in
  let d := makeColorVals d in
  PluginTrack.mk 0 None d (to_byte (indexLayerStack e))
    0 (to_byte segindex) 0 (segOffset e) (segCount e).

(** The new layer of NewPluginLayer *)
Definition newLayer (pl : PluginPtr P) (e : Engine) : PluginLayer P :=
  mkLayer 0 (-1) 1 0 (curForce e) false false MAX_BYTE_VALUE
          (to_byte (indexTrackStack e)) (Some pl).

(** ++indexLayerStack; memset(&pluginLayers[indexLayerStack], 0, ...) *)
Definition stackLayer (e : Engine) : Engine :=
  let e := set_indexLayerStack (indexLayerStack e + 1) e in
  updLayer (indexLayerStack e) (fun _ => zeroLayer) e.

(** The block under the first [if (newtrack)]: ++indexTrackStack, then the
    fields of the new track *)
Definition stackTrack (segindex : Z) (e : Engine) : Engine :=
  let e := set_indexTrackStack (indexTrackStack e + 1) e in
  updTrack (indexTrackStack e) (fun _ => newTrack segindex e) e.

(** PluginLayer *pLayer = &pluginLayers[indexLayerStack], and its fields *)
Definition initLayer (pl : PluginPtr P) (e : Engine) : Engine :=
  updLayer (indexLayerStack e) (fun _ => newLayer pl e) e.

(** pPlugin->begin(indexLayerStack, segCount): the plugin once begun, and
    the engine once it has begun it *)
Definition begun (pl : PluginPtr P) (e : Engine) : PluginPtr P :=
  mkPtr (addr pl) (begin (obj pl) (to_byte (indexLayerStack e)) (segCount e)).

Definition beginPlugin (pl : PluginPtr P) (e : Engine) : Engine :=
  logEvent (EvBegin (addr pl) (to_byte (indexLayerStack e)) (segCount e))
    (updLayer (indexLayerStack e) (set_pPlugin (Some (begun pl e))) e).

(** The failure branch of the allocation: restore the stack, delete the
    plugin *)
Definition unstackPlugin (pl : PluginPtr P) (e : Engine) : Engine :=
  let e := set_indexTrackStack (indexTrackStack e - 1) e in
  let e := set_indexLayerStack (indexLayerStack e - 1) e in
  deletePlugin (Some pl) e.

(** The block under the second [if (newtrack)]: the pixel buffer of the
    new track, allocated after any memory allocation in the plugin *)
Definition allocRedrawBuff (pl : PluginPtr P) (e : Engine) : Status * Engine :=
  let numbytes := segCount e * 3 in
  let r := malloc numbytes e in
  if negb r.1 then (Status_Error_Memory, unstackPlugin pl r.2)
  else
    (Status_Success,
     updTrack (indexTrackStack r.2)
       (PluginTrack.set_pRedrawBuff (Some (replicate (Z.to_nat numbytes) 0)))
       r.2).

(** NewPluginLayer once the plugin is made and the two stacks have room *)
Definition stackPlugin (pl : PluginPtr P) (newtrack : bool) (segindex : Z)
    (e : Engine) : Status * Engine :=
  let e := stackLayer e in
  let e := if newtrack then stackTrack segindex e else e in
  let e := initLayer pl e in
  (* begin new plugin, but will not be drawn until triggered *)
  let pl1 := begun pl e in
  let e := beginPlugin pl e in
  if newtrack then allocRedrawBuff pl1 e else (Status_Success, e).

Definition NewPluginLayer (plugin segindex : Z) (e : Engine)
  : Status * Engine :=
  (* check if can add another layer to the stack *)
  if indexLayerStack e + 1 >=? maxPluginLayers e then (Status_Error_Memory, e)
  else
    match makePlugin plugin with
    | None => (Status_Error_BadVal, e)
    | Some p0 =>
        let pl := mkPtr (calls e) p0 in
        let e := logEvent (EvNew (addr pl) plugin) (tick e) in
        (* determine if must allocate buffer for track, or is a filter plugin *)
        let newtrack := isRedraw (Some pl) in
        if (negb newtrack && (indexTrackStack e <? 0))
           || (newtrack && (indexTrackStack e + 1 >=? maxPluginTracks e))
        then
          let e := deletePlugin (Some pl) e in
          if newtrack then (Status_Error_Memory, e)
          else (Status_Error_BadCmd, e)
        else stackPlugin pl newtrack segindex e
    end.

(** *** Draw property related routines *)

(** internal: restore property values for bits set for track *)
Definition RestorePropVals (t : Z) (pixCount degreeHue pcentWhite : Z)
    (e : Engine) : Engine :=
  let pTrack := trackAt e t in
  if negb (PluginTrack.disable pTrack =? 0) then e
  else
    let bits := PluginTrack.ctrlBits pTrack in
    let d := PluginTrack.draw pTrack in
    let d := if negb (Z.land bits ExtControlBit_PixCount =? 0)
             then DrawProps.set_pixCount pixCount d else d in
    let '(d, doset) :=
      if negb (Z.land bits ExtControlBit_DegreeHue =? 0)
         && negb (DrawProps.degreeHue d =? degreeHue)
      then (DrawProps.set_degreeHue degreeHue d, true) else (d, false) in
    let '(d, doset) :=
      if negb (Z.land bits ExtControlBit_PcentWhite =? 0)
         && negb (DrawProps.pcentWhite d =? pcentWhite)
      then (DrawProps.set_pcentWhite pcentWhite d, true) else (d, doset) in
    let d := if doset then makeColorVals d else d in
    updDraw t (fun _ => d) e.

Definition setPropertyMode (enable : bool) (e : Engine) : Engine :=
  set_externPropMode enable e.

Definition SetPropColor_track (e : Engine) (i : Z) : Engine :=
  let pTrack := trackAt e i in
  if negb (PluginTrack.disable pTrack =? 0) then e
  else
    let bits := PluginTrack.ctrlBits pTrack in
    let d := PluginTrack.draw pTrack in
    let '(d, doset) :=
      if negb (Z.land bits ExtControlBit_DegreeHue =? 0)
      then (DrawProps.set_degreeHue (externDegreeHue e) d, true)
      else (d, false) in
    let '(d, doset) :=
      if negb (Z.land bits ExtControlBit_PcentWhite =? 0)
      then (DrawProps.set_pcentWhite (externPcentWhite e) d, true)
      else (d, doset) in
    let d := if doset then makeColorVals d else d in
    updDraw i (fun _ => d) e.

Definition SetPropColor (e : Engine) : Engine :=
  foldl SetPropColor_track e (seqZ 0 (indexTrackStack e + 1)).

Definition setColorProperty (hue_degree white_percent : Z) (e : Engine)
  : Engine :=
  let e := set_externDegreeHue
             (clipValue (to_short hue_degree) 0 MAX_DEGREES_HUE) e in
  let e := set_externPcentWhite
             (clipValue (to_byte white_percent) 0 MAX_PERCENTAGE) e in
  if externPropMode e then SetPropColor e else e.

Definition SetPropCount_track (e : Engine) (i : Z) : Engine :=
  let pTrack := trackAt e i in
  if negb (PluginTrack.disable pTrack =? 0) then e
  else if negb (Z.land (PluginTrack.ctrlBits pTrack) ExtControlBit_PixCount =? 0)
  then
    let count := to_uint16 (mapValue (externPcentCount e) 0 MAX_PERCENTAGE 1
                                     (PluginTrack.segCount pTrack)) in
    updDraw i (DrawProps.set_pixCount count) e
  else e.

Definition SetPropCount (e : Engine) : Engine :=
  foldl SetPropCount_track e (seqZ 0 (indexTrackStack e + 1)).

Definition setCountProperty (pixcount_percent : Z) (e : Engine) : Engine :=
  let e := set_externPcentCount
             (clipValue (to_byte pixcount_percent) 0 MAX_PERCENTAGE) e in
  if externPropMode e then SetPropCount e else e.

(** *** Trigger force handling routines *)

(** The bytes [pDrawPixels] points to, NULL being [None] *)
Definition sinkBytes (e : Engine) : option (list Z) :=
  match pDrawPixels e with
  | SinkNull => None
  | SinkDisplay => Some (pDisplayPixels e)
  | SinkTrack t => PluginTrack.pRedrawBuff (trackAt e t)
  end.

(** What a plugin call leaves in the draw sink *)
Definition storeSink (out : option (list Z)) (e : Engine) : Engine :=
  match pDrawPixels e, out with
  | SinkDisplay, Some buf => set_pDisplayPixels buf e
  | SinkTrack t, Some buf =>
      match PluginTrack.pRedrawBuff (trackAt e t) with
      | Some _ => updTrack t (PluginTrack.set_pRedrawBuff (Some buf)) e
      | None => e
      end
  | _, _ => e
  end.

(** pluginLayers[lay].pPlugin->trigger(this, &pluginTracks[trk].draw, force) *)
Definition callTrigger (lay trk force : Z) (e : Engine) : Engine :=
  let e := logEvent (EvTrigger lay force) e in
  match pPlugin (layerAt e lay) with
  | None => e
  | Some pl =>
      let '(p', d', out) :=
        trigger (obj pl) (PluginTrack.draw (trackAt e trk)) (sinkBytes e) force in
      let e := updLayer lay (set_pPlugin (Some (mkPtr (addr pl) p'))) e in
      let e := updDraw trk (fun _ => d') e in
      storeSink out e
  end.

(** pluginLayers[lay].pPlugin->nextstep(this, &pluginTracks[trk].draw) *)
Definition callNextstep (lay trk : Z) (e : Engine) : Engine :=
  let e := logEvent (EvNextstep lay) e in
  match pPlugin (layerAt e lay) with
  | None => e
  | Some pl =>
      let '(p', d', out) :=
        nextstep (obj pl) (PluginTrack.draw (trackAt e trk)) (sinkBytes e) in
      let e := updLayer lay (set_pPlugin (Some (mkPtr (addr pl) p'))) e in
      let e := updDraw trk (fun _ => d') e in
      storeSink out e
  end.

(** The locals [pixCount], [degreeHue] and [pcentWhite] of triggerLayer and
    updateEffects: 0, or the track's values if in extern mode *)
Definition savedProps (trk : Z) (e : Engine) : Z * Z * Z :=
  let d := PluginTrack.draw (trackAt e trk) in
  if externPropMode e
  then (DrawProps.pixCount d, DrawProps.degreeHue d, DrawProps.pcentWhite d)
  else (0, 0, 0).

Definition triggerLayer (layer force : Z) (e : Engine) : Engine :=
  let layer := to_byte layer in
  let force := to_short force in
  let trk := track (layerAt e layer) in
  let predraw := negb (isRedraw (pPlugin (layerAt e layer))) in
  (* prevent predraw effect from overwriting properties if in extern mode *)
  let saved := savedProps trk e in
  let dptr := pDrawPixels e in
  let e := set_pDrawPixels (if predraw then SinkNull else SinkTrack trk) e in
  let e := callTrigger layer trk force e in
  let e := set_pDrawPixels dptr e in
  let e := if externPropMode e
           then RestorePropVals trk saved.1.1 saved.1.2 saved.2 e else e in
  (* if this is the drawing effect for the track then redraw immediately *)
  let e := if negb predraw
           then let '(now, e) := getMsecs e in
                updTrack trk (PluginTrack.set_msTimeRedraw now) e
           else e in
  updLayer layer (set_trigActive true) e.

(** CheckAutoTrigger: just always reset trigger time after rollover event *)
Definition rebaseTrigger (rollover : bool) (i : Z) (e : Engine) : Engine :=
  if rollover && (trigTimeMsecs (layerAt e i) >? 0)
  then updLayer i (set_trigTimeMsecs (timePrevUpdate e)) e else e.

(** CheckAutoTrigger: triggering is active, have count (or infinite),
    auto-triggering set, and time has expired *)
Definition autoTriggerDue (i : Z) (e : Engine) : bool :=
  let L := layerAt e i in
  trigActive L && negb (trigCount L =? 0) && (trigTimeMsecs L >? 0)
  && (trigTimeMsecs L <=? timePrevUpdate e).

(** CheckAutoTrigger: the force, and triggerLayer(i, force) *)
Definition autoTrigger_fire (i : Z) (e : Engine) : Engine :=
  let e := logEvent (EvAutoTrigger i) e in
  let r := if trigForce (layerAt e i) >=? 0 then (trigForce (layerAt e i), e)
           else random 0 (MAX_FORCE_VALUE + 1) e in
  triggerLayer i r.1 r.2.

(** CheckAutoTrigger: trigTimeMsecs = timePrevUpdate + 1000 * random(...) *)
Definition autoTrigger_rearm (i : Z) (e : Engine) : Engine :=
  let L := layerAt e i in
  let r := random (trigDelayMin L) (trigDelayMin L + trigDelayRange L + 1) e in
  updLayer i (set_trigTimeMsecs (to_uint32 (timePrevUpdate e + 1000 * r.1))) r.2.

(** CheckAutoTrigger: if (trigCount > 0) --trigCount *)
Definition autoTrigger_count (i : Z) (e : Engine) : Engine :=
  if trigCount (layerAt e i) >? 0
  then updLayer i (fun L => set_trigCount (trigCount L - 1) L) e
  else e.

(** CheckAutoTrigger: one layer that is on an enabled track *)
Definition CheckAutoTrigger_layer (rollover : bool) (i : Z) (e : Engine)
  : Engine :=
  let e := rebaseTrigger rollover i e in
  if autoTriggerDue i e
  then autoTrigger_count i (autoTrigger_rearm i (autoTrigger_fire i e))
  else e.

Fixpoint CheckAutoTrigger_loop (rollover : bool) (layers : list Z)
    (e : Engine) : Engine :=
  match layers with
  | [] => e
  | i :: rest =>
      if track (layerAt e i) >? indexTrackEnable e then e (* not enabled yet *)
      else CheckAutoTrigger_loop rollover rest (CheckAutoTrigger_layer rollover i e)
  end.

(** internal: check for any automatic triggering *)
Definition CheckAutoTrigger (rollover : bool) (e : Engine) : Engine :=
  CheckAutoTrigger_loop rollover (seqZ 0 (indexLayerStack e + 1)) e.

(** external: cause trigger if enabled in track *)
Definition triggerForce (force : Z) (e : Engine) : Engine :=
  let force := to_short force in
  let e := set_curForce force e in
  foldl (fun e i => if trigExtern (layerAt e i) then triggerLayer i force e
                    else e)
        e (seqZ 0 (indexLayerStack e + 1)).

(** internal: called from plugins (the overload with a layer argument) *)
Definition triggerForceLayer (layer force : Z) (e : Engine) : Engine :=
  let layer := to_byte layer in
  let force := to_short force in
  foldl (fun e i => if layer =? trigSource (layerAt e i)
                    then triggerLayer i force e else e)
        e (seqZ 0 (indexLayerStack e + 1)).

(** *** Main command handler *)

Definition is_cmd (c : ascii) (letter : string) : bool :=
  Ascii.eqb c (deref letter).

(** The layer commands act on pluginLayers[indexLayerStack] *)
Definition updTopLayer (f : PluginLayer P -> PluginLayer P) (e : Engine)
  : Engine :=
  updLayer (indexLayerStack e) f e.

(** The draw commands act on [pdraw] *)
Definition updPdraw (f : DrawProps.t -> DrawProps.t) (e : Engine) : Engine :=
  updDraw (indexTrackStack e) f e.

(** case 'J': sets offset into output display of the current track by
    percent *)
Definition cmd_J (arg : string) (e : Engine) : Engine :=
  updPdraw (DrawProps.set_pixStart
              (to_uint16 (cdiv (GetNumValue3 arg 0 MAX_PERCENTAGE
                                * (numPixels e - 1)) MAX_PERCENTAGE))) e.

(** case 'K': sets number of pixels in the current track by percent *)
Definition cmd_K (arg : string) (e : Engine) : Engine :=
  updPdraw (DrawProps.set_pixLen
              (to_uint16 (cdiv (GetNumValue3 arg 0 MAX_PERCENTAGE
                                * (numPixels e - 1)) MAX_PERCENTAGE + 1))) e.

(** case 'U': "U1" is default(up), "U" toggles value *)
Definition cmd_U (arg : string) (e : Engine) : Engine :=
  updPdraw (fun d => DrawProps.set_goUpwards
                       (GetBoolValue arg (DrawProps.goUpwards d)) d) e.

(** case 'V': "V0" is default(OR), "V" toggles value *)
Definition cmd_V (arg : string) (e : Engine) : Engine :=
  updPdraw (fun d => DrawProps.set_orPixelValues
                       (negb (GetBoolValue arg (negb (DrawProps.orPixelValues d))))
                       d) e.

(** case 'H': "H" has no effect *)
Definition cmd_H (arg : string) (e : Engine) : Engine :=
  updPdraw (fun d => makeColorVals
                       (DrawProps.set_degreeHue
                          (GetNumValue3 arg (DrawProps.degreeHue d)
                                        MAX_DEGREES_HUE) d)) e.

(** case 'W': "W" has no effect *)
Definition cmd_W (arg : string) (e : Engine) : Engine :=
  updPdraw (fun d => makeColorVals
                       (DrawProps.set_pcentWhite
                          (GetNumValue3 arg (DrawProps.pcentWhite d)
                                        MAX_PERCENTAGE) d)) e.

(** case 'B': "B" has no effect *)
Definition cmd_B (arg : string) (e : Engine) : Engine :=
  updPdraw (fun d => makeColorVals
                       (DrawProps.set_pcentBright
                          (GetNumValue3 arg (DrawProps.pcentBright d)
                                        MAX_PERCENTAGE) d)) e.

(** case 'C': set the pixel Count in the current track properties; the
    count is mapped with the engine's own [segCount] *)
Definition cmd_C (arg : string) (e : Engine) : Engine :=
  let curvalue :=
    to_short (cdiv (DrawProps.pixCount (pdraw e) * MAX_PERCENTAGE) (segCount e)) in
  let percent := to_short (GetNumValue3 arg curvalue MAX_PERCENTAGE) in
  updPdraw (DrawProps.set_pixCount
              (to_uint16 (mapValue percent 0 MAX_PERCENTAGE 1 (segCount e)))) e.

(** case 'D': "D" has no effect *)
Definition cmd_D (arg : string) (e : Engine) : Engine :=
  updPdraw (fun d => DrawProps.set_msecsDelay
                       (GetNumValue3 arg (DrawProps.msecsDelay d)
                                     MAX_DELAY_VALUE) d) e.

(** case 'Q': set extern control bits ("Q" has no effect) *)
Definition cmd_Q (arg : string) (e : Engine) : Engine :=
  let bits := to_short (GetNumValue arg ExtControlBit_All) in
  if bits >=? 0 then
    let e := updTrack (indexTrackStack e)
                      (PluginTrack.set_ctrlBits (to_byte bits)) e in
    if externPropMode e then
      let e := if negb (Z.land bits ExtControlBit_DegreeHue =? 0)
               then updPdraw (DrawProps.set_degreeHue (externDegreeHue e)) e
               else e in
      let e := if negb (Z.land bits ExtControlBit_PcentWhite =? 0)
               then updPdraw (DrawProps.set_pcentWhite (externPcentWhite e)) e
               else e in
      let e := if negb (Z.land bits ExtControlBit_PixCount =? 0)
               then updPdraw
                      (DrawProps.set_pixCount
                         (to_uint16
                            (mapValue (externPcentCount e) 0 MAX_PERCENTAGE 1
                               (PluginTrack.segCount
                                  (trackAt e (indexTrackStack e)))))) e
               else e in
      updPdraw makeColorVals e
    else e
  else e.

(** case 'I': 'I0' to disable, "I" is same as "I1" *)
Definition cmd_I (arg : string) (e : Engine) : Engine :=
  if isdigit (deref arg)
  then updTopLayer (set_trigExtern (GetBoolValue arg false)) e
  else updTopLayer (set_trigExtern true) e.

(** case 'A': "A" is same as "A0", "A255" disables *)
Definition cmd_A (arg : string) (e : Engine) : Engine :=
  updTopLayer (set_trigSource (to_byte (GetNumValue3 arg 0 MAX_BYTE_VALUE))) e.

(** case 'F': "F" causes random force to be used *)
Definition cmd_F (arg : string) (e : Engine) : Engine :=
  if isdigit (deref arg)
  then updTopLayer
         (set_trigForce (to_short (GetNumValue3 arg 0 MAX_FORCE_VALUE))) e
  else updTopLayer (set_trigForce (-1)) e.

(** case 'N': "N" or "N0" means forever, same as not specifying at all *)
Definition cmd_N (arg : string) (e : Engine) : Engine :=
  let e := updTopLayer
             (set_trigCount (to_short (GetNumValue3 arg 0 MAX_WORD_VALUE))) e in
  if trigCount (layerAt e (indexLayerStack e)) =? 0
  then updTopLayer (set_trigCount (-1)) e
  else e.

(** case 'O': "O", "O0", "O1" all get set to default(1sec) *)
Definition cmd_O (arg : string) (e : Engine) : Engine :=
  let min := to_uint16 (GetNumValue3 arg 1 MAX_WORD_VALUE) in
  updTopLayer (set_trigDelayMin (if min =? 0 then 1 else min)) e.

(** case 'T', the block that runs when a digit follows the letter: there
    is a value after "T", the range of the delay; arm the timer *)
Definition cmd_T_arm (arg : string) (e : Engine) : Engine :=
  let e := updTopLayer
             (set_trigDelayRange
                (to_uint16 (GetNumValue3 arg 0 MAX_WORD_VALUE))) e in
  let now := getMsecs e in
  let L := layerAt now.2 (indexLayerStack now.2) in
  let secs :=
    random (trigDelayMin L) (trigDelayMin L + trigDelayRange L + 1) now.2 in
  updTopLayer (set_trigTimeMsecs (to_uint32 (now.1 + 1000 * secs.1))) secs.2.

(** case 'T': trigger the current plugin layer, either once ("T") or with
    timer ("T<n>") *)
Definition cmd_T (arg : string) (e : Engine) : Engine :=
  let force := trigForce (layerAt e (indexLayerStack e)) in
  let r := if force <? 0
           then let f := random 0 (MAX_FORCE_VALUE + 1) e in (to_short f.1, f.2)
           else (force, e) in
  let e := if isdigit (deref arg) then cmd_T_arm arg r.2 else r.2 in
  (* always trigger immediately *)
  triggerLayer (indexLayerStack e) r.1 e.

(** case 'G': Go: activate newly added effect tracks *)
Definition cmd_G (e : Engine) : Engine :=
  if negb (indexTrackEnable e =? indexTrackStack e)
  then set_indexTrackEnable (indexTrackStack e) e
  else e.

(** The [switch (cmd[0])] that runs when [pdraw != NULL] *)
Definition execDrawCmd (c : ascii) (arg : string) (e : Engine)
  : Status * Engine :=
  if is_cmd c "J" then (Status_Success, cmd_J arg e)
  else if is_cmd c "K" then (Status_Success, cmd_K arg e)
  else if is_cmd c "U" then (Status_Success, cmd_U arg e)
  else if is_cmd c "V" then (Status_Success, cmd_V arg e)
  else if is_cmd c "H" then (Status_Success, cmd_H arg e)
  else if is_cmd c "W" then (Status_Success, cmd_W arg e)
  else if is_cmd c "B" then (Status_Success, cmd_B arg e)
  else if is_cmd c "C" then (Status_Success, cmd_C arg e)
  else if is_cmd c "D" then (Status_Success, cmd_D arg e)
  else if is_cmd c "Q" then (Status_Success, cmd_Q arg e)
  else if is_cmd c "I" then (Status_Success, cmd_I arg e)
  else if is_cmd c "A" then (Status_Success, cmd_A arg e)
  else if is_cmd c "F" then (Status_Success, cmd_F arg e)
  else if is_cmd c "N" then (Status_Success, cmd_N arg e)
  else if is_cmd c "O" then (Status_Success, cmd_O arg e)
  else if is_cmd c "T" then (Status_Success, cmd_T arg e)
  else if is_cmd c "G" then (Status_Success, cmd_G e)
  else (Status_Error_BadCmd, e).

(** [cmd+1]: the argument that follows the command letter *)
Definition cmd_arg (cmd : string) : string :=
  match cmd with
  | EmptyString => EmptyString
  | String _ arg => arg
  end.

(** One turn of the do-while loop of execCmdStr: the token [cmd] with the
    local [segindex]; gives the status, the new [segindex] and the engine. *)
Definition execCmd (cmd : string) (segindex : Z) (e : Engine)
  : Status * Z * Engine :=
  let c := deref cmd in
  let arg := cmd_arg cmd in
  if is_cmd c "X" then
    (* sets offset into output display of the current segment by index *)
    let pos := GetNumValue arg (numPixels e - 1) in
    (Status_Success, segindex,
     set_segOffset (if pos >=? 0 then pos else 0) e)
  else if is_cmd c "Y" then
    (* sets number of pixels in the current segment by index *)
    let count := GetNumValue arg (numPixels e - segOffset e) in
    if count >? 0 then (Status_Success, segindex + 1, set_segCount count e)
    else (Status_Success, segindex, set_segCount (numPixels e) e)
  else if is_cmd c "E" then
    (* add a plugin Effect to the stack ("E" is an error) *)
    let plugin := GetNumValue arg MAX_PLUGIN_VALUE in
    if plugin >=? 0 then
      let '(status, e) :=
        NewPluginLayer plugin (if segindex <? 0 then 0 else segindex) e in
      (status, segindex, e)
    else (Status_Error_BadVal, segindex, e)
  else if is_cmd c "P" then
    (* redisplay pixels after being cleared *)
    (Status_Success, segindex, set_timePrevUpdate 0 (clearStack e))
  else if indexTrackStack e >=? 0 then
    let '(status, e) := execDrawCmd c arg e in (status, segindex, e)
  else
    (* must add track before setting draw parms *)
    (Status_Error_BadCmd, segindex, e).

(** The do-while loop over the tokens, stopped by the first error *)
Fixpoint execTokens (cmds : list string) (segindex : Z) (e : Engine)
  : Status * Z * Engine :=
  match cmds with
  | [] => (Status_Success, segindex, e)
  | cmd :: rest =>
      let '(status, segindex, e) := execCmd cmd segindex e in
      if Status_eqb status Status_Success then execTokens rest segindex e
      else (status, segindex, e)
  end.

(** execCmdStr: upper-case the string, cut it at the spaces, run the
    tokens; [segindex] is a local that starts at -1. *)
Definition execCmdStr (cmdstr : string) (e : Engine) : Status * Engine :=
  let '(status, _, e) := execTokens (strtok (toupper_str cmdstr)) (-1) e in
  (status, e).

(** *** Pixel buffer renderer *)

(** updateEffects, first loop: one track inside the enabled range. Gives
    whether the track was redrawn. *)
Definition redrawTrack (rollover : bool) (i : Z) (e : Engine) : bool * Engine :=
  let lay := PluginTrack.layer (trackAt e i) in
  if negb (isRedraw (pPlugin (layerAt e lay))) then (false, e)
  else
    let e := if rollover
             then updTrack i (PluginTrack.set_msTimeRedraw (timePrevUpdate e)) e
             else e in
    (* don't draw if the layer hasn't been triggered yet, or it's not time yet *)
    if negb (trigActive (layerAt e lay)) then (false, e)
    else if PluginTrack.msTimeRedraw (trackAt e i) >? timePrevUpdate e
    then (false, e)
    else
      let saved := savedProps i e in
      (* prevent drawing by predraw effects *)
      let e := set_pDrawPixels SinkNull e in
      (* call all of the predraw effects associated with this track *)
      let e :=
        foldl (fun e j =>
                 if (track (layerAt e j) =? i) && trigActive (layerAt e j)
                    && negb (isRedraw (pPlugin (layerAt e j)))
                 then callNextstep j i e else e)
              e (seqZ 0 (indexLayerStack e + 1)) in
      let e := if externPropMode e
               then RestorePropVals i saved.1.1 saved.1.2 saved.2 e else e in
      (* now the main drawing effect is executed for this track *)
      let e := set_pDrawPixels (SinkTrack i) e in
      let e := callNextstep lay i e in
      let e := set_pDrawPixels SinkDisplay e in
      let addtime :=
        to_short (DrawProps.msecsDelay (PluginTrack.draw (trackAt e i))
                  + delayOffset e) in
      (* must advance at least by 1 each time *)
      let addtime := if addtime <=? 0 then 1 else addtime in
      let e := updTrack i (PluginTrack.set_msTimeRedraw
                             (to_uint32 (timePrevUpdate e + addtime))) e in
      (true, e).

Fixpoint redrawTracks (rollover : bool) (tracks : list Z) (doshow : bool)
    (e : Engine) : bool * Engine :=
  match tracks with
  | [] => (doshow, e)
  | i :: rest =>
      if i >? indexTrackEnable e then (doshow, e) (* at top of active layers *)
      else
        let '(drew, e) := redrawTrack rollover i e in
        redrawTracks rollover rest (doshow || drew) e
  end.

(** A byte read or written through a pointer: [None] outside the buffer. *)
Definition rdZ (l : list Z) (i : Z) : option Z :=
  if i <? 0 then None else l !! Z.to_nat i.

Definition wrZ (l : list Z) (i v : Z) : option (list Z) :=
  if (0 <=? i) && (i <? Z.of_nat (length l))
  then Some (<[Z.to_nat i := v]> l) else None.

(** The body of the while loop up to the direction test: combine the pixel
    at [y] of the track's buffer with the pixel at [x] of the display. *)
Definition blendPixel (orPixelValues : bool) (src : list Z) (y : Z)
    (disp : list Z) (x : Z) : option (list Z) :=
  s0 ← rdZ src y; s1 ← rdZ src (y + 1); s2 ← rdZ src (y + 2);
  if orPixelValues then
    (* combine contents of buffer window with actual pixel array *)
    d0 ← rdZ disp x; d1 ← rdZ disp (x + 1); d2 ← rdZ disp (x + 2);
    disp ← wrZ disp x (Z.lor d0 s0);
    disp ← wrZ disp (x + 1) (Z.lor d1 s1);
    wrZ disp (x + 2) (Z.lor d2 s2)
  else if negb (s0 =? 0) || negb (s1 =? 0) || negb (s2 =? 0) then
    disp ← wrZ disp x s0;
    disp ← wrZ disp (x + 1) s1;
    wrZ disp (x + 2) s2
  else Some disp.

(** The [while(true)] loop of the compositor. [fuel] bounds the number of
    turns; [None] is a walk that leaves a buffer or does not end. *)
Fixpoint mergeLoop (fuel : nat) (up orv : bool) (pixlast pixstart pixend : Z)
    (src : list Z) (pix x y : Z) (disp : list Z) : option (list Z) :=
  match fuel with
  | O => None
  | S fuel' =>
      disp ← blendPixel orv src y disp x;
      if up then
        if pix =? pixend then Some disp
        else
          (* wrap around to start of strip *)
          let '(pix, x) := if pix >=? pixlast then (0, 0)
                           else (to_short (pix + 1), to_short (x + 3)) in
          let y := if y >=? pixlast * 3 then 0 else to_short (y + 3) in
          mergeLoop fuel' up orv pixlast pixstart pixend src pix x y disp
      else (* going backwards *)
        if pix =? pixstart then Some disp
        else
          (* wrap around to end of strip *)
          let '(pix, x) := if pix <=? 0 then (pixlast, to_short (pixlast * 3))
                           else (to_short (pix - 1), to_short (x - 3)) in
          let y := if y >=? pixlast * 3 then 0 else to_short (y + 3) in
          mergeLoop fuel' up orv pixlast pixstart pixend src pix x y disp
  end.

(** updateEffects, second loop: merge the buffer of track [i] into the
    display. A walk that has not met its end point after [numPixels + 1]
    turns never does. *)
Definition mergeTrack (e : Engine) (i : Z) (disp : list Z) : option (list Z) :=
  let pTrack := trackAt e i in
  if negb (isRedraw (pPlugin (layerAt e (PluginTrack.layer pTrack))))
  then Some disp
  else
    src ← PluginTrack.pRedrawBuff pTrack;
    let d := PluginTrack.draw pTrack in
    let pixlast := to_short (numPixels e - 1) in
    let pixstart := to_short (PluginTrack.segOffset pTrack + DrawProps.pixStart d) in
    let pixstart := if pixstart >? pixlast
                    then to_short (pixstart - (pixlast + 1)) else pixstart in
    let pixend := to_short (pixstart + DrawProps.pixLen d - 1) in
    let pixend := if pixend >? pixlast
                  then to_short (pixend - (pixlast + 1)) else pixend in
    let pix := if DrawProps.goUpwards d then pixstart else pixend in
    let x := to_short (pix * 3) in
    let y := to_short (DrawProps.pixStart d * 3) in
    mergeLoop (S (Z.to_nat (numPixels e))) (DrawProps.goUpwards d)
              (DrawProps.orPixelValues d) pixlast pixstart pixend src
              pix x y disp.

Fixpoint mergeTracks (e : Engine) (tracks : list Z) (disp : list Z)
  : option (list Z) :=
  match tracks with
  | [] => Some disp
  | i :: rest =>
      if i >? indexTrackEnable e then Some disp (* at top of active layers *)
      else disp ← mergeTrack e i disp; mergeTracks e rest disp
  end.

(** The block under [if (doshow)]: clear the output buffer, then merge all
    buffers. *)
Definition mergeBuffers (e : Engine) : option (list Z) :=
  mergeTracks e (seqZ 0 (indexTrackStack e + 1))
              (memset0 (pDisplayPixels e) (numPixels e * 3)).

Definition updateEffects (e : Engine) : option (bool * Engine) :=
  let doshow := timePrevUpdate e =? 0 in
  let time := getMsecs e in
  let rollover := timePrevUpdate time.2 >? time.1 in
  let e := set_timePrevUpdate time.1 time.2 in
  let e := CheckAutoTrigger rollover e in
  (* first have any redraw effects that are ready draw into its own buffers *)
  let r := redrawTracks rollover (seqZ 0 (indexTrackStack e + 1)) doshow e in
  if r.1 then
    (* merge all buffers whether just redrawn or not if anyone of them changed *)
    disp ← mergeBuffers r.2;
    Some (true, set_pDisplayPixels disp r.2)
  else Some (false, r.2).

(** [n] calls of updateEffects in a row *)
Fixpoint updateEffects_n (n : nat) (e : Engine) : option Engine :=
  match n with
  | O => Some e
  | S n' =>
      r ← updateEffects e;
      updateEffects_n n' r.2
  end.

End Engine.

(** ** Constructor *)

(** PixelNutEngine(ptr_pixels, num_pixels, goupwards, num_layers,
    num_tracks). [ptr_pixels] is the display buffer of [3 * num_pixels]
    bytes, or NULL ([None]); [got_layers] and [got_tracks] say whether the two
    calls of malloc for the arrays succeed. The cells of the arrays are
    unspecified until written, and are taken as zero here. [pDrawPixels] is
    left NULL, for the caller to test, when a pointer is NULL or there is no
    pixel. Members without an initialiser in the header ([externDegreeHue],
    [externPcentWhite], [externPcentCount]) are given as arguments. *)
Definition PixelNutEngine_new {P : Type} (ptr_pixels : option (list Z))
    (num_pixels : Z) (goupwards : bool) (num_layers num_tracks : Z)
    (got_layers got_tracks : bool)
    (ext_hue ext_white ext_count : Z) : PixelNutEngine P :=
  mkEngine
    (if match ptr_pixels with Some _ => true | None => false end
        && negb (num_pixels =? 0) && got_layers && got_tracks
     then SinkDisplay else SinkNull)
    MAX_PERCENTAGE 0
    (if got_layers then replicate (Z.to_nat num_layers) zeroLayer else [])
    num_layers (-1) (-1)
    (if got_tracks then replicate (Z.to_nat num_tracks) PluginTrack.zero else [])
    num_tracks (-1)
    0 goupwards (cdiv MAX_FORCE_VALUE 2) num_pixels (default [] ptr_pixels)
    0 num_pixels false ext_hue ext_white ext_count 0%nat [].

(** ** The plugin factory (src/PluginFactory.cpp) *)

Inductive PNP : Set :=
| PNP_DrawAll | PNP_DrawPush | PNP_DrawStep | PNP_LightWave | PNP_CometHeads
| PNP_FerrisWheel | PNP_BlockScanner | PNP_Twinkle | PNP_Blinky | PNP_Noise
| PNP_HueSet | PNP_HueRotate | PNP_ColorMeld | PNP_ColorModify
| PNP_ColorRandom | PNP_CountSet | PNP_DelaySurge | PNP_BrightWave
| PNP_WinExpander | PNP_FlipDirection.

(** PluginFactoryCore::makePlugin: the drawing effects *)
Definition PluginFactoryCore_makePlugin (plugin : Z) : option PNP :=
  match plugin with
  | 0 => Some PNP_DrawAll
  | 1 => Some PNP_DrawPush
  | 2 => Some PNP_DrawStep
  | 10 => Some PNP_LightWave
  | 20 => Some PNP_CometHeads
  | 30 => Some PNP_FerrisWheel
  | 40 => Some PNP_BlockScanner
  | 50 => Some PNP_Twinkle
  | 51 => Some PNP_Blinky
  | 52 => Some PNP_Noise
  | _ => None
  end.

(** PluginFactoryAdv::makePlugin: the predraw effects, then the core set *)
Definition PluginFactoryAdv_makePlugin (plugin : Z) : option PNP :=
  match plugin with
  | 100 => Some PNP_HueSet
  | 101 => Some PNP_HueRotate
  | 110 => Some PNP_ColorMeld
  | 111 => Some PNP_ColorModify
  | 112 => Some PNP_ColorRandom
  | 120 => Some PNP_CountSet
  | 131 => Some PNP_DelaySurge
  | 142 => Some PNP_BrightWave
  | 150 => Some PNP_WinExpander
  | 160 => Some PNP_FlipDirection
  | _ => PluginFactoryCore_makePlugin plugin
  end.

(** The plugin number of each class, as the two switches give it *)
Definition PNP_id (p : PNP) : Z :=
  match p with
  | PNP_DrawAll => 0 | PNP_DrawPush => 1 | PNP_DrawStep => 2
  | PNP_LightWave => 10 | PNP_CometHeads => 20 | PNP_FerrisWheel => 30
  | PNP_BlockScanner => 40 | PNP_Twinkle => 50 | PNP_Blinky => 51
  | PNP_Noise => 52
  | PNP_HueSet => 100 | PNP_HueRotate => 101 | PNP_ColorMeld => 110
  | PNP_ColorModify => 111 | PNP_ColorRandom => 112 | PNP_CountSet => 120
  | PNP_DelaySurge => 131 | PNP_BrightWave => 142 | PNP_WinExpander => 150
  | PNP_FlipDirection => 160
  end.

(** Modelled from the spec: of the plugin classes only PNP_CometHeads.h is
    at hand, and it rests on the missing PixelNutComets. [gettype] keeps the
    one bit the engine tests: set for the factory's "drawing effects" (as
    PNP_CometHeads::gettype has it), clear for its "predraw effects". The
    bodies of [begin], [trigger] and [nextstep] leave the object, the draw
    properties and the pixels as they are. *)
Definition PNP_gettype (p : PNP) : Z :=
  match p with
  | PNP_DrawAll | PNP_DrawPush | PNP_DrawStep | PNP_LightWave | PNP_CometHeads
  | PNP_FerrisWheel | PNP_BlockScanner | PNP_Twinkle | PNP_Blinky | PNP_Noise =>
      PLUGIN_TYPE_REDRAW
  | _ => 0
  end.

#[export] Instance PNP_plugin : PixelNutPlugin PNP := {|
  gettype := PNP_gettype;
  begin := fun p _ _ => p;
  trigger := fun p d sink _ => (p, d, sink);
  nextstep := fun p d sink => (p, d, sink)
|}.

#[export] Instance PNP_factory : PluginFactory PNP := {|
  makePlugin := PluginFactoryAdv_makePlugin
|}.

(** ** PNP_CometHeads (src/plugins/PNP_CometHeads.h) *)

Module CometHeads.

(** The comet support class, PixelNutComets, as the plugin uses it. Its
    sources are not at hand, so its three calls are left open: creating the
    data for [maxheads] heads (NULL, here [None], when that fails; the first
    argument counts the creations asked for before), adding a head, which
    gives the number of heads, and drawing, which gives the number of heads
    left and the pixels. *)
Class PixelNutComets (D : Type) := {
  cometHeadCreate : nat -> Z -> option D;
  cometHeadAdd : option D -> Z -> bool -> Z -> Z * option D;
  cometHeadDraw : option D -> Z -> DrawProps.t -> option (list Z) -> Z
                  -> Z * option D * option (list Z)
}.

(** The members of the class *)
Record t (D : Type) : Type := mk {
  myid : Z;                         (* byte *)
  firstime : bool;
  repMode : bool;
  forceVal : Z;                     (* short *)
  pixLength : Z;                    (* uint16_t *)
  headCount : Z;                    (* uint16_t *)
  cdata : option D
}.
Arguments mk {D} _ _ _ _ _ _ _.
Arguments myid {D} _.
Arguments firstime {D} _.
Arguments repMode {D} _.
Arguments forceVal {D} _.
Arguments pixLength {D} _.
Arguments headCount {D} _.
Arguments cdata {D} _.

Section Plugin.
Context {D : Type} {Comets : PixelNutComets D}.

(** uint16_t maxheads = pixLength / 8: one head for every 8 pixels up to 12,
    but at least one *)
Definition maxheads_of (pixLength : Z) : Z :=
  let maxheads := to_uint16 (cdiv pixLength 8) in
  if maxheads <? 1 then 1
  else if maxheads >? 12 then 12
  else maxheads.

(** begin(id, pixlen), with the number [n] of creations asked of the comet
    class so far; gives the sizes asked for, in order *)
Definition begin (id pixlen : Z) (n : nat) (p : t D) : t D * list Z :=
  let pixLength := to_uint16 pixlen in
  let maxheads := maxheads_of pixLength in
  let c := cometHeadCreate n maxheads in
  let '(c, asked) :=
    match c with
    | None => if maxheads >? 1 (* try for at least 1 *)
              then (cometHeadCreate (S n) 1, [maxheads; 1])
              else (c, [maxheads])
    | Some _ => (c, [maxheads])
    end in
  (mk (to_byte id) true (repMode p) (forceVal p) pixLength 0 c, asked).

(** trigger(handle, pdraw, force); gives whether a head was added, and if
    so whether it repeats: [Some dorepeat], or [None] *)
Definition trigger (force : Z) (p : t D) : t D * option bool :=
  let force := to_short force in
  let '(doit, dorepeat, rep) :=
    if firstime p then
      if force =? 0 then (false, false, false)
      else (true, true, true)
    else if repMode p then (true, force >=? 0, repMode p)
    else if force >=? 0 then (true, false, repMode p)
    else (false, true, repMode p) in
  if doit then
    let r := cometHeadAdd (cdata p) (myid p) dorepeat (pixLength p) in
    (mk (myid p) false rep force (pixLength p) (to_uint16 r.1) r.2,
     Some dorepeat)
  else
    (mk (myid p) false rep force (pixLength p) (headCount p) (cdata p), None).

(** nextstep(handle, pdraw); gives the pixels drawn and, when the number of
    heads has changed, the force handed to sendForce *)
Definition nextstep (d : DrawProps.t) (sink : option (list Z)) (p : t D)
  : t D * option (list Z) * option Z :=
  let r := cometHeadDraw (cdata p) (myid p) d sink (pixLength p) in
  let count := r.1.1 in
  if negb (count =? headCount p)
  then (mk (myid p) (firstime p) (repMode p) (forceVal p) (pixLength p)
           (to_uint16 count) r.1.2, r.2, Some (forceVal p))
  else (mk (myid p) (firstime p) (repMode p) (forceVal p) (pixLength p)
           (headCount p) r.1.2, r.2, None).

(** A run of triggers, with what each of them added *)
Fixpoint triggers (forces : list Z) (p : t D) : t D * list (option bool) :=
  match forces with
  | [] => (p, [])
  | f :: rest =>
      let r := trigger f p in
      let rs := triggers rest r.1 in
      (rs.1, r.2 :: rs.2)
  end.

End Plugin.

End CometHeads.

(** A platform for running the engine on examples: the clock, the PRNG and
    the allocator are given; the colour conversion and the three
    implementation-defined constants are stand-ins. *)
Definition Platform (clock rnd : nat -> Z) (alloc : nat -> bool)
  : PixelNutSupport := {|
  msecs_at := clock;
  random_at := rnd;
  malloc_at := alloc;
  makeColorRGB := fun hue white bright => (bright, white, hue mod 256);
  MAX_DEGREES_HUE := 360;
  MAX_DELAY_VALUE := 1000;
  MAX_PLUGIN_VALUE := 32000
|}.

(** The strip of the spec's scenarios: 10 pixels, upwards, 4 layers and 3
    tracks, an allocator that never fails, a clock that advances by one
    second per platform call. *)
Definition strip10 : PixelNutEngine PNP :=
  PixelNutEngine_new (Some (replicate 30 0)) 10 true 4 3 true true 0 0 0.

Definition Plat10 : PixelNutSupport :=
  Platform (fun n => 1000 * Z.of_nat n) (fun _ => 0) (fun _ => true).

Definition runCmds {P} {Plug : PixelNutPlugin P} {Fact : PluginFactory P}
    {Sup : PixelNutSupport} (cmds : list string) (e : PixelNutEngine P)
  : PixelNutEngine P :=
  foldl (fun e c => (execCmdStr c e).2) e cmds.

(** *** Scenarios *)

(** A clock that reads 0 for the first three platform calls and then stands
    1000 ms short of the 32-bit rollover. *)
Definition WrapClock : PixelNutSupport :=
  Platform (fun n => if (n <? 3)%nat then 0 else 4294966296)
           (fun _ => 0) (fun _ => true).

(** A clock that advances by one second per platform call for eleven calls
    and reads 10 ms afterwards: it has rolled over. *)
Definition BackClock : PixelNutSupport :=
  Platform (fun n => if (n <? 11)%nat then 1000 * Z.of_nat n else 10)
           (fun _ => 0) (fun _ => true).

(** A platform out of memory: malloc always fails. *)
Definition NoMem : PixelNutSupport :=
  Platform (fun n => 1000 * Z.of_nat n) (fun _ => 0) (fun _ => false).

(** Two drawing effects, each on its own track, both activated. *)
Definition two_tracks : PixelNutEngine PNP :=
  runCmds (Sup := Plat10) ["E0 E0 G"%string] strip10.

(** A drawing effect, a predraw effect on the same track, and a second
    drawing effect on a second track. *)
Definition three_layers : PixelNutEngine PNP :=
  runCmds (Sup := Plat10) ["E0 E100 E0"%string] strip10.

(** One activated drawing effect that fires once, armed while the clock of
    [WrapClock] reads 0. *)
Definition armed_once : PixelNutEngine PNP :=
  runCmds (Sup := WrapClock) ["E0 N1 T0 G"%string] strip10.

(** Two armed drawing effects, only the first of them activated, after one
    update at 10 s on the clock of [BackClock]. *)
Definition before_rollover : PixelNutEngine PNP :=
  default strip10
    (updateEffects_n (Sup := BackClock) 1
       (runCmds (Sup := BackClock) ["E0 T5 G"%string; "E0 T5"%string] strip10)).

(** A drawing effect on a segment of 5 pixels, its window set by K100 to
    the length of the whole strip, triggered and activated. *)
Definition short_segment : PixelNutEngine PNP :=
  runCmds (Sup := Plat10) ["Y5 E0 K100 T G"%string] strip10.

(** One drawing effect on the whole strip. *)
Definition one_track : PixelNutEngine PNP :=
  runCmds (Sup := Plat10) ["E0"%string] strip10.

(** A stand-in for the comet class on examples: the data is the list of
    the repeat flags of the heads, creation never fails, and drawing changes
    nothing. *)
Definition ListComets : CometHeads.PixelNutComets (list bool) := {|
  CometHeads.cometHeadCreate := fun _ _ => Some [];
  CometHeads.cometHeadAdd := fun c _ rep _ =>
    (Z.of_nat (S (length (default [] c))), Some (rep :: default [] c));
  CometHeads.cometHeadDraw := fun c _ _ sink _ =>
    (Z.of_nat (length (default [] c)), c, sink)
|}.

(** A comet plugin as begin leaves it on a segment of 40 pixels *)
Definition comet40 : CometHeads.t (list bool) :=
  (CometHeads.begin (Comets := ListComets) 0 40 0
     (CometHeads.mk 0 false false 0 0 0 None)).1.

(** ** Vocabulary of the theorems *)

(** How many times CheckAutoTrigger fired layer [i], read off the log. *)
Fixpoint autoFires (i : Z) (evs : list Event) : Z :=
  match evs with
  | [] => 0
  | EvAutoTrigger j :: rest => (if j =? i then 1 else 0) + autoFires i rest
  | _ :: rest => autoFires i rest
  end.

(** How many times the redraw buffer of track [i] was freed, read off the
    log. *)
Fixpoint frees (i : Z) (evs : list Event) : Z :=
  match evs with
  | [] => 0
  | EvFree j :: rest => (if j =? i then 1 else 0) + frees i rest
  | _ :: rest => frees i rest
  end.

(** How many times nextstep of the plugin of layer [j] was called, read
    off the log. *)
Fixpoint nextsteps (j : Z) (evs : list Event) : Z :=
  match evs with
  | [] => 0
  | EvNextstep k :: rest => (if k =? j then 1 else 0) + nextsteps j rest
  | _ :: rest => nextsteps j rest
  end.

Definition is_auto (ev : Event) : bool :=
  match ev with
  | EvAutoTrigger _ => true
  | _ => false
  end.

Section Frame.
Context {P : Type}.
Implicit Types (e : PixelNutEngine P) (L : PluginLayer P).

(** The trigger configuration of a layer: everything but its plugin and
    its [trigActive] flag. *)
Definition cfg L : Z * Z * Z * Z * Z * bool * Z * Z :=
  (trigTimeMsecs L, trigCount L, trigDelayMin L, trigDelayRange L,
   trigForce L, trigExtern L, trigSource L, track L).

(** The stack indices, the clock and the sizes. *)
Definition dims e : Z * Z * Z * Z * Z * Z * Z * nat * nat :=
  (indexLayerStack e, indexTrackEnable e, indexTrackStack e, timePrevUpdate e,
   numPixels e, maxPluginLayers e, maxPluginTracks e,
   length (pluginLayers e), length (pluginTracks e)).

(** [keeps e e']: going from [e] to [e'] the engine may have called plugins,
    drawn and logged, but it has kept the trigger configuration of every
    layer, every raised [trigActive], the indices, and the count of automatic
    firings. *)
Record keeps (e e' : PixelNutEngine P) : Prop := mkKeeps {
  keeps_dims : dims e' = dims e;
  keeps_cfg : forall j, cfg (layerAt e' j) = cfg (layerAt e j);
  keeps_active : forall j, trigActive (layerAt e j) = true ->
                           trigActive (layerAt e' j) = true;
  keeps_fires : forall i, autoFires i (events e') = autoFires i (events e);
  keeps_events : exists evs, events e' = evs ++ events e
}.

End Frame.

Section Atomicity.
Context {P : Type}.
Implicit Types (e : PixelNutEngine P).

(** The members of the engine other than the two stacks, their indices and
    the ghost fields. *)
Definition settings e :=
  (pDrawPixels e, pcentBright e, delayOffset e, maxPluginLayers e,
   maxPluginTracks e, timePrevUpdate e, goUpwards e, curForce e, numPixels e,
   pDisplayPixels e, segOffset e, segCount e, externPropMode e,
   externDegreeHue e, externPcentWhite e, externPcentCount e).

(** [same_stack e e']: the two engines have the same stack tops, the same
    layers and tracks (draw properties and buffers included) up to those
    tops, and the same settings. *)
Definition same_stack e e' : Prop :=
  indexLayerStack e' = indexLayerStack e /\
  indexTrackStack e' = indexTrackStack e /\
  indexTrackEnable e' = indexTrackEnable e /\
  (forall i, 0 <= i <= indexLayerStack e -> layerAt e' i = layerAt e i) /\
  (forall t, 0 <= t <= indexTrackStack e -> trackAt e' t = trackAt e t) /\
  length (pluginLayers e') = length (pluginLayers e) /\
  length (pluginTracks e') = length (pluginTracks e) /\
  settings e' = settings e.

End Atomicity.

Section DeleteFrame.
Context {P : Type}.
Implicit Types (e : PixelNutEngine P).

(** What deleting plugins leaves alone: the tracks, the top of the track
    stack, the settings, and the count of frees. *)
Definition untouched_by_delete e e' : Prop :=
  pluginTracks e' = pluginTracks e /\
  indexTrackStack e' = indexTrackStack e /\
  settings e' = settings e /\
  forall i, frees i (events e') = frees i (events e).

End DeleteFrame.

Section Idle.
Context {P : Type}.
Implicit Types (e : PixelNutEngine P).

(** [idle j e e']: from [e] to [e'] layer [j] has stayed untriggered, it
    has not been fired automatically, its plugin has not been stepped, and
    the layer stack has kept its size. *)
Definition idle (j : Z) e e' : Prop :=
  trigActive (layerAt e' j) = false /\
  nextsteps j (events e') = nextsteps j (events e) /\
  autoFires j (events e') = autoFires j (events e) /\
  indexLayerStack e' = indexLayerStack e /\
  length (pluginLayers e') = length (pluginLayers e).

End Idle.

Section StackBounds.
Context {P : Type}.
Implicit Types (e : PixelNutEngine P).

(** The two stack tops are between -1 (empty) and the last cell of their
    arrays, and the top enabled track is between -1 and the top track. *)
Definition stack_in_bounds e : Prop :=
  -1 <= indexLayerStack e < maxPluginLayers e /\
  -1 <= indexTrackStack e < maxPluginTracks e /\
  -1 <= indexTrackEnable e <= indexTrackStack e.

End StackBounds.

Section Rejections.
Context {P : Type} {Plug : PixelNutPlugin P} {Fact : PluginFactory P}
  {Sup : PixelNutSupport}.
Implicit Types (e : PixelNutEngine P).

(** The five rejections of NewPluginLayer for plugin number [plugin] on the
    engine [e]: which one occurred, the status [st] it returns, and what the
    engine [e'] it leaves has logged (a plugin obtained from the factory, at
    address [a], is deleted again). *)
Definition rejection (plugin : Z) e (st : Status) e' : Prop :=
  (* layer stack full *)
  (indexLayerStack e + 1 >= maxPluginLayers e /\
   st = Status_Error_Memory /\ events e' = events e)
  \/ (* factory returning none *)
  (indexLayerStack e + 1 < maxPluginLayers e /\
   makePlugin plugin = None /\
   st = Status_Error_BadVal /\ events e' = events e)
  \/ exists p a,
    indexLayerStack e + 1 < maxPluginLayers e /\
    makePlugin plugin = Some p /\
    ( (* predraw plugin when no track exists *)
      (isRedraw (Some (mkPtr a p)) = false /\ indexTrackStack e < 0 /\
       st = Status_Error_BadCmd /\
       events e' = EvDelete a :: EvNew a plugin :: events e)
      \/ (* redraw plugin when the track stack is full *)
      (isRedraw (Some (mkPtr a p)) = true /\
       indexTrackStack e + 1 >= maxPluginTracks e /\
       st = Status_Error_Memory /\
       events e' = EvDelete a :: EvNew a plugin :: events e)
      \/ (* redraw-buffer allocation failure *)
      (isRedraw (Some (mkPtr a p)) = true /\
       indexTrackStack e + 1 < maxPluginTracks e /\
       malloc_at (S (calls e)) = false /\
       st = Status_Error_Memory /\
       exists id len,
         events e' = EvDelete a :: EvBegin a id len :: EvNew a plugin
                     :: events e) ).

End Rejections.

(** A command token: a string without a space. *)
Fixpoint no_space (s : string) : bool :=
  match s with
  | EmptyString => true
  | String c s' => negb (Ascii.eqb c " "%char) && no_space s'
  end.

(** A command string that is empty or holds only spaces. *)
Fixpoint all_spaces (s : string) : bool :=
  match s with
  | EmptyString => true
  | String c s' => Ascii.eqb c " "%char && all_spaces s'
  end.

(** The letters that have a case in the two switches of execCmdStr. *)
Definition known_command (c : ascii) : bool :=
  existsb (Ascii.eqb c)
    (list_ascii_of_string "XYEPJKUVHWBCDQIAFNOTG").

Section AutoTriggerVocabulary.
Context {P : Type}.
Implicit Types (e : PixelNutEngine P) (L : PluginLayer P).

(** The part of the trigger configuration that CheckAutoTrigger never
    writes. *)
Definition static_cfg L : Z * Z * Z * bool * Z * Z :=
  (trigDelayMin L, trigDelayRange L, trigForce L, trigExtern L, trigSource L,
   track L).

(** Whether the loop of CheckAutoTrigger over the layers [layers] gets to
    layer [i]: it stops at the first layer whose track is beyond
    [indexTrackEnable]. *)
Fixpoint reaches e (layers : list Z) (i : Z) : bool :=
  match layers with
  | [] => false
  | j :: rest =>
      if track (layerAt e j) >? indexTrackEnable e then false
      else if j =? i then true
      else reaches e rest i
  end.

(** What one pass of CheckAutoTrigger over layer [i] does to it, from [e] to
    [e']: the trigger time is first rebased to [timePrevUpdate] when there was
    a rollover and the layer is armed; then either the layer is not fired, or
    it is fired once, re-armed [secs] seconds after [timePrevUpdate] and its
    count, if positive, goes down by one. *)
Definition auto_outcome (rollover : bool) (i : Z) e e' : Prop :=
  let L0 := layerAt e i in
  let L1 := layerAt e' i in
  let t1 := if rollover && (trigTimeMsecs L0 >? 0) then timePrevUpdate e
            else trigTimeMsecs L0 in
  static_cfg L1 = static_cfg L0 /\
  ( (autoFires i (events e') = autoFires i (events e) /\
     trigCount L1 = trigCount L0 /\ trigTimeMsecs L1 = t1)
    \/
    (trigCount L0 <> 0 /\ 0 < t1 <= timePrevUpdate e /\
     autoFires i (events e') = autoFires i (events e) + 1 /\
     trigCount L1 = (if trigCount L0 >? 0 then trigCount L0 - 1
                     else trigCount L0) /\
     exists secs,
       trigTimeMsecs L1 = to_uint32 (timePrevUpdate e + 1000 * secs) /\
       (0 <= trigDelayRange L0 ->
        trigDelayMin L0 <= secs <= trigDelayMin L0 + trigDelayRange L0)) ).

End AutoTriggerVocabulary.

(** ** The compositor in the words of the design

    The window of a track on the display, as section 4.5 of the design
    describes it, to be compared with the loop of updateEffects. *)

(** "wrap once modulo num_pixels" *)
Definition wrap_once (n x : Z) : Z := if x >=? n then x - n else x.

(** The number of steps of +1, wrapping around on [0, n-1], from [a] to [b] *)
Definition steps_up (n a b : Z) : Z := if a <=? b then b - a else b - a + n.

(** pix_start_abs = seg_offset + pix_start, wrapped once *)
Definition pix_start_abs (n : Z) (k : PluginTrack.t) : Z :=
  wrap_once n (PluginTrack.segOffset k + DrawProps.pixStart (PluginTrack.draw k)).

(** pix_end_abs = pix_start_abs + pix_len - 1, wrapped once *)
Definition pix_end_abs (n : Z) (k : PluginTrack.t) : Z :=
  wrap_once n (pix_start_abs n k + DrawProps.pixLen (PluginTrack.draw k) - 1).

(** The source pixel of track [k] that the walk puts on display pixel [d],
    if the walk visits [d]: the walk starts at pix_start_abs (upwards) or at
    pix_end_abs (downwards) with the source at pix_start, and makes pix_len
    steps, the source going up by one each time. *)
Definition window_source (n : Z) (k : PluginTrack.t) (d : Z) : option Z :=
  let dr := PluginTrack.draw k in
  let step := if DrawProps.goUpwards dr then steps_up n (pix_start_abs n k) d
              else steps_up n d (pix_end_abs n k) in
  if step <? DrawProps.pixLen dr
  then Some (wrap_once n (DrawProps.pixStart dr + step)) else None.

(** Byte [c] of the source pixel behind display pixel [d]; 0 where the
    track does not draw. *)
Definition source_byte (n : Z) (k : PluginTrack.t) (d c : Z) : Z :=
  match PluginTrack.pRedrawBuff k, window_source n k d with
  | Some src, Some s => nthZ 0 src (3 * s + c)
  | _, _ => 0
  end.

(** "either OR the RGB triple from source into display, or (if
    or_pixel_values=false and the source is non-black) overwrite": byte [c]
    of the display pixel after the pixel at byte offset [y] of the source has
    been merged into it. *)
Definition blend_byte (orPixelValues : bool) (src : list Z) (y c old : Z) : Z :=
  if orPixelValues then Z.lor old (nthZ 0 src (y + c))
  else if (nthZ 0 src y =? 0) && (nthZ 0 src (y + 1) =? 0)
          && (nthZ 0 src (y + 2) =? 0)
  then old
  else nthZ 0 src (y + c).

(** Byte [c] of display pixel [d] after track [k] has been merged. *)
Definition merged_byte (n : Z) (k : PluginTrack.t) (d c old : Z) : Z :=
  match PluginTrack.pRedrawBuff k, window_source n k d with
  | Some src, Some s =>
      blend_byte (DrawProps.orPixelValues (PluginTrack.draw k)) src (3 * s) c old
  | _, _ => old
  end.

(** A track the compositor can walk: the segment and the window start on
    the strip, the window is between one pixel and the whole strip long, and
    the buffer holds every source pixel the walk reads (the window does not
    wrap in the source and ends inside the buffer, or the buffer is as long
    as the strip). *)
Definition track_ready (n : Z) (k : PluginTrack.t) : bool :=
  let dr := PluginTrack.draw k in
  (0 <=? PluginTrack.segOffset k) && (PluginTrack.segOffset k <? n)
  && (0 <=? DrawProps.pixStart dr) && (DrawProps.pixStart dr <? n)
  && (1 <=? DrawProps.pixLen dr) && (DrawProps.pixLen dr <=? n)
  && match PluginTrack.pRedrawBuff k with
     | Some src =>
         ((DrawProps.pixStart dr + DrawProps.pixLen dr <=? n)
          && (3 * (DrawProps.pixStart dr + DrawProps.pixLen dr)
              <=? Z.of_nat (length src)))
         || (3 * n <=? Z.of_nat (length src))
     | None => false
     end.

Section CompositorSpec.
Context {P : Type} {Plug : PixelNutPlugin P}.
Implicit Types (e : PixelNutEngine P).

(** The test [pluginLayers[pTrack->layer].pPlugin->gettype() &
    PLUGIN_TYPE_REDRAW] of the compositor, for track [i] *)
Definition track_redrawn e (i : Z) : bool :=
  isRedraw (pPlugin (layerAt e (PluginTrack.layer (trackAt e i)))).

(** "every track t in [0, track_enable_top] (redraw only)" *)
Definition contributing e : list Z :=
  List.filter (track_redrawn e)
    (seqZ 0 (Z.min (indexTrackStack e) (indexTrackEnable e) + 1)).

(** An engine the compositor can run on: a strip of 1 to 10922 pixels (three
    times a pixel index fits a short), a display buffer of three bytes per
    pixel, and contributing tracks that are all [track_ready]. *)
Definition compositor_ready e : bool :=
  (1 <=? numPixels e) && (numPixels e <=? 10922)
  && (Z.of_nat (length (pDisplayPixels e)) =? 3 * numPixels e)
  && forallb (fun i => track_ready (numPixels e) (trackAt e i)) (contributing e).

End CompositorSpec.

(** * Theorems *)

(** * Theorems *)

(** ** Machine integers and arrays *)

Lemma to_byte_small z : 0 <= z < 256 -> to_byte z = z.
Proof. intros. unfold to_byte. apply Z.mod_small. lia. Qed.

Lemma to_short_small z : -32768 <= z <= 32767 -> to_short z = z.
Proof. intros. unfold to_short. rewrite Z.mod_small; lia. Qed.

Lemma to_uint16_small z : 0 <= z < 65536 -> to_uint16 z = z.
Proof. intros. unfold to_uint16. apply Z.mod_small. lia. Qed.

Lemma to_uint32_small z : 0 <= z < 4294967296 -> to_uint32 z = z.
Proof. intros. unfold to_uint32. apply Z.mod_small. lia. Qed.

Section Arrays.
Context {A : Type}.
Implicit Types (l : list A) (d x : A) (i j : Z).

Lemma length_setZ l i x : length (setZ l i x) = length l.
Proof. unfold setZ. destruct (i <? 0); [done | apply length_insert]. Qed.

Lemma nthZ_setZ_eq d l i x :
  0 <= i < Z.of_nat (length l) -> nthZ d (setZ l i x) i = x.
Proof.
  intros Hi. unfold nthZ, setZ.
  destruct (Z.ltb_spec i 0); [lia |].
  apply nth_lookup_Some. apply list_lookup_insert_eq. lia.
Qed.

Lemma nthZ_setZ_ne d l i j x : i <> j -> nthZ d (setZ l i x) j = nthZ d l j.
Proof.
  intros Hne. unfold nthZ, setZ.
  destruct (Z.ltb_spec j 0); [done |].
  destruct (Z.ltb_spec i 0); [done |].
  rewrite !nth_lookup. rewrite list_lookup_insert_ne; [done | lia].
Qed.

Lemma setZ_out l i x : ~ (0 <= i < Z.of_nat (length l)) -> setZ l i x = l.
Proof.
  intros Hi. unfold setZ. destruct (Z.ltb_spec i 0); [done |].
  apply list_insert_ge. lia.
Qed.

(** What the new cell keeps of the old one is kept in every cell. *)
Lemma nthZ_setZ_keep {B} (f : A -> B) d l i j x :
  f x = f (nthZ d l i) -> f (nthZ d (setZ l i x) j) = f (nthZ d l j).
Proof.
  intros Hx. destruct (decide (i = j)) as [<- | Hne].
  - destruct (decide (0 <= i < Z.of_nat (length l))) as [Hi | Hi].
    + by rewrite nthZ_setZ_eq.
    + by rewrite setZ_out.
  - by rewrite nthZ_setZ_ne.
Qed.
End Arrays.

(** ** The engine seen through its updates *)

Section Views.
Context {P : Type}.
Implicit Types (e : PixelNutEngine P) (L : PluginLayer P).

Lemma tick_layers e : pluginLayers (tick e) = pluginLayers e.
Proof. reflexivity. Qed.
Lemma tick_tracks e : pluginTracks (tick e) = pluginTracks e.
Proof. reflexivity. Qed.
Lemma tick_top e : indexLayerStack (tick e) = indexLayerStack e.
Proof. reflexivity. Qed.
Lemma tick_ttop e : indexTrackStack (tick e) = indexTrackStack e.
Proof. reflexivity. Qed.
Lemma tick_enable e : indexTrackEnable (tick e) = indexTrackEnable e.
Proof. reflexivity. Qed.
Lemma tick_settings e : settings (tick e) = settings e.
Proof. reflexivity. Qed.
Lemma tick_events e : events (tick e) = events e.
Proof. reflexivity. Qed.
Lemma tick_calls e : calls (tick e) = S (calls e).
Proof. reflexivity. Qed.

Lemma logEvent_layers ev e : pluginLayers (logEvent ev e) = pluginLayers e.
Proof. reflexivity. Qed.
Lemma logEvent_tracks ev e : pluginTracks (logEvent ev e) = pluginTracks e.
Proof. reflexivity. Qed.
Lemma logEvent_top ev e : indexLayerStack (logEvent ev e) = indexLayerStack e.
Proof. reflexivity. Qed.
Lemma logEvent_ttop ev e : indexTrackStack (logEvent ev e) = indexTrackStack e.
Proof. reflexivity. Qed.
Lemma logEvent_enable ev e :
  indexTrackEnable (logEvent ev e) = indexTrackEnable e.
Proof. reflexivity. Qed.
Lemma logEvent_settings ev e : settings (logEvent ev e) = settings e.
Proof. reflexivity. Qed.
Lemma logEvent_events ev e : events (logEvent ev e) = ev :: events e.
Proof. reflexivity. Qed.
Lemma logEvent_calls ev e : calls (logEvent ev e) = calls e.
Proof. reflexivity. Qed.


Lemma updLayer_layers i f e :
  pluginLayers (updLayer i f e) = setZ (pluginLayers e) i (f (layerAt e i)).
Proof. reflexivity. Qed.
Lemma updLayer_tracks i f e : pluginTracks (updLayer i f e) = pluginTracks e.
Proof. reflexivity. Qed.
Lemma updLayer_top i f e : indexLayerStack (updLayer i f e) = indexLayerStack e.
Proof. reflexivity. Qed.
Lemma updLayer_ttop i f e : indexTrackStack (updLayer i f e) = indexTrackStack e.
Proof. reflexivity. Qed.
Lemma updLayer_enable i f e :
  indexTrackEnable (updLayer i f e) = indexTrackEnable e.
Proof. reflexivity. Qed.
Lemma updLayer_settings i f e : settings (updLayer i f e) = settings e.
Proof. reflexivity. Qed.
Lemma updLayer_events i f e : events (updLayer i f e) = events e.
Proof. reflexivity. Qed.
Lemma updLayer_calls i f e : calls (updLayer i f e) = calls e.
Proof. reflexivity. Qed.

Lemma updTrack_layers i f e : pluginLayers (updTrack i f e) = pluginLayers e.
Proof. reflexivity. Qed.
Lemma updTrack_tracks i f e :
  pluginTracks (updTrack i f e) = setZ (pluginTracks e) i (f (trackAt e i)).
Proof. reflexivity. Qed.
Lemma updTrack_top i f e : indexLayerStack (updTrack i f e) = indexLayerStack e.
Proof. reflexivity. Qed.
Lemma updTrack_ttop i f e : indexTrackStack (updTrack i f e) = indexTrackStack e.
Proof. reflexivity. Qed.
Lemma updTrack_enable i f e :
  indexTrackEnable (updTrack i f e) = indexTrackEnable e.
Proof. reflexivity. Qed.
Lemma updTrack_settings i f e : settings (updTrack i f e) = settings e.
Proof. reflexivity. Qed.
Lemma updTrack_events i f e : events (updTrack i f e) = events e.
Proof. reflexivity. Qed.
Lemma updTrack_calls i f e : calls (updTrack i f e) = calls e.
Proof. reflexivity. Qed.

Lemma layerAt_tick e i : layerAt (tick e) i = layerAt e i.
Proof. reflexivity. Qed.
Lemma layerAt_logEvent ev e i : layerAt (logEvent ev e) i = layerAt e i.
Proof. reflexivity. Qed.
Lemma layerAt_updTrack j f e i : layerAt (updTrack j f e) i = layerAt e i.
Proof. reflexivity. Qed.
Lemma trackAt_tick e i : trackAt (tick e) i = trackAt e i.
Proof. reflexivity. Qed.
Lemma trackAt_logEvent ev e i : trackAt (logEvent ev e) i = trackAt e i.
Proof. reflexivity. Qed.
Lemma trackAt_updLayer j f e i : trackAt (updLayer j f e) i = trackAt e i.
Proof. reflexivity. Qed.

End Views.

Create Rewrite HintDb stack.

#[export] Hint Rewrite
  @tick_layers @tick_tracks @tick_top @tick_ttop @tick_enable @tick_settings
  @tick_events @tick_calls
  @logEvent_layers @logEvent_tracks @logEvent_top @logEvent_ttop
  @logEvent_enable @logEvent_settings @logEvent_events @logEvent_calls
  @updLayer_layers @updLayer_tracks @updLayer_top @updLayer_ttop
  @updLayer_enable @updLayer_settings @updLayer_events @updLayer_calls
  @updTrack_layers @updTrack_tracks @updTrack_top @updTrack_ttop
  @updTrack_enable @updTrack_settings @updTrack_events @updTrack_calls
  @layerAt_tick @layerAt_logEvent @layerAt_updTrack
  @trackAt_tick @trackAt_logEvent @trackAt_updLayer
  : stack.

(** ** What plugin calls and drawing leave alone *)

Section FrameLemmas.
Context {P : Type} {Plug : PixelNutPlugin P} {Fact : PluginFactory P}
  {Sup : PixelNutSupport}.
Implicit Types (e : PixelNutEngine P) (L : PluginLayer P).

Lemma layerAt_updLayer_eq e i f :
  0 <= i < Z.of_nat (length (pluginLayers e)) ->
  layerAt (updLayer i f e) i = f (layerAt e i).
Proof. intros. unfold layerAt, updLayer; simpl. by apply nthZ_setZ_eq. Qed.

Lemma layerAt_updLayer_ne e i j f :
  i <> j -> layerAt (updLayer i f e) j = layerAt e j.
Proof. intros. unfold layerAt, updLayer; simpl. by apply nthZ_setZ_ne. Qed.

Lemma trackAt_updTrack_eq e i f :
  0 <= i < Z.of_nat (length (pluginTracks e)) ->
  trackAt (updTrack i f e) i = f (trackAt e i).
Proof. intros. unfold trackAt, updTrack; simpl. by apply nthZ_setZ_eq. Qed.

Lemma trackAt_updTrack_ne e i j f :
  i <> j -> trackAt (updTrack i f e) j = trackAt e j.
Proof. intros. unfold trackAt, updTrack; simpl. by apply nthZ_setZ_ne. Qed.

Lemma keeps_refl e : keeps e e.
Proof. split; try done. by exists []. Qed.

Lemma keeps_trans e1 e2 e3 : keeps e1 e2 -> keeps e2 e3 -> keeps e1 e3.
Proof.
  intros [D1 C1 A1 F1 [l1 E1]] [D2 C2 A2 F2 [l2 E2]]. split.
  - congruence.
  - intros j. by rewrite C2.
  - auto.
  - intros i. by rewrite F2.
  - exists (l2 ++ l1). rewrite E2, E1. by rewrite app_assoc.
Qed.

(** A step that leaves the layer array, the indices and the log as they
    are. *)
Lemma keeps_same e0 e e' :
  pluginLayers e' = pluginLayers e -> dims e' = dims e ->
  events e' = events e -> keeps e0 e -> keeps e0 e'.
Proof.
  intros HL HD HE K. eapply keeps_trans; [exact K |].
  split; unfold layerAt; rewrite ?HL, ?HE; try done. by exists [].
Qed.

Lemma keeps_updTrack e0 e i f : keeps e0 e -> keeps e0 (updTrack i f e).
Proof.
  apply keeps_same; try done.
  unfold dims; simpl. by rewrite length_setZ.
Qed.

Lemma keeps_updDraw e0 e i f : keeps e0 e -> keeps e0 (updDraw i f e).
Proof. apply keeps_updTrack. Qed.

Lemma keeps_updLayer e0 e i f :
  (forall L, cfg (f L) = cfg L) ->
  (forall L, trigActive L = true -> trigActive (f L) = true) ->
  keeps e0 e -> keeps e0 (updLayer i f e).
Proof.
  intros Hc Ha K. eapply keeps_trans; [exact K |]. split.
  - unfold dims; simpl. by rewrite length_setZ.
  - intros j. unfold layerAt; simpl. apply nthZ_setZ_keep. apply Hc.
  - intros j. unfold layerAt; simpl.
    destruct (decide (i = j)) as [<- | Hne].
    + destruct (decide (0 <= i < Z.of_nat (length (pluginLayers e)))).
      * rewrite nthZ_setZ_eq by done. apply Ha.
      * by rewrite setZ_out.
    + by rewrite nthZ_setZ_ne.
  - done.
  - by exists [].
Qed.

Lemma keeps_logEvent e0 e ev :
  is_auto ev = false -> keeps e0 e -> keeps e0 (logEvent ev e).
Proof.
  intros Hev K. eapply keeps_trans; [exact K |]. split; try done.
  - intros i. simpl. by destruct ev.
  - by exists [ev].
Qed.

Lemma keeps_tick e0 e : keeps e0 e -> keeps e0 (tick e).
Proof. by apply keeps_same. Qed.

Lemma keeps_set_pDrawPixels e0 e v :
  keeps e0 e -> keeps e0 (set_pDrawPixels v e).
Proof. by apply keeps_same. Qed.

Lemma keeps_set_pDisplayPixels e0 e v :
  keeps e0 e -> keeps e0 (set_pDisplayPixels v e).
Proof. by apply keeps_same. Qed.

Lemma keeps_set_curForce e0 e v : keeps e0 e -> keeps e0 (set_curForce v e).
Proof. by apply keeps_same. Qed.

Lemma keeps_foldl {B} e0 (f : PixelNutEngine P -> B -> PixelNutEngine P) l :
  (forall e x, keeps e0 e -> keeps e0 (f e x)) ->
  forall e, keeps e0 e -> keeps e0 (foldl f e l).
Proof. intros Hf. induction l as [| x l IH]; simpl; auto. Qed.

End FrameLemmas.

(** One step of a proof that an engine function [keeps]: peel the
    outermost update or branch. *)
Ltac keeps_step :=
  match goal with
  | |- keeps _ (if ?c then _ else _) => destruct c
  | |- keeps _ (match ?c with Some _ => _ | None => _ end) => destruct c
  | |- keeps _ (updLayer _ _ _) => apply keeps_updLayer; [done | done |]
  | |- keeps _ (updTrack _ _ _) => apply keeps_updTrack
  | |- keeps _ (updDraw _ _ _) => apply keeps_updDraw
  | |- keeps _ (tick _) => apply keeps_tick
  | |- keeps _ (set_pDrawPixels _ _) => apply keeps_set_pDrawPixels
  | |- keeps _ (set_pDisplayPixels _ _) => apply keeps_set_pDisplayPixels
  | |- keeps _ (set_curForce _ _) => apply keeps_set_curForce
  | |- keeps _ (logEvent _ _) => apply keeps_logEvent; [done |]
  | |- keeps _ (foldl _ _ _) => apply keeps_foldl; [intros ? ? ? |]
  end.

Section FrameCalls.
Context {P : Type} {Plug : PixelNutPlugin P} {Fact : PluginFactory P}
  {Sup : PixelNutSupport}.
Implicit Types (e : PixelNutEngine P) (L : PluginLayer P).

Lemma keeps_storeSink e0 e out : keeps e0 e -> keeps e0 (storeSink out e).
Proof.
  intros K. unfold storeSink.
  destruct (pDrawPixels e), out; try done; repeat keeps_step; done.
Qed.

Lemma keeps_callTrigger e0 e lay trk force :
  keeps e0 e -> keeps e0 (callTrigger lay trk force e).
Proof.
  intros K. unfold callTrigger.
  destruct (pPlugin _) as [pl |]; [| by keeps_step].
  destruct (trigger _ _ _ _) as [[p' d'] out].
  apply keeps_storeSink. repeat keeps_step. done.
Qed.

Lemma keeps_callNextstep e0 e lay trk :
  keeps e0 e -> keeps e0 (callNextstep lay trk e).
Proof.
  intros K. unfold callNextstep.
  destruct (pPlugin _) as [pl |]; [| by keeps_step].
  destruct (nextstep _ _ _) as [[p' d'] out].
  apply keeps_storeSink. repeat keeps_step. done.
Qed.

Lemma keeps_RestorePropVals e0 e t a b c :
  keeps e0 e -> keeps e0 (RestorePropVals t a b c e).
Proof.
  intros K. unfold RestorePropVals.
  destruct (negb _); [done |].
  repeat match goal with |- context [if ?c then _ else _] => destruct c end;
    by keeps_step.
Qed.

Lemma keeps_triggerLayer e0 e layer force :
  keeps e0 e -> keeps e0 (triggerLayer layer force e).
Proof.
  intros K. unfold triggerLayer, getMsecs. simpl.
  repeat first
      [ keeps_step
      | apply keeps_RestorePropVals
      | apply keeps_callTrigger ]; done.
Qed.

Lemma keeps_redrawTrack e0 e rollover i :
  keeps e0 e -> keeps e0 (redrawTrack rollover i e).2.
Proof.
  intros K. unfold redrawTrack.
  repeat match goal with
         | |- keeps _ (if ?c then _ else _).2 => destruct c; simpl
         end; try done; try by repeat keeps_step.
  all: repeat first
      [ keeps_step
      | apply keeps_RestorePropVals
      | apply keeps_callNextstep ]; done.
Qed.

Lemma keeps_redrawTracks e0 rollover l :
  forall doshow e, keeps e0 e -> keeps e0 (redrawTracks rollover l doshow e).2.
Proof.
  induction l as [| i l IH]; intros doshow e K; simpl; [done |].
  destruct (i >? indexTrackEnable e); [done |].
  pose proof (keeps_redrawTrack e0 e rollover i K) as K1.
  destruct (redrawTrack rollover i e) as [drew e1]. by apply IH.
Qed.

End FrameCalls.

(** ** The trigger router *)

Section Triggers.
Context {P : Type} {Plug : PixelNutPlugin P} {Fact : PluginFactory P}
  {Sup : PixelNutSupport}.
Implicit Types (e : PixelNutEngine P) (L : PluginLayer P).

Lemma to_short_idem z : to_short (to_short z) = to_short z.
Proof.
  apply to_short_small. unfold to_short.
  pose proof (Z.mod_pos_bound (z + 32768) 65536). lia.
Qed.

Lemma to_byte_idem z : to_byte (to_byte z) = to_byte z.
Proof.
  apply to_byte_small. unfold to_byte. apply Z.mod_pos_bound. lia.
Qed.

Lemma keeps_length e e' :
  keeps e e' -> length (pluginLayers e') = length (pluginLayers e).
Proof. intros [D _ _ _ _]. unfold dims in D. congruence. Qed.

Lemma keeps_indexLayerStack e e' :
  keeps e e' -> indexLayerStack e' = indexLayerStack e.
Proof. intros [D _ _ _ _]. unfold dims in D. congruence. Qed.

Lemma keeps_indexTrackEnable e e' :
  keeps e e' -> indexTrackEnable e' = indexTrackEnable e.
Proof. intros [D _ _ _ _]. unfold dims in D. congruence. Qed.

Lemma keeps_timePrevUpdate e e' :
  keeps e e' -> timePrevUpdate e' = timePrevUpdate e.
Proof. intros [D _ _ _ _]. unfold dims in D. congruence. Qed.

Lemma events_storeSink out e : events (storeSink out e) = events e.
Proof.
  unfold storeSink. destruct (pDrawPixels e), out; try done.
  by destruct (PluginTrack.pRedrawBuff _).
Qed.

Lemma events_callTrigger lay trk force e :
  events (callTrigger lay trk force e) = EvTrigger lay force :: events e.
Proof.
  unfold callTrigger. destruct (pPlugin _); [| done].
  destruct (trigger _ _ _ _) as [[p' d'] out]. by rewrite events_storeSink.
Qed.

Lemma events_RestorePropVals t a b c e :
  events (RestorePropVals t a b c e) = events e.
Proof.
  unfold RestorePropVals. destruct (negb _); [done |].
  by repeat match goal with |- context [if ?c then _ else _] => destruct c end.
Qed.

(** Firing a layer logs one call of the plugin's trigger. *)
Lemma events_triggerLayer layer force e :
  events (triggerLayer layer force e)
  = EvTrigger (to_byte layer) (to_short force) :: events e.
Proof.
  unfold triggerLayer, getMsecs. simpl.
  repeat match goal with
         | |- context [if ?c then _ else _] => destruct c; simpl
         end;
    rewrite ?events_RestorePropVals; simpl; by rewrite events_callTrigger.
Qed.

(** Firing a layer raises its [trigActive]. *)
Lemma trigActive_triggerLayer layer force e :
  0 <= to_byte layer < Z.of_nat (length (pluginLayers e)) ->
  trigActive (layerAt (triggerLayer layer force e) (to_byte layer)) = true.
Proof.
  intros Hin. unfold triggerLayer.
  match goal with
  | |- context [updLayer _ _ ?x] =>
      assert (keeps e x) as K
  end.
  { unfold getMsecs; simpl.
    repeat first
      [ keeps_step | apply keeps_RestorePropVals | apply keeps_callTrigger ];
      apply keeps_refl. }
  rewrite layerAt_updLayer_eq; [done |].
  by rewrite (keeps_length _ _ K).
Qed.

(** The loop of triggerForce(layer, force) over any list of indices. *)
Lemma triggerForceLayer_loop (src force : Z) (idx : list Z) :
  forall e,
    let e' := foldl (fun e i => if src =? trigSource (layerAt e i)
                                then triggerLayer i force e else e) e idx in
    keeps e e' /\
    exists evs, events e' = evs ++ events e /\
      forall i, In i idx -> 0 <= i < 256 ->
        i < Z.of_nat (length (pluginLayers e)) ->
        trigSource (layerAt e i) = src ->
        In (EvTrigger i (to_short force)) evs /\
        trigActive (layerAt e' i) = true.
Proof.
  induction idx as [| i idx IH]; intros e; simpl.
  - split; [apply keeps_refl |]. exists []. by split.
  - set (e1 := if src =? trigSource (layerAt e i)
               then triggerLayer i force e else e).
    assert (keeps e e1) as K1.
    { subst e1. destruct (_ =? _); [| apply keeps_refl].
      apply keeps_triggerLayer, keeps_refl. }
    destruct (IH e1) as [K2 [evs2 [Hev2 Hall]]].
    split; [by eapply keeps_trans |].
    assert (exists evs1, events e1 = evs1 ++ events e /\
              (trigSource (layerAt e i) = src -> 0 <= i < 256 ->
               i < Z.of_nat (length (pluginLayers e)) ->
               In (EvTrigger i (to_short force)) evs1 /\
               trigActive (layerAt e1 i) = true)) as [evs1 [Hev1 Hhead]].
    { subst e1. destruct (Z.eqb_spec src (trigSource (layerAt e i))) as [Heq | Hne].
      - exists [EvTrigger (to_byte i) (to_short force)]. split.
        + by rewrite events_triggerLayer.
        + intros _ Hi Hlen. split.
          * left. by rewrite to_byte_small.
          * pose proof (trigActive_triggerLayer i force e) as Ha.
            rewrite to_byte_small in Ha by done. apply Ha. lia.
      - exists []. split; [done |]. intros Heq. by destruct Hne. }
    exists (evs2 ++ evs1). split.
    { rewrite Hev2, Hev1. by rewrite app_assoc. }
    intros j [<- | Hj] Hj256 Hjlen Hsrc.
    + destruct (Hhead Hsrc Hj256 Hjlen) as [Hin Hact]. split.
      * apply in_or_app. by right.
      * by apply (keeps_active _ _ K2).
    + destruct (Hall j Hj Hj256) as [Hin Hact].
      * by rewrite (keeps_length _ _ K1).
      * pose proof (keeps_cfg _ _ K1 j) as Hc. unfold cfg in Hc. congruence.
      * split; [apply in_or_app; by left | done].
Qed.

End Triggers.

(** ** The stack manager *)

Section StackSteps.
Context {P : Type} {Plug : PixelNutPlugin P} {Fact : PluginFactory P}
  {Sup : PixelNutSupport}.
Implicit Types (e : PixelNutEngine P) (L : PluginLayer P) (pl : PluginPtr P).

(** The steps of NewPluginLayer, member by member. *)

Lemma stackLayer_layers e :
  pluginLayers (stackLayer e)
  = setZ (pluginLayers e) (indexLayerStack e + 1) zeroLayer.
Proof. reflexivity. Qed.
Lemma stackLayer_tracks e : pluginTracks (stackLayer e) = pluginTracks e.
Proof. reflexivity. Qed.
Lemma stackLayer_top e : indexLayerStack (stackLayer e) = indexLayerStack e + 1.
Proof. reflexivity. Qed.
Lemma stackLayer_ttop e : indexTrackStack (stackLayer e) = indexTrackStack e.
Proof. reflexivity. Qed.
Lemma stackLayer_enable e : indexTrackEnable (stackLayer e) = indexTrackEnable e.
Proof. reflexivity. Qed.
Lemma stackLayer_settings e : settings (stackLayer e) = settings e.
Proof. reflexivity. Qed.
Lemma stackLayer_events e : events (stackLayer e) = events e.
Proof. reflexivity. Qed.
Lemma stackLayer_calls e : calls (stackLayer e) = calls e.
Proof. reflexivity. Qed.

Lemma stackTrack_layers s e : pluginLayers (stackTrack s e) = pluginLayers e.
Proof. reflexivity. Qed.
Lemma stackTrack_tracks s e :
  pluginTracks (stackTrack s e)
  = setZ (pluginTracks e) (indexTrackStack e + 1)
         (newTrack s (set_indexTrackStack (indexTrackStack e + 1) e)).
Proof. reflexivity. Qed.
Lemma stackTrack_top s e : indexLayerStack (stackTrack s e) = indexLayerStack e.
Proof. reflexivity. Qed.
Lemma stackTrack_ttop s e :
  indexTrackStack (stackTrack s e) = indexTrackStack e + 1.
Proof. reflexivity. Qed.
Lemma stackTrack_enable s e :
  indexTrackEnable (stackTrack s e) = indexTrackEnable e.
Proof. reflexivity. Qed.
Lemma stackTrack_settings s e : settings (stackTrack s e) = settings e.
Proof. reflexivity. Qed.
Lemma stackTrack_events s e : events (stackTrack s e) = events e.
Proof. reflexivity. Qed.
Lemma stackTrack_calls s e : calls (stackTrack s e) = calls e.
Proof. reflexivity. Qed.

Lemma initLayer_layers pl e :
  pluginLayers (initLayer pl e)
  = setZ (pluginLayers e) (indexLayerStack e) (newLayer pl e).
Proof. reflexivity. Qed.
Lemma initLayer_tracks pl e : pluginTracks (initLayer pl e) = pluginTracks e.
Proof. reflexivity. Qed.
Lemma initLayer_top pl e : indexLayerStack (initLayer pl e) = indexLayerStack e.
Proof. reflexivity. Qed.
Lemma initLayer_ttop pl e : indexTrackStack (initLayer pl e) = indexTrackStack e.
Proof. reflexivity. Qed.
Lemma initLayer_enable pl e :
  indexTrackEnable (initLayer pl e) = indexTrackEnable e.
Proof. reflexivity. Qed.
Lemma initLayer_settings pl e : settings (initLayer pl e) = settings e.
Proof. reflexivity. Qed.
Lemma initLayer_events pl e : events (initLayer pl e) = events e.
Proof. reflexivity. Qed.
Lemma initLayer_calls pl e : calls (initLayer pl e) = calls e.
Proof. reflexivity. Qed.

Lemma beginPlugin_layers pl e :
  pluginLayers (beginPlugin pl e)
  = setZ (pluginLayers e) (indexLayerStack e)
         (set_pPlugin (Some (begun pl e)) (layerAt e (indexLayerStack e))).
Proof. reflexivity. Qed.
Lemma beginPlugin_tracks pl e : pluginTracks (beginPlugin pl e) = pluginTracks e.
Proof. reflexivity. Qed.
Lemma beginPlugin_top pl e :
  indexLayerStack (beginPlugin pl e) = indexLayerStack e.
Proof. reflexivity. Qed.
Lemma beginPlugin_ttop pl e :
  indexTrackStack (beginPlugin pl e) = indexTrackStack e.
Proof. reflexivity. Qed.
Lemma beginPlugin_enable pl e :
  indexTrackEnable (beginPlugin pl e) = indexTrackEnable e.
Proof. reflexivity. Qed.
Lemma beginPlugin_settings pl e : settings (beginPlugin pl e) = settings e.
Proof. reflexivity. Qed.
Lemma beginPlugin_events pl e :
  events (beginPlugin pl e)
  = EvBegin (addr pl) (to_byte (indexLayerStack e)) (segCount e) :: events e.
Proof. reflexivity. Qed.
Lemma beginPlugin_calls pl e : calls (beginPlugin pl e) = calls e.
Proof. reflexivity. Qed.

Lemma unstackPlugin_layers pl e :
  pluginLayers (unstackPlugin pl e) = pluginLayers e.
Proof. reflexivity. Qed.
Lemma unstackPlugin_tracks pl e :
  pluginTracks (unstackPlugin pl e) = pluginTracks e.
Proof. reflexivity. Qed.
Lemma unstackPlugin_top pl e :
  indexLayerStack (unstackPlugin pl e) = indexLayerStack e - 1.
Proof. reflexivity. Qed.
Lemma unstackPlugin_ttop pl e :
  indexTrackStack (unstackPlugin pl e) = indexTrackStack e - 1.
Proof. reflexivity. Qed.
Lemma unstackPlugin_enable pl e :
  indexTrackEnable (unstackPlugin pl e) = indexTrackEnable e.
Proof. reflexivity. Qed.
Lemma unstackPlugin_settings pl e : settings (unstackPlugin pl e) = settings e.
Proof. reflexivity. Qed.
Lemma unstackPlugin_events pl e :
  events (unstackPlugin pl e) = EvDelete (addr pl) :: events e.
Proof. reflexivity. Qed.

End StackSteps.


#[export] Hint Rewrite
  @stackLayer_layers @stackLayer_tracks @stackLayer_top @stackLayer_ttop
  @stackLayer_enable @stackLayer_settings @stackLayer_events @stackLayer_calls
  @stackTrack_layers @stackTrack_tracks @stackTrack_top @stackTrack_ttop
  @stackTrack_enable @stackTrack_settings @stackTrack_events @stackTrack_calls
  @initLayer_layers @initLayer_tracks @initLayer_top @initLayer_ttop
  @initLayer_enable @initLayer_settings @initLayer_events @initLayer_calls
  @beginPlugin_layers @beginPlugin_tracks @beginPlugin_top @beginPlugin_ttop
  @beginPlugin_enable @beginPlugin_settings @beginPlugin_events
  @beginPlugin_calls
  @unstackPlugin_layers @unstackPlugin_tracks @unstackPlugin_top
  @unstackPlugin_ttop @unstackPlugin_enable @unstackPlugin_settings
  @unstackPlugin_events : stack.

Section StackManager.
Context {P : Type} {Plug : PixelNutPlugin P} {Fact : PluginFactory P}
  {Sup : PixelNutSupport}.
Implicit Types (e : PixelNutEngine P) (L : PluginLayer P) (pl : PluginPtr P).

Lemma same_stack_refl e : same_stack e e.
Proof. by repeat split. Qed.

(** The engine with the plugin made and logged: nothing of the stack has
    moved yet. *)
Lemma same_stack_made e a plugin :
  same_stack e (logEvent (EvNew a plugin) (tick e)).
Proof. by repeat split. Qed.

(** Pushing the layer and the track, then taking them back when the buffer
    cannot be allocated, leaves every live cell of the two stacks alone. *)
Lemma stackPlugin_failure pl segindex e st e' :
  stackPlugin pl true segindex e = (st, e') ->
  st <> Status_Success ->
  same_stack e e' /\ malloc_at (calls e) = false /\ st = Status_Error_Memory /\
  events e' = EvDelete (addr pl)
              :: EvBegin (addr pl) (to_byte (indexLayerStack e + 1)) (segCount e)
              :: events e.
Proof.
  unfold stackPlugin, allocRedrawBuff, malloc. cbn [fst snd].
  set (e3 := beginPlugin pl (initLayer pl (stackTrack segindex (stackLayer e)))).
  assert (calls e3 = calls e) as Hcalls by (subst e3; by autorewrite with stack).
  rewrite Hcalls.
  destruct (malloc_at (calls e)) eqn:Hal; cbn [negb]; intros H Hst;
    inversion H; subst st e'; [done |].
  split; [| split; [done | split; [done |]]].
  - unfold same_stack, layerAt, trackAt. subst e3.
    autorewrite with stack. rewrite !length_setZ.
    split_and!; try done; try lia.
    + intros i Hi. by rewrite !nthZ_setZ_ne by lia.
    + intros t Ht. by rewrite !nthZ_setZ_ne by lia.
  - subst e3. by autorewrite with stack.
Qed.

(** Every failure of NewPluginLayer is one of the five rejections, and
    leaves the stacks and the settings as they were. *)
Lemma NewPluginLayer_failure plugin segindex e st e' :
  NewPluginLayer plugin segindex e = (st, e') ->
  st <> Status_Success ->
  same_stack e e' /\ rejection plugin e st e'.
Proof.
  unfold NewPluginLayer, rejection. intros H Hst.
  destruct (Z.geb_spec (indexLayerStack e + 1) (maxPluginLayers e))
    as [Hfull | Hroom].
  { inversion H; subst. split; [apply same_stack_refl |].
    left. split_and!; [lia | done | done]. }
  destruct (makePlugin plugin) as [p |] eqn:Hmk.
  2: { inversion H; subst. split; [apply same_stack_refl |].
       right; left. by split_and!. }
  cbv zeta in H. cbn [addr] in H.
  set (e1 := logEvent (EvNew (calls e) plugin) (tick e)) in *.
  assert (indexTrackStack e1 = indexTrackStack e) as HT1 by done.
  assert (maxPluginTracks e1 = maxPluginTracks e) as HM1 by done.
  rewrite HT1, HM1 in H.
  destruct (isRedraw (Some (mkPtr (calls e) p))) eqn:Hre; cbn [negb andb orb] in H.
  - (* a drawing plugin *)
    destruct (Z.geb_spec (indexTrackStack e + 1) (maxPluginTracks e))
      as [Htf | Htr].
    + inversion H; subst. split; [by repeat split |].
      right; right. exists p, (calls e). split_and!; try done.
      right; left. split_and!; try done; lia.
    + destruct (stackPlugin_failure _ _ _ _ _ H Hst) as (Hs & Hal & -> & Hev).
      split.
      * destruct Hs as (? & ? & ? & ? & ? & ? & ? & ?).
        unfold same_stack. split_and!; try done.
      * right; right. exists p, (calls e). split_and!; try done.
        right; right. split_and!; try done. eauto.
  - (* a predraw plugin *)
    destruct (Z.ltb_spec (indexTrackStack e) 0) as [Hno | Hsome].
    + inversion H; subst. split; [by repeat split |].
      right; right. exists p, (calls e). split_and!; try done.
      left. by split_and!.
    + unfold stackPlugin in H. inversion H; subst. done.
Qed.

(** The same for the E command, which reports a missing or out-of-range
    plugin number as BadVal before it calls NewPluginLayer. *)
Lemma execCmd_E_failure_atomic arg segindex e st segindex' e' :
  execCmd (String "E" arg) segindex e = (st, segindex', e') ->
  st <> Status_Success ->
  same_stack e e' /\ segindex' = segindex.
Proof.
  unfold execCmd. cbn [deref cmd_arg is_cmd Ascii.eqb Bool.eqb]. intros H Hst.
  destruct (GetNumValue arg MAX_PLUGIN_VALUE >=? 0).
  - destruct (NewPluginLayer _ _ e) as [st1 e1] eqn:HN.
    inversion H; subst.
    by destruct (NewPluginLayer_failure _ _ _ _ _ HN Hst).
  - inversion H; subst. split; [apply same_stack_refl | done].
Qed.

(** A successful NewPluginLayer went through [stackPlugin]. *)
Lemma NewPluginLayer_success plugin segindex e e' :
  NewPluginLayer plugin segindex e = (Status_Success, e') ->
  exists p,
    makePlugin plugin = Some p /\
    stackPlugin (mkPtr (calls e) p) (isRedraw (Some (mkPtr (calls e) p)))
                segindex (logEvent (EvNew (calls e) plugin) (tick e))
    = (Status_Success, e').
Proof.
  unfold NewPluginLayer. intros H.
  destruct (indexLayerStack e + 1 >=? maxPluginLayers e); [done |].
  destruct (makePlugin plugin) as [p |]; [| done].
  exists p. split; [done |]. cbv zeta in H. cbn [addr] in H.
  destruct (_ || _); [| done].
  by destruct (isRedraw _).
Qed.

(** When malloc has no memory left, pushing a drawing plugin fails. *)
Lemma stackPlugin_no_memory pl segindex e :
  malloc_at (calls e) = false ->
  (stackPlugin pl true segindex e).1 = Status_Error_Memory.
Proof.
  intros Hal. unfold stackPlugin, allocRedrawBuff, malloc. cbn [fst snd].
  set (e3 := beginPlugin pl (initLayer pl (stackTrack segindex (stackLayer e)))).
  assert (calls e3 = calls e) as -> by (subst e3; by autorewrite with stack).
  by rewrite Hal.
Qed.

(** NewPluginLayer with room on the layer stack and a plugin from the
    factory. *)
Lemma NewPluginLayer_made plugin segindex e p :
  indexLayerStack e + 1 < maxPluginLayers e ->
  makePlugin plugin = Some p ->
  NewPluginLayer plugin segindex e
  = let pl := mkPtr (calls e) p in
    let e1 := logEvent (EvNew (calls e) plugin) (tick e) in
    if (negb (isRedraw (Some pl)) && (indexTrackStack e <? 0))
       || (isRedraw (Some pl) && (indexTrackStack e + 1 >=? maxPluginTracks e))
    then (if isRedraw (Some pl) then Status_Error_Memory
          else Status_Error_BadCmd, deletePlugin (Some pl) e1)
    else stackPlugin pl (isRedraw (Some pl)) segindex e1.
Proof.
  intros Hroom Hmk. unfold NewPluginLayer. rewrite Hmk.
  destruct (Z.geb_spec (indexLayerStack e + 1) (maxPluginLayers e)); [lia |].
  cbv zeta. cbn [addr].
  change (indexTrackStack (logEvent _ (tick e))) with (indexTrackStack e).
  change (maxPluginTracks (logEvent _ (tick e))) with (maxPluginTracks e).
  destruct (_ || _); [| done]. by destruct (isRedraw _).
Qed.

(** The E command with a plugin number in the range is NewPluginLayer, with
    the local [segindex] (0 while it is negative) and its status. *)
Lemma execCmd_E_calls arg segindex e :
  0 <= GetNumValue arg MAX_PLUGIN_VALUE ->
  execCmd (String "E" arg) segindex e
  = let r := NewPluginLayer (GetNumValue arg MAX_PLUGIN_VALUE)
               (if segindex <? 0 then 0 else segindex) e in
    (r.1, segindex, r.2).
Proof.
  intros Hn. unfold execCmd. cbn [deref cmd_arg is_cmd Ascii.eqb Bool.eqb].
  destruct (Z.geb_spec (GetNumValue arg MAX_PLUGIN_VALUE) 0); [| lia].
  cbv zeta. by destruct (NewPluginLayer _ _ e).
Qed.

(** C2. add_layer (NewPluginLayer, called by the E command) is atomic on
    failure. Each of the five rejections returns its status, deletes the
    plugin if one was obtained from the factory (at address [a], the log
    shows it made and deleted, and begun in between when the failure came
    after [begin]), and leaves the stack tops, every layer and track up to
    them (draw properties included) and the settings as they were: the layer
    stack full (Memory, the engine untouched), the factory returning none
    (BadVal, the engine untouched), a predraw plugin when no track exists
    (BadCmd), a redraw plugin when the track stack is full (Memory), and the
    allocation of the redraw buffer failing (Memory). There is no other
    failure. The E command with a plugin number in the range returns what
    NewPluginLayer returns, and when it fails, for whatever reason, nothing
    of the stacks or the settings has changed and the segment index is as
    before. *)
Theorem NewPluginLayer_failure_atomic plugin segindex e :
  let r := NewPluginLayer plugin segindex e in
  let a := calls e in
  (* layer stack full *)
  (indexLayerStack e + 1 >= maxPluginLayers e ->
   r = (Status_Error_Memory, e)) /\
  (* factory returning none *)
  (indexLayerStack e + 1 < maxPluginLayers e -> makePlugin plugin = None ->
   r = (Status_Error_BadVal, e)) /\
  (forall p,
     indexLayerStack e + 1 < maxPluginLayers e -> makePlugin plugin = Some p ->
     (* predraw plugin when no track exists *)
     (isRedraw (Some (mkPtr a p)) = false -> indexTrackStack e < 0 ->
      r.1 = Status_Error_BadCmd /\ same_stack e r.2 /\
      events r.2 = EvDelete a :: EvNew a plugin :: events e) /\
     (* redraw plugin when the track stack is full *)
     (isRedraw (Some (mkPtr a p)) = true ->
      indexTrackStack e + 1 >= maxPluginTracks e ->
      r.1 = Status_Error_Memory /\ same_stack e r.2 /\
      events r.2 = EvDelete a :: EvNew a plugin :: events e) /\
     (* redraw-buffer allocation failure *)
     (isRedraw (Some (mkPtr a p)) = true ->
      indexTrackStack e + 1 < maxPluginTracks e ->
      malloc_at (S (calls e)) = false ->
      r.1 = Status_Error_Memory /\ same_stack e r.2 /\
      events r.2
      = EvDelete a :: EvBegin a (to_byte (indexLayerStack e + 1)) (segCount e)
        :: EvNew a plugin :: events e)) /\
  (* there is no other failure *)
  (r.1 <> Status_Success -> same_stack e r.2 /\ rejection plugin e r.1 r.2) /\
  (* the E command *)
  (forall arg seg,
     let x := execCmd (String "E" arg) seg e in
     (0 <= GetNumValue arg MAX_PLUGIN_VALUE ->
      x = ((NewPluginLayer (GetNumValue arg MAX_PLUGIN_VALUE)
              (if seg <? 0 then 0 else seg) e).1, seg,
           (NewPluginLayer (GetNumValue arg MAX_PLUGIN_VALUE)
              (if seg <? 0 then 0 else seg) e).2)) /\
     (x.1.1 <> Status_Success -> same_stack e x.2 /\ x.1.2 = seg)).
Proof.
  intros r a. subst r a. split_and!.
  - intros Hfull. unfold NewPluginLayer.
    by destruct (Z.geb_spec (indexLayerStack e + 1) (maxPluginLayers e)); [| lia].
  - intros Hroom Hmk. unfold NewPluginLayer. rewrite Hmk.
    by destruct (Z.geb_spec (indexLayerStack e + 1) (maxPluginLayers e)); [lia |].
  - intros p Hroom Hmk. rewrite (NewPluginLayer_made _ _ _ _ Hroom Hmk).
    cbv zeta. split_and!.
    + intros -> Hno. cbn [negb andb orb].
      destruct (Z.ltb_spec (indexTrackStack e) 0); [| lia].
      cbn [fst snd]. by split_and!; [| repeat split |].
    + intros -> Hfull. cbn [negb andb orb].
      destruct (Z.geb_spec (indexTrackStack e + 1) (maxPluginTracks e)); [| lia].
      cbn [fst snd]. by split_and!; [| repeat split |].
    + intros -> Htr Hal. cbn [negb andb orb].
      destruct (Z.geb_spec (indexTrackStack e + 1) (maxPluginTracks e)); [lia |].
      set (e1 := logEvent (EvNew (calls e) plugin) (tick e)).
      pose proof (stackPlugin_no_memory (mkPtr (calls e) p) segindex e1 Hal)
        as Hst.
      destruct (stackPlugin (mkPtr (calls e) p) true segindex e1)
        as [st e'] eqn:Hrun.
      cbn [fst snd] in *. subst st.
      destruct (stackPlugin_failure _ _ _ _ _ Hrun ltac:(done))
        as (Hs & _ & _ & Hev).
      split_and!; [done | | exact Hev].
      destruct Hs as (? & ? & ? & ? & ? & ? & ? & ?).
      unfold same_stack. by split_and!.
  - intros Hst. apply (NewPluginLayer_failure plugin segindex);
      [apply surjective_pairing | exact Hst].
  - intros arg seg x. subst x. split.
    + apply execCmd_E_calls.
    + intros Hst.
      apply (execCmd_E_failure_atomic arg seg e
               (execCmd (String "E" arg) seg e).1.1);
        [| exact Hst].
      by destruct (execCmd (String "E" arg) seg e) as [[? ?] ?].
Qed.

End StackManager.

Section StackManager2.
Context {P : Type} {Plug : PixelNutPlugin P} {Fact : PluginFactory P}
  {Sup : PixelNutSupport}.
Implicit Types (e : PixelNutEngine P) (L : PluginLayer P) (pl : PluginPtr P).
Lemma cfg_set_pPlugin v L : cfg (set_pPlugin v L) = cfg L.
Proof. reflexivity. Qed.

(** The stack tops after a successful [stackPlugin]. *)
Lemma stackPlugin_success_tops pl newtrack segindex e e' :
  stackPlugin pl newtrack segindex e = (Status_Success, e') ->
  indexLayerStack e' = indexLayerStack e + 1 /\
  indexTrackStack e' = (if newtrack then indexTrackStack e + 1
                        else indexTrackStack e).
Proof.
  unfold stackPlugin. destruct newtrack.
  - unfold allocRedrawBuff, malloc. cbn [fst snd].
    destruct (malloc_at _); cbn [negb]; [| done].
    intros H. injection H as <-. by autorewrite with stack.
  - intros H. injection H as <-. by autorewrite with stack.
Qed.

(** What [stackPlugin] leaves on top of the layer stack: the defaults of a
    new layer. *)
Lemma stackPlugin_success_layer pl newtrack segindex e e' :
  stackPlugin pl newtrack segindex e = (Status_Success, e') ->
  0 <= indexLayerStack e + 1 < Z.of_nat (length (pluginLayers e)) ->
  indexLayerStack e' = indexLayerStack e + 1 /\
  indexTrackStack e' = (if newtrack then indexTrackStack e + 1
                        else indexTrackStack e) /\
  cfg (layerAt e' (indexLayerStack e'))
  = (0, -1, 1, 0, curForce e, false, MAX_BYTE_VALUE,
     to_byte (indexTrackStack e')) /\
  trigActive (layerAt e' (indexLayerStack e')) = false.
Proof.
  unfold stackPlugin. intros H Hin.
  set (e2 := if newtrack then stackTrack segindex (stackLayer e)
             else stackLayer e) in *.
  assert (indexLayerStack e2 = indexLayerStack e + 1) as HL2
    by (subst e2; by destruct newtrack).
  assert (pluginLayers e2
          = setZ (pluginLayers e) (indexLayerStack e + 1) zeroLayer) as HP2
    by (subst e2; by destruct newtrack).
  assert (indexTrackStack e2 = (if newtrack then indexTrackStack e + 1
                                else indexTrackStack e)) as HT2
    by (subst e2; by destruct newtrack).
  assert (curForce e2 = curForce e) as HF2 by (subst e2; by destruct newtrack).
  set (e3 := beginPlugin pl (initLayer pl e2)) in *.
  assert (layerAt e3 (indexLayerStack e + 1)
          = set_pPlugin (Some (begun pl (initLayer pl e2))) (newLayer pl e2))
    as Hlay.
  { subst e3. unfold layerAt. autorewrite with stack. rewrite HL2.
    rewrite nthZ_setZ_eq by (rewrite length_setZ, HP2, length_setZ; lia).
    f_equal. unfold layerAt. autorewrite with stack. rewrite HL2.
    by rewrite nthZ_setZ_eq by (rewrite HP2, length_setZ; lia). }
  assert (indexLayerStack e3 = indexLayerStack e + 1) as HL3
    by (subst e3; by autorewrite with stack).
  assert (indexTrackStack e3 = indexTrackStack e2) as HT3
    by (subst e3; by autorewrite with stack).
  assert (indexLayerStack e' = indexLayerStack e3 /\
          indexTrackStack e' = indexTrackStack e3 /\
          pluginLayers e' = pluginLayers e3) as (HLe & HTe & HPe).
  { destruct newtrack.
    - unfold allocRedrawBuff, malloc in H. cbn [fst snd] in H.
      destruct (malloc_at _); cbn [negb] in H; inversion H; by subst e'.
    - inversion H; by subst e'. }
  rewrite HLe, HTe, HL3, HT3, HT2. unfold layerAt at 1 2. rewrite HPe.
  fold (layerAt e3 (indexLayerStack e + 1)). rewrite Hlay.
  rewrite cfg_set_pPlugin. unfold cfg, newLayer; cbn. rewrite HF2, HT2.
  by split_and!.
Qed.

(** What [stackPlugin] leaves on top of the track stack for a drawing
    plugin: a track on the staged segment, with a zeroed buffer of three
    bytes per pixel and the default draw properties. *)
Lemma stackPlugin_success_track pl segindex e e' :
  stackPlugin pl true segindex e = (Status_Success, e') ->
  0 <= indexTrackStack e + 1 < Z.of_nat (length (pluginTracks e)) ->
  indexTrackStack e' = indexTrackStack e + 1 /\
  trackAt e' (indexTrackStack e')
  = PluginTrack.mk 0 (Some (replicate (Z.to_nat (segCount e * 3)) 0))
      (makeColorVals
         (DrawProps.mk 0 (segCount e) 1 0 0 0 MAX_PERCENTAGE 0 0 0
                       (goUpwards e) true))
      (to_byte (indexLayerStack e + 1)) 0 (to_byte segindex) 0
      (segOffset e) (segCount e).
Proof.
  unfold stackPlugin, allocRedrawBuff, malloc. cbn [fst snd]. intros H Hin.
  set (e3 := beginPlugin pl (initLayer pl (stackTrack segindex (stackLayer e)))) in *.
  assert (indexTrackStack e3 = indexTrackStack e + 1) as HT3
    by (subst e3; by autorewrite with stack).
  assert (trackAt e3 (indexTrackStack e + 1)
          = newTrack segindex
              (set_indexTrackStack (indexTrackStack e + 1) (stackLayer e)))
    as Htrk.
  { subst e3. unfold trackAt. autorewrite with stack.
    by rewrite nthZ_setZ_eq by lia. }
  assert (length (pluginTracks e3) = length (pluginTracks e)) as Hlen.
  { subst e3. autorewrite with stack. by rewrite length_setZ. }
  assert (segCount e3 = segCount e) as Hseg.
  { assert (settings e3 = settings e) as Hs
      by (subst e3; by autorewrite with stack).
    unfold settings in Hs. congruence. }
  clearbody e3.
  destruct (malloc_at _); cbn [negb] in H; [| done].
  injection H as <-.
  autorewrite with stack. rewrite HT3. split; [done |].
  rewrite trackAt_updTrack_eq by (autorewrite with stack; lia).
  autorewrite with stack. rewrite Htrk, Hseg. reflexivity.
Qed.

End StackManager2.

Section TriggerForce.
Context {P : Type} {Plug : PixelNutPlugin P} {Fact : PluginFactory P}
  {Sup : PixelNutSupport}.
Implicit Types (e : PixelNutEngine P) (L : PluginLayer P).

Lemma In_seqZ i m n : In i (seqZ m n) <-> m <= i < m + n.
Proof. rewrite <- list_elem_of_In. apply elem_of_seqZ. Qed.

(** C10. triggerForce(layer, force) called with layer = 255 fires every
    layer of the stack whose trigSource is 255 (the plugin's trigger is
    called with the force, and trigActive is raised); 255 is the value
    NewPluginLayer gives the trigSource of every new layer, and the value the
    command A255 stores. *)
Theorem triggerForce_255_fires_unassigned_layers e force :
  (indexLayerStack e < 256 ->
   indexLayerStack e < Z.of_nat (length (pluginLayers e)) ->
   exists evs,
     events (triggerForceLayer 255 force e) = evs ++ events e /\
     forall i, 0 <= i <= indexLayerStack e ->
       trigSource (layerAt e i) = MAX_BYTE_VALUE ->
       In (EvTrigger i (to_short force)) evs /\
       trigActive (layerAt (triggerForceLayer 255 force e) i) = true)
  /\ (forall plugin segindex e1,
        NewPluginLayer plugin segindex e = (Status_Success, e1) ->
        0 <= indexLayerStack e + 1 < Z.of_nat (length (pluginLayers e)) ->
        trigSource (layerAt e1 (indexLayerStack e1)) = MAX_BYTE_VALUE)
  /\ (0 <= indexLayerStack e < Z.of_nat (length (pluginLayers e)) ->
      trigSource (layerAt (cmd_A "255" e) (indexLayerStack e)) = MAX_BYTE_VALUE).
Proof.
  split_and!.
  - intros H256 Hlen. unfold triggerForceLayer.
    destruct (triggerForceLayer_loop (to_byte 255) (to_short force)
                (seqZ 0 (indexLayerStack e + 1)) e) as [_ [evs [Hev Hall]]].
    exists evs. split; [exact Hev |].
    intros i Hi Hsrc.
    destruct (Hall i) as [Hin Hact];
      [apply In_seqZ; lia | lia | lia | exact Hsrc |].
    rewrite to_short_idem in Hin. by split.
  - intros plugin segindex e1 HN Hin.
    destruct (NewPluginLayer_success _ _ _ _ HN) as [p [_ Hst]].
    destruct (stackPlugin_success_layer _ _ _ _ _ Hst Hin) as (_ & _ & Hcfg & _).
    unfold cfg in Hcfg. congruence.
  - intros Hin. unfold cmd_A, updTopLayer.
    by rewrite layerAt_updLayer_eq.
Qed.

End TriggerForce.

(** ** The command interpreter *)

(** *** Upper-casing and cutting a command string *)

Lemma isdigit_toupper c : isdigit (toupper c) = isdigit c.
Proof. destruct c as [[] [] [] [] [] [] [] []]; reflexivity. Qed.

Lemma toupper_digit c : isdigit c = true -> toupper c = c.
Proof. destruct c as [[] [] [] [] [] [] [] []]; (reflexivity || discriminate). Qed.

Lemma toupper_space c : Ascii.eqb (toupper c) " " = Ascii.eqb c " ".
Proof. destruct c as [[] [] [] [] [] [] [] []]; reflexivity. Qed.

Lemma toupper_eqb_digit c d :
  isdigit d = true -> Ascii.eqb (toupper c) d = Ascii.eqb c d.
Proof.
  intros Hd. destruct (isdigit c) eqn:Hc.
  - by rewrite toupper_digit.
  - destruct (Ascii.eqb_spec c d) as [-> | Hne]; [congruence |].
    destruct (Ascii.eqb_spec (toupper c) d) as [<- | ?]; [| done].
    rewrite isdigit_toupper in Hd. congruence.
Qed.

Lemma deref_toupper_str s : deref (toupper_str s) = toupper (deref s).
Proof. by destruct s. Qed.

Lemma atoi_from_toupper_str s : forall acc,
  atoi_from acc (toupper_str s) = atoi_from acc s.
Proof.
  induction s as [| c s IH]; intros acc; simpl; [done |].
  rewrite isdigit_toupper. destruct (isdigit c) eqn:Hc; [| done].
  by rewrite toupper_digit, IH.
Qed.

Lemma GetNumValue_toupper_str s maxval :
  GetNumValue (toupper_str s) maxval = GetNumValue s maxval.
Proof.
  unfold GetNumValue, atoi, strtol.
  by rewrite deref_toupper_str, isdigit_toupper, atoi_from_toupper_str.
Qed.

Lemma GetNumValue3_toupper_str s curval maxval :
  GetNumValue3 (toupper_str s) curval maxval = GetNumValue3 s curval maxval.
Proof.
  unfold GetNumValue3, atoi, strtol.
  by rewrite deref_toupper_str, isdigit_toupper, atoi_from_toupper_str.
Qed.

Lemma GetBoolValue_toupper_str s curval :
  GetBoolValue (toupper_str s) curval = GetBoolValue s curval.
Proof.
  unfold GetBoolValue. rewrite deref_toupper_str.
  by rewrite !toupper_eqb_digit.
Qed.

Lemma no_space_toupper_str s : no_space (toupper_str s) = no_space s.
Proof.
  induction s as [| c s IH]; simpl; [done |]. by rewrite toupper_space, IH.
Qed.

Lemma split_spaces_token s : no_space s = true -> split_spaces s = [s].
Proof.
  induction s as [| c s IH]; simpl; [done |].
  intros [Hc Hs]%andb_prop. rewrite (IH Hs).
  by destruct (Ascii.eqb c " ").
Qed.

(** strtok on a string that holds one token gives that token. *)
Lemma strtok_token c s : no_space (String c s) = true ->
  strtok (String c s) = [String c s].
Proof. intros H. unfold strtok. by rewrite split_spaces_token. Qed.

(** strtok on the empty string, and on spaces only, gives nothing. *)
Lemma strtok_empty : strtok "" = [].
Proof. reflexivity. Qed.

Section Commands.
Context {P : Type} {Plug : PixelNutPlugin P} {Fact : PluginFactory P}
  {Sup : PixelNutSupport}.
Implicit Types (e : PixelNutEngine P) (L : PluginLayer P).

(** A command string that holds one token runs that token, upper-cased,
    with [segindex] at -1. *)
Lemma execCmdStr_token c arg e :
  no_space (String c arg) = true ->
  execCmdStr (String c arg) e
  = (let r := execCmd (String (toupper c) (toupper_str arg)) (-1) e in
     (r.1.1, r.2)).
Proof.
  intros Hns. unfold execCmdStr.
  change (toupper_str (String c arg))
    with (String (toupper c) (toupper_str arg)).
  rewrite strtok_token
    by (change (String (toupper c) (toupper_str arg))
          with (toupper_str (String c arg)); by rewrite no_space_toupper_str).
  cbn [execTokens].
  destruct (execCmd _ _ e) as [[st sg] e1]. cbn [fst snd].
  by destruct st.
Qed.

End Commands.

Section DrawCommands.
Context {P : Type} {Plug : PixelNutPlugin P} {Fact : PluginFactory P}
  {Sup : PixelNutSupport}.
Implicit Types (e : PixelNutEngine P) (L : PluginLayer P).

(** A letter other than X, Y, E and P goes to the switch when a track
    exists, and is BadCmd when none does. *)
Lemma execCmd_draw c arg segindex e :
  is_cmd c "X" = false -> is_cmd c "Y" = false -> is_cmd c "E" = false ->
  is_cmd c "P" = false ->
  execCmd (String c arg) segindex e
  = if indexTrackStack e >=? 0
    then ((execDrawCmd c arg e).1, segindex, (execDrawCmd c arg e).2)
    else (Status_Error_BadCmd, segindex, e).
Proof.
  intros HX HY HE HP. unfold execCmd. cbn [deref cmd_arg].
  rewrite HX, HY, HE, HP. destruct (_ >=? _); [| done].
  by destruct (execDrawCmd c arg e).
Qed.

(** What a missing or non-digit argument is to the two parsers. *)
Lemma GetNumValue_no_digit str maxval :
  isdigit (deref str) = false -> GetNumValue str maxval = -1.
Proof. intros H. unfold GetNumValue. by rewrite H. Qed.

Lemma GetNumValue_too_big str maxval :
  atoi str > maxval -> GetNumValue str maxval = -1.
Proof.
  intros H. unfold GetNumValue. destruct (negb _); [done |].
  destruct (Z.gtb_spec (atoi str) maxval); [done | lia].
Qed.

Lemma GetNumValue_negative str maxval :
  atoi str < 0 -> GetNumValue str maxval = -1.
Proof.
  intros H. unfold GetNumValue. destruct (negb _); [done |].
  destruct (atoi str >? maxval); [done |].
  destruct (Z.ltb_spec (atoi str) 0); [done | lia].
Qed.

Lemma GetNumValue3_no_digit str curval maxval :
  isdigit (deref str) = false -> GetNumValue3 str curval maxval = curval.
Proof. intros H. unfold GetNumValue3. by rewrite H. Qed.

(** The [pdraw] of the engine after a draw command. *)
Lemma pdraw_updPdraw f e :
  0 <= indexTrackStack e < Z.of_nat (length (pluginTracks e)) ->
  pdraw (updPdraw f e) = f (pdraw e).
Proof.
  intros Hin. unfold pdraw, updPdraw, updDraw.
  autorewrite with stack. by rewrite trackAt_updTrack_eq.
Qed.

(** A draw command that keeps a property of [pdraw] keeps it whether or not
    the track index is inside the array. *)
Lemma pdraw_updPdraw_keep {B} (g : DrawProps.t -> B) f e :
  (forall d, g (f d) = g d) -> g (pdraw (updPdraw f e)) = g (pdraw e).
Proof.
  intros Hg. unfold pdraw, updPdraw, updDraw, trackAt.
  autorewrite with stack.
  apply (nthZ_setZ_keep (fun k => g (PluginTrack.draw k))). apply Hg.
Qed.


(** C7, as the code has it. On an existing track, a missing or non-digit
    argument keeps the property for H (degreeHue), W (pcentWhite), B
    (pcentBright) and D (msecsDelay); for J and K it counts as 0: J sets
    pixStart to 0 and K sets pixLen to 1. *)
Theorem clipped_commands_without_argument e arg :
  0 <= indexTrackStack e < Z.of_nat (length (pluginTracks e)) ->
  no_space arg = true ->
  isdigit (deref arg) = false ->
  (let r := execCmdStr (String "H" arg) e in
   r.1 = Status_Success /\
   DrawProps.degreeHue (pdraw r.2) = DrawProps.degreeHue (pdraw e)) /\
  (let r := execCmdStr (String "W" arg) e in
   r.1 = Status_Success /\
   DrawProps.pcentWhite (pdraw r.2) = DrawProps.pcentWhite (pdraw e)) /\
  (let r := execCmdStr (String "B" arg) e in
   r.1 = Status_Success /\
   DrawProps.pcentBright (pdraw r.2) = DrawProps.pcentBright (pdraw e)) /\
  (let r := execCmdStr (String "D" arg) e in
   r.1 = Status_Success /\
   DrawProps.msecsDelay (pdraw r.2) = DrawProps.msecsDelay (pdraw e)) /\
  (let r := execCmdStr (String "J" arg) e in
   r.1 = Status_Success /\ DrawProps.pixStart (pdraw r.2) = 0) /\
  (let r := execCmdStr (String "K" arg) e in
   r.1 = Status_Success /\ DrawProps.pixLen (pdraw r.2) = 1).
Proof.
  intros Htrk Hns Harg.
  assert ((indexTrackStack e >=? 0) = true) as Hge by (apply Z.geb_le; lia).
  assert (isdigit (deref (toupper_str arg)) = false) as Hup
    by (by rewrite deref_toupper_str, isdigit_toupper).
  split_and!; cbv zeta; rewrite execCmdStr_token by exact Hns;
    match goal with
    | |- context [toupper ?c] => change (toupper c) with c
    end;
    rewrite execCmd_draw by reflexivity; rewrite Hge; cbn [fst snd];
    match goal with
    | |- context [execDrawCmd ?c ?a e] =>
        let r := eval cbv beta iota zeta delta
                   [execDrawCmd is_cmd Ascii.eqb Bool.eqb deref] in
                   (execDrawCmd c a e) in
        change (execDrawCmd c a e) with r
    end; cbn [fst snd]; (split; [reflexivity |]).
  - unfold cmd_H. rewrite pdraw_updPdraw by exact Htrk.
    by rewrite GetNumValue3_no_digit.
  - unfold cmd_W. rewrite pdraw_updPdraw by exact Htrk.
    by rewrite GetNumValue3_no_digit.
  - unfold cmd_B. rewrite pdraw_updPdraw by exact Htrk.
    by rewrite GetNumValue3_no_digit.
  - unfold cmd_D. rewrite pdraw_updPdraw by exact Htrk.
    by rewrite GetNumValue3_no_digit.
  - unfold cmd_J. rewrite pdraw_updPdraw by exact Htrk.
    by rewrite GetNumValue3_no_digit.
  - unfold cmd_K. rewrite pdraw_updPdraw by exact Htrk.
    by rewrite GetNumValue3_no_digit.
Qed.

(** The E command hands the local [segindex] on to the new track, 0 while
    it is still negative. *)
Lemma execCmd_E_segindex e arg segindex segindex' e' :
  execCmd (String "E" arg) segindex e = (Status_Success, segindex', e') ->
  indexTrackStack e' <> indexTrackStack e ->
  0 <= indexTrackStack e + 1 < Z.of_nat (length (pluginTracks e)) ->
  segindex' = segindex /\
  PluginTrack.segIndex (trackAt e' (indexTrackStack e'))
  = to_byte (if segindex <? 0 then 0 else segindex).
Proof.
  intros H Hne Hin.
  unfold execCmd in H. cbn [deref cmd_arg] in H.
  change (is_cmd "E" "X") with false in H.
  change (is_cmd "E" "Y") with false in H.
  change (is_cmd "E" "E") with true in H. cbv iota in H.
  destruct (GetNumValue arg MAX_PLUGIN_VALUE >=? 0); [| done].
  destruct (NewPluginLayer _ _ e) as [st e1] eqn:HN.
  injection H as -> <- <-. split; [done |].
  destruct (NewPluginLayer_success _ _ _ _ HN) as [p [_ Hst]].
  destruct (stackPlugin_success_tops _ _ _ _ _ Hst) as [_ HT].
  autorewrite with stack in HT.
  destruct (isRedraw _); [| done].
  destruct (stackPlugin_success_track _ _ _ _ Hst) as [_ Htrk].
  { by autorewrite with stack. }
  by rewrite Htrk.
Qed.

(** C8, as the code has it. The segment index is the local [segindex] of one
    execCmdStr call, started at -1 by every call: an E command that stands
    alone in its command string creates its track with segIndex 0 whatever
    earlier calls did; within a call, E hands on the local (0 while it is
    still negative), which a Y command with a positive, in-range argument
    has incremented, and Y changes nothing of the engine but segCount. *)
Theorem segindex_is_local_to_one_call e arg :
  (forall e',
     no_space arg = true ->
     execCmdStr (String "E" arg) e = (Status_Success, e') ->
     indexTrackStack e' <> indexTrackStack e ->
     0 <= indexTrackStack e + 1 < Z.of_nat (length (pluginTracks e)) ->
     PluginTrack.segIndex (trackAt e' (indexTrackStack e')) = 0)
  /\ (forall segindex segindex' e',
        execCmd (String "E" arg) segindex e
        = (Status_Success, segindex', e') ->
        indexTrackStack e' <> indexTrackStack e ->
        0 <= indexTrackStack e + 1 < Z.of_nat (length (pluginTracks e)) ->
        segindex' = segindex /\
        PluginTrack.segIndex (trackAt e' (indexTrackStack e'))
        = to_byte (if segindex <? 0 then 0 else segindex))
  /\ (forall segindex,
        execCmd (String "Y" arg) segindex e
        = if GetNumValue arg (numPixels e - segOffset e) >? 0
          then (Status_Success, segindex + 1,
                set_segCount (GetNumValue arg (numPixels e - segOffset e)) e)
          else (Status_Success, segindex, set_segCount (numPixels e) e)).
Proof.
  split_and!.
  - intros e' Hns H Hne Hin.
    rewrite execCmdStr_token in H by exact Hns.
    change (toupper "E") with "E"%char in H. cbv zeta in H.
    destruct (execCmd _ (-1) e) as [[st sg] e1] eqn:Hx.
    cbn [fst snd] in H. injection H as -> ->.
    by destruct (execCmd_E_segindex _ _ _ _ _ Hx Hne Hin) as [_ ->].
  - intros segindex segindex' e'. apply execCmd_E_segindex.
  - intros segindex. unfold execCmd. cbn [deref cmd_arg].
    change (is_cmd "Y" "X") with false. change (is_cmd "Y" "Y") with true.
    reflexivity.
Qed.

End DrawCommands.

(** ** Automatic triggering *)

Section AutoTrigger.
Context {P : Type} {Plug : PixelNutPlugin P} {Fact : PluginFactory P}
  {Sup : PixelNutSupport}.
Implicit Types (e : PixelNutEngine P) (L : PluginLayer P).

(** The Arduino random: inside the range when there is one, and the engine
    moved by at most one platform call. *)
Lemma random_range lo hi e : lo < hi -> lo <= (random lo hi e).1 < hi.
Proof.
  intros H. unfold random. destruct (Z.geb_spec lo hi); [lia |]. cbn [fst].
  pose proof (Z.mod_pos_bound (random_at (calls e)) (hi - lo)). lia.
Qed.

Lemma random_empty lo hi e : hi <= lo -> (random lo hi e).1 = lo.
Proof. intros H. unfold random. by destruct (Z.geb_spec lo hi); [| lia]. Qed.

Lemma random_state lo hi e :
  (random lo hi e).2 = e \/ (random lo hi e).2 = tick e.
Proof. unfold random. destruct (_ >=? _); [by left | by right]. Qed.

Lemma keeps_random e0 lo hi e : keeps e0 e -> keeps e0 (random lo hi e).2.
Proof.
  intros K. destruct (random_state lo hi e) as [-> | ->]; [done |].
  by apply keeps_tick.
Qed.

Lemma layerAt_random lo hi e j : layerAt (random lo hi e).2 j = layerAt e j.
Proof. by destruct (random_state lo hi e) as [-> | ->]. Qed.

Lemma events_random lo hi e : events (random lo hi e).2 = events e.
Proof. by destruct (random_state lo hi e) as [-> | ->]. Qed.

Lemma dims_random lo hi e : dims (random lo hi e).2 = dims e.
Proof. by destruct (random_state lo hi e) as [-> | ->]. Qed.

Lemma dims_updLayer i f e : dims (updLayer i f e) = dims e.
Proof. unfold dims. autorewrite with stack. by rewrite length_setZ. Qed.

Lemma dims_length e e' :
  dims e' = dims e -> length (pluginLayers e') = length (pluginLayers e).
Proof. unfold dims. congruence. Qed.

Lemma dims_timePrevUpdate e e' :
  dims e' = dims e -> timePrevUpdate e' = timePrevUpdate e.
Proof. unfold dims. congruence. Qed.

Lemma dims_indexTrackEnable e e' :
  dims e' = dims e -> indexTrackEnable e' = indexTrackEnable e.
Proof. unfold dims. congruence. Qed.

Lemma dims_indexLayerStack e e' :
  dims e' = dims e -> indexLayerStack e' = indexLayerStack e.
Proof. unfold dims. congruence. Qed.

Lemma dims_indexTrackStack e e' :
  dims e' = dims e -> indexTrackStack e' = indexTrackStack e.
Proof. unfold dims. congruence. Qed.

(** *** The steps of CheckAutoTrigger on one layer *)

Lemma rebaseTrigger_dims r i e : dims (rebaseTrigger r i e) = dims e.
Proof. unfold rebaseTrigger. destruct (_ && _); [apply dims_updLayer | done]. Qed.

Lemma rebaseTrigger_events r i e : events (rebaseTrigger r i e) = events e.
Proof. unfold rebaseTrigger. by destruct (_ && _). Qed.

Lemma rebaseTrigger_other r i e j :
  i <> j -> layerAt (rebaseTrigger r i e) j = layerAt e j.
Proof.
  intros Hne. unfold rebaseTrigger.
  destruct (_ && _); [by apply layerAt_updLayer_ne | done].
Qed.

Lemma rebaseTrigger_self r i e :
  0 <= i < Z.of_nat (length (pluginLayers e)) ->
  layerAt (rebaseTrigger r i e) i
  = if r && (trigTimeMsecs (layerAt e i) >? 0)
    then set_trigTimeMsecs (timePrevUpdate e) (layerAt e i)
    else layerAt e i.
Proof.
  intros Hin. unfold rebaseTrigger.
  destruct (_ && _); [by apply layerAt_updLayer_eq | done].
Qed.

Lemma autoTrigger_fire_keeps i e :
  keeps (logEvent (EvAutoTrigger i) e) (autoTrigger_fire i e).
Proof.
  unfold autoTrigger_fire. cbv zeta.
  apply keeps_triggerLayer.
  destruct (_ >=? _); cbn [snd]; [apply keeps_refl |].
  apply keeps_random, keeps_refl.
Qed.

Lemma autoTrigger_rearm_dims i e : dims (autoTrigger_rearm i e) = dims e.
Proof.
  unfold autoTrigger_rearm. cbv zeta. by rewrite dims_updLayer, dims_random.
Qed.

Lemma autoTrigger_rearm_events i e : events (autoTrigger_rearm i e) = events e.
Proof.
  unfold autoTrigger_rearm. cbv zeta. autorewrite with stack.
  apply events_random.
Qed.

Lemma autoTrigger_rearm_other i e j :
  i <> j -> layerAt (autoTrigger_rearm i e) j = layerAt e j.
Proof.
  intros Hne. unfold autoTrigger_rearm. cbv zeta.
  rewrite layerAt_updLayer_ne by done. apply layerAt_random.
Qed.

Lemma autoTrigger_rearm_self i e :
  0 <= i < Z.of_nat (length (pluginLayers e)) ->
  exists secs,
    layerAt (autoTrigger_rearm i e) i
    = set_trigTimeMsecs (to_uint32 (timePrevUpdate e + 1000 * secs))
        (layerAt e i) /\
    (0 <= trigDelayRange (layerAt e i) ->
     trigDelayMin (layerAt e i) <= secs
     <= trigDelayMin (layerAt e i) + trigDelayRange (layerAt e i)).
Proof.
  intros Hin. unfold autoTrigger_rearm. cbv zeta.
  eexists. split.
  - rewrite layerAt_updLayer_eq
      by (by rewrite (dims_length _ _ (dims_random _ _ _))).
    by rewrite layerAt_random.
  - intros Hr. 
    pose proof (random_range (trigDelayMin (layerAt e i))
                  (trigDelayMin (layerAt e i) + trigDelayRange (layerAt e i) + 1)
                  e). lia.
Qed.

Lemma autoTrigger_count_dims i e : dims (autoTrigger_count i e) = dims e.
Proof.
  unfold autoTrigger_count. destruct (_ >? _); [apply dims_updLayer | done].
Qed.

Lemma autoTrigger_count_events i e : events (autoTrigger_count i e) = events e.
Proof. unfold autoTrigger_count. by destruct (_ >? _). Qed.

Lemma autoTrigger_count_other i e j :
  i <> j -> layerAt (autoTrigger_count i e) j = layerAt e j.
Proof.
  intros Hne. unfold autoTrigger_count.
  destruct (_ >? _); [by apply layerAt_updLayer_ne | done].
Qed.

Lemma autoTrigger_count_self i e :
  0 <= i < Z.of_nat (length (pluginLayers e)) ->
  layerAt (autoTrigger_count i e) i
  = if trigCount (layerAt e i) >? 0
    then set_trigCount (trigCount (layerAt e i) - 1) (layerAt e i)
    else layerAt e i.
Proof.
  intros Hin. unfold autoTrigger_count.
  destruct (_ >? _); [by rewrite layerAt_updLayer_eq | done].
Qed.

End AutoTrigger.

Section AutoTriggerLoop.
Context {P : Type} {Plug : PixelNutPlugin P} {Fact : PluginFactory P}
  {Sup : PixelNutSupport}.
Implicit Types (e : PixelNutEngine P) (L : PluginLayer P).

Lemma cfg_static L L' : cfg L' = cfg L -> static_cfg L' = static_cfg L.
Proof. unfold cfg, static_cfg. congruence. Qed.

Lemma CheckAutoTrigger_layer_dims r i e :
  dims (CheckAutoTrigger_layer r i e) = dims e.
Proof.
  unfold CheckAutoTrigger_layer. cbv zeta.
  destruct (autoTriggerDue _ _); [| apply rebaseTrigger_dims].
  rewrite autoTrigger_count_dims, autoTrigger_rearm_dims.
  rewrite (keeps_dims _ _ (autoTrigger_fire_keeps _ _)).
  apply rebaseTrigger_dims.
Qed.

(** A pass over layer [i] leaves the configuration of the other layers and
    the count of their automatic firings alone. *)
Lemma CheckAutoTrigger_layer_other r i e j :
  i <> j ->
  cfg (layerAt (CheckAutoTrigger_layer r i e) j) = cfg (layerAt e j) /\
  autoFires j (events (CheckAutoTrigger_layer r i e)) = autoFires j (events e).
Proof.
  intros Hne. unfold CheckAutoTrigger_layer. cbv zeta.
  destruct (autoTriggerDue _ _).
  - rewrite autoTrigger_count_other, autoTrigger_rearm_other by done.
    rewrite autoTrigger_count_events, autoTrigger_rearm_events.
    pose proof (autoTrigger_fire_keeps i (rebaseTrigger r i e)) as K.
    rewrite (keeps_cfg _ _ K), (keeps_fires _ _ K).
    autorewrite with stack. rewrite rebaseTrigger_other by done.
    rewrite rebaseTrigger_events. cbn [autoFires].
    destruct (Z.eqb_spec i j); [done |]. by split.
  - rewrite rebaseTrigger_other by done. by rewrite rebaseTrigger_events.
Qed.

(** A pass over layer [i] does to it what [auto_outcome] says. *)
Lemma CheckAutoTrigger_layer_self r i e :
  0 <= i < Z.of_nat (length (pluginLayers e)) ->
  auto_outcome r i e (CheckAutoTrigger_layer r i e).
Proof.
  intros Hin. unfold auto_outcome, CheckAutoTrigger_layer. cbv zeta.
  set (e1 := rebaseTrigger r i e).
  assert (layerAt e1 i
          = if r && (trigTimeMsecs (layerAt e i) >? 0)
            then set_trigTimeMsecs (timePrevUpdate e) (layerAt e i)
            else layerAt e i) as H1 by (by apply rebaseTrigger_self).
  assert (timePrevUpdate e1 = timePrevUpdate e) as HT1
    by apply dims_timePrevUpdate, rebaseTrigger_dims.
  assert (events e1 = events e) as HE1 by apply rebaseTrigger_events.
  assert (length (pluginLayers e1) = length (pluginLayers e)) as Hlen1
    by apply dims_length, rebaseTrigger_dims.
  destruct (autoTriggerDue i e1) eqn:Hdue.
  - (* fired *)
    set (e2 := autoTrigger_fire i e1).
    pose proof (autoTrigger_fire_keeps i e1) as K. fold e2 in K.
    assert (length (pluginLayers e2) = length (pluginLayers e)) as Hlen2.
    { rewrite (dims_length _ _ (keeps_dims _ _ K)). by autorewrite with stack. }
    assert (cfg (layerAt e2 i) = cfg (layerAt e1 i)) as Hc2
      by (rewrite (keeps_cfg _ _ K); by autorewrite with stack).
    assert (timePrevUpdate e2 = timePrevUpdate e) as HT2.
    { rewrite (dims_timePrevUpdate _ _ (keeps_dims _ _ K)). by rewrite <- HT1. }
    destruct (autoTrigger_rearm_self i e2) as [secs [H3 Hsecs]]; [lia |].
    set (e3 := autoTrigger_rearm i e2) in *.
    assert (length (pluginLayers e3) = length (pluginLayers e)) as Hlen3
      by (subst e3; by rewrite (dims_length _ _ (autoTrigger_rearm_dims _ _))).
    rewrite autoTrigger_count_self by lia.
    rewrite autoTrigger_count_events. subst e3.
    rewrite autoTrigger_rearm_events, (keeps_fires _ _ K).
    autorewrite with stack. rewrite HE1. cbn [autoFires]. rewrite Z.eqb_refl.
    rewrite H3, HT2.
    unfold autoTriggerDue in Hdue. cbv zeta in Hdue. rewrite HT1 in Hdue.
    apply andb_prop in Hdue as [Hdue Hle].
    apply andb_prop in Hdue as [Hdue Hgt].
    apply andb_prop in Hdue as [Hact Hcnt].
    apply negb_true_iff, Z.eqb_neq in Hcnt.
    apply Z.gtb_lt in Hgt. apply Z.leb_le in Hle.
    unfold cfg in Hc2.
    assert (trigCount (layerAt e2 i) = trigCount (layerAt e1 i)) as Hcnt2
      by congruence.
    assert (trigDelayMin (layerAt e2 i) = trigDelayMin (layerAt e1 i)) as Hmin2
      by congruence.
    assert (trigDelayRange (layerAt e2 i) = trigDelayRange (layerAt e1 i))
      as Hrng2 by congruence.
    assert (static_cfg (layerAt e2 i) = static_cfg (layerAt e1 i)) as Hs2
      by (unfold static_cfg; congruence).
    assert (static_cfg (layerAt e1 i) = static_cfg (layerAt e i)) as Hs1
      by (rewrite H1; by destruct (_ && _)).
    assert (trigCount (layerAt e1 i) = trigCount (layerAt e i)) as Hcnt1
      by (rewrite H1; by destruct (_ && _)).
    assert (trigTimeMsecs (layerAt e1 i)
            = if r && (trigTimeMsecs (layerAt e i) >? 0)
              then timePrevUpdate e else trigTimeMsecs (layerAt e i)) as Ht1
      by (rewrite H1; by destruct (_ && _)).
    split.
    + rewrite <- Hs1, <- Hs2.
      cbn [trigCount set_trigTimeMsecs].
      destruct (trigCount (layerAt e2 i) >? 0); reflexivity.
    + right. rewrite <- Ht1, <- Hcnt1.
      split_and!; [done | lia | lia | lia | |].
      * cbn [trigCount set_trigTimeMsecs]. rewrite Hcnt2.
        destruct (trigCount (layerAt e1 i) >? 0); [reflexivity | exact Hcnt2].
      * exists secs. split.
        -- cbn [trigCount set_trigTimeMsecs].
           destruct (trigCount (layerAt e2 i) >? 0); reflexivity.
        -- intros Hr. unfold static_cfg in Hs1, Hs2.
           assert (trigDelayMin (layerAt e i) = trigDelayMin (layerAt e2 i))
             as -> by congruence.
           assert (trigDelayRange (layerAt e i) = trigDelayRange (layerAt e2 i))
             as Hrr by congruence.
           rewrite Hrr in *. by apply Hsecs.
  - (* not fired *)
    rewrite H1, HE1. split; [by destruct (_ && _) |].
    left. by destruct (_ && _).
Qed.

(** Every step keeps the static part of every layer's configuration,
    whether or not the index is inside the array. *)
Lemma static_updLayer i f e k :
  (forall L, static_cfg (f L) = static_cfg L) ->
  static_cfg (layerAt (updLayer i f e) k) = static_cfg (layerAt e k).
Proof.
  intros Hf. unfold layerAt. autorewrite with stack.
  apply (nthZ_setZ_keep static_cfg). apply Hf.
Qed.

Lemma CheckAutoTrigger_layer_static r i e k :
  static_cfg (layerAt (CheckAutoTrigger_layer r i e) k)
  = static_cfg (layerAt e k).
Proof.
  assert (static_cfg (layerAt (rebaseTrigger r i e) k)
          = static_cfg (layerAt e k)) as H1.
  { unfold rebaseTrigger. destruct (_ && _); [| done].
    by apply static_updLayer. }
  unfold CheckAutoTrigger_layer. cbv zeta.
  destruct (autoTriggerDue _ _); [| exact H1].
  rewrite <- H1.
  set (e1 := rebaseTrigger r i e).
  pose proof (autoTrigger_fire_keeps i e1) as K.
  rewrite <- (layerAt_logEvent (EvAutoTrigger i) e1 k).
  rewrite <- (cfg_static _ _ (keeps_cfg _ _ K k)).
  set (e2 := autoTrigger_fire i e1).
  assert (static_cfg (layerAt (autoTrigger_rearm i e2) k)
          = static_cfg (layerAt e2 k)) as H3.
  { unfold autoTrigger_rearm. cbv zeta.
    rewrite static_updLayer by done. by rewrite layerAt_random. }
  rewrite <- H3. unfold autoTrigger_count.
  destruct (_ >? _); [| done]. by apply static_updLayer.
Qed.

Lemma reaches_notin e layers i : ~ In i layers -> reaches e layers i = false.
Proof.
  induction layers as [| j rest IH]; simpl; [done |].
  intros Hn. destruct (_ >? _); [done |].
  destruct (Z.eqb_spec j i) as [-> | ?]; [by destruct Hn; left |].
  apply IH. intros ?. apply Hn. by right.
Qed.

Lemma reaches_ext e e1 layers i :
  (forall k, static_cfg (layerAt e1 k) = static_cfg (layerAt e k)) ->
  indexTrackEnable e1 = indexTrackEnable e ->
  reaches e1 layers i = reaches e layers i.
Proof.
  intros Hs Hd. induction layers as [| j rest IH]; simpl; [done |].
  rewrite Hd.
  assert (track (layerAt e1 j) = track (layerAt e j)) as ->
    by (specialize (Hs j); unfold static_cfg in Hs; congruence).
  by rewrite IH.
Qed.

(** [auto_outcome] looks at the two engines only through the configuration
    of the layer, the previous update time and the count of firings. *)
Lemma auto_outcome_pre r i e e1 e' :
  cfg (layerAt e1 i) = cfg (layerAt e i) ->
  autoFires i (events e1) = autoFires i (events e) ->
  dims e1 = dims e ->
  auto_outcome r i e1 e' -> auto_outcome r i e e'.
Proof.
  intros Hc Hf Hd. unfold auto_outcome. cbv zeta.
  rewrite (cfg_static _ _ Hc), Hf, (dims_timePrevUpdate _ _ Hd).
  unfold cfg in Hc.
  assert (trigTimeMsecs (layerAt e1 i) = trigTimeMsecs (layerAt e i)) as ->
    by congruence.
  assert (trigCount (layerAt e1 i) = trigCount (layerAt e i)) as ->
    by congruence.
  assert (trigDelayMin (layerAt e1 i) = trigDelayMin (layerAt e i)) as ->
    by congruence.
  assert (trigDelayRange (layerAt e1 i) = trigDelayRange (layerAt e i)) as ->
    by congruence.
  done.
Qed.

Lemma auto_outcome_post r i e e1 e' :
  cfg (layerAt e' i) = cfg (layerAt e1 i) ->
  autoFires i (events e') = autoFires i (events e1) ->
  auto_outcome r i e e1 -> auto_outcome r i e e'.
Proof.
  intros Hc Hf. unfold auto_outcome. cbv zeta.
  rewrite (cfg_static _ _ Hc), Hf.
  unfold cfg in Hc.
  assert (trigTimeMsecs (layerAt e' i) = trigTimeMsecs (layerAt e1 i)) as ->
    by congruence.
  assert (trigCount (layerAt e' i) = trigCount (layerAt e1 i)) as ->
    by congruence.
  done.
Qed.

(** The loop of CheckAutoTrigger over distinct layers: a layer the loop gets
    to comes out as [auto_outcome] says, any other layer keeps its
    configuration and its count of firings. *)
Lemma CheckAutoTrigger_loop_spec r layers :
  NoDup layers ->
  forall e,
    dims (CheckAutoTrigger_loop r layers e) = dims e /\
    (forall k, static_cfg (layerAt (CheckAutoTrigger_loop r layers e) k)
               = static_cfg (layerAt e k)) /\
    forall i, 0 <= i < Z.of_nat (length (pluginLayers e)) ->
      if reaches e layers i
      then auto_outcome r i e (CheckAutoTrigger_loop r layers e)
      else cfg (layerAt (CheckAutoTrigger_loop r layers e) i)
           = cfg (layerAt e i) /\
           autoFires i (events (CheckAutoTrigger_loop r layers e))
           = autoFires i (events e).
Proof.
  induction 1 as [| j rest Hnotin Hnd IH]; intros e.
  { simpl. by split_and!. }
  cbn [CheckAutoTrigger_loop reaches].
  destruct (track (layerAt e j) >? indexTrackEnable e); [by split_and! |].
  set (e1 := CheckAutoTrigger_layer r j e).
  assert (dims e1 = dims e) as Hd1 by apply CheckAutoTrigger_layer_dims.
  assert (forall k, static_cfg (layerAt e1 k) = static_cfg (layerAt e k))
    as Hs1 by apply CheckAutoTrigger_layer_static.
  destruct (IH e1) as (Hd & Hs & Hall).
  split_and!.
  - congruence.
  - intros k. by rewrite Hs.
  - intros i Hin.
    assert (0 <= i < Z.of_nat (length (pluginLayers e1))) as Hin1
      by (by rewrite (dims_length _ _ Hd1)).
    specialize (Hall i Hin1).
    rewrite (reaches_ext e e1) in Hall
      by (by try apply dims_indexTrackEnable).
    destruct (Z.eqb_spec j i) as [-> | Hne].
    + rewrite reaches_notin in Hall by (by rewrite <- list_elem_of_In).
      destruct Hall as [Hc Hf].
      eapply auto_outcome_post; [exact Hc | exact Hf |].
      by apply CheckAutoTrigger_layer_self.
    + destruct (CheckAutoTrigger_layer_other r j e i Hne) as [Hc1 Hf1].
      fold e1 in Hc1, Hf1.
      destruct (reaches e rest i).
      * by eapply auto_outcome_pre.
      * destruct Hall as [Hc Hf]. split; congruence.
Qed.

End AutoTriggerLoop.

Section UpdateEffects.
Context {P : Type} {Plug : PixelNutPlugin P} {Fact : PluginFactory P}
  {Sup : PixelNutSupport}.
Implicit Types (e : PixelNutEngine P) (L : PluginLayer P).

(** The loop over the layers 0 .. indexLayerStack gets to layer [i] exactly
    when no layer up to [i] is on a track beyond [indexTrackEnable]. *)
Lemma reaches_seqZ_true e i : forall (n : nat) m,
  m <= i < m + Z.of_nat n ->
  (forall j, m <= j <= i -> track (layerAt e j) <= indexTrackEnable e) ->
  reaches e (seqZ m (Z.of_nat n)) i = true.
Proof.
  induction n as [| n IH]; intros m Hi Hall; [lia |].
  rewrite seqZ_cons by lia. cbn [reaches].
  destruct (Z.gtb_spec (track (layerAt e m)) (indexTrackEnable e)) as [Hgt |].
  { specialize (Hall m). lia. }
  destruct (Z.eqb_spec m i); [done |].
  replace (Z.pred (Z.of_nat (S n))) with (Z.of_nat n) by lia.
  apply IH; [lia |]. intros j Hj. apply Hall. lia.
Qed.

Lemma reaches_seqZ_false e i : forall (n : nat) m,
  (exists j, m <= j <= i /\ indexTrackEnable e < track (layerAt e j)) ->
  reaches e (seqZ m (Z.of_nat n)) i = false.
Proof.
  induction n as [| n IH]; intros m [j [Hj Hgt]]; [done |].
  rewrite seqZ_cons by lia. cbn [reaches].
  destruct (Z.gtb_spec (track (layerAt e m)) (indexTrackEnable e)); [done |].
  destruct (Z.eqb_spec m i) as [-> | Hne].
  { assert (j = i) as -> by lia. lia. }
  replace (Z.pred (Z.of_nat (S n))) with (Z.of_nat n) by lia.
  apply IH. exists j. split; [| done].
  destruct (decide (j = m)) as [-> | ?]; lia.
Qed.

(** One call of updateEffects: the clock is read, CheckAutoTrigger runs on
    the engine with the new [timePrevUpdate], and nothing after it touches a
    trigger configuration or fires a layer automatically. *)
Lemma updateEffects_steps e r :
  updateEffects e = Some r ->
  let now := to_uint32 (msecs_at (calls e)) in
  let e0 := set_timePrevUpdate now (tick e) in
  keeps (CheckAutoTrigger (timePrevUpdate e >? now) e0) r.2.
Proof.
  unfold updateEffects, getMsecs. cbn [fst snd]. cbv zeta.
  change (timePrevUpdate (tick e)) with (timePrevUpdate e).
  set (now := to_uint32 (msecs_at (calls e))).
  set (e1 := CheckAutoTrigger _ _).
  pose proof (keeps_redrawTracks e1 (timePrevUpdate e >? now)
                (seqZ 0 (indexTrackStack e1 + 1)) (timePrevUpdate e =? 0)
                e1 (keeps_refl e1)) as K.
  destruct (redrawTracks _ _ _ e1) as [doshow e2]. cbn [fst snd] in *.
  destruct doshow.
  - destruct (mergeBuffers e2) as [disp |]; [| done].
    cbn. intros [= <-]. cbn [snd]. by apply keeps_set_pDisplayPixels.
  - by intros [= <-].
Qed.

Lemma CheckAutoTrigger_spec r e :
  dims (CheckAutoTrigger r e) = dims e /\
  (forall k, static_cfg (layerAt (CheckAutoTrigger r e) k)
             = static_cfg (layerAt e k)) /\
  forall i, 0 <= i < Z.of_nat (length (pluginLayers e)) ->
    if reaches e (seqZ 0 (indexLayerStack e + 1)) i
    then auto_outcome r i e (CheckAutoTrigger r e)
    else cfg (layerAt (CheckAutoTrigger r e) i) = cfg (layerAt e i) /\
         autoFires i (events (CheckAutoTrigger r e)) = autoFires i (events e).
Proof. apply CheckAutoTrigger_loop_spec, NoDup_seqZ. Qed.

(** One call of updateEffects, seen from one layer of the array. *)
Lemma updateEffects_layer e r i :
  updateEffects e = Some r ->
  0 <= i < Z.of_nat (length (pluginLayers e)) ->
  let now := to_uint32 (msecs_at (calls e)) in
  timePrevUpdate r.2 = now /\
  length (pluginLayers r.2) = length (pluginLayers e) /\
  indexLayerStack r.2 = indexLayerStack e /\
  static_cfg (layerAt r.2 i) = static_cfg (layerAt e i) /\
  if reaches e (seqZ 0 (indexLayerStack e + 1)) i
  then auto_outcome (timePrevUpdate e >? now) i
         (set_timePrevUpdate now (tick e)) r.2
  else cfg (layerAt r.2 i) = cfg (layerAt e i) /\
       autoFires i (events r.2) = autoFires i (events e).
Proof.
  intros H Hin. cbv zeta.
  pose proof (updateEffects_steps e r H) as K. cbv zeta in K.
  set (now := to_uint32 (msecs_at (calls e))) in *.
  set (e0 := set_timePrevUpdate now (tick e)) in *.
  destruct (CheckAutoTrigger_spec (timePrevUpdate e >? now) e0)
    as (Hd & Hs & Hall).
  set (e1 := CheckAutoTrigger (timePrevUpdate e >? now) e0) in *.
  specialize (Hall i Hin).
  change (indexLayerStack e0) with (indexLayerStack e) in Hall.
  rewrite (reaches_ext e e0) in Hall by done.
  pose proof (keeps_dims _ _ K) as Hd2.
  split_and!.
  - by rewrite (dims_timePrevUpdate _ _ Hd2), (dims_timePrevUpdate _ _ Hd).
  - by rewrite (dims_length _ _ Hd2), (dims_length _ _ Hd).
  - by rewrite (dims_indexLayerStack _ _ Hd2), (dims_indexLayerStack _ _ Hd).
  - by rewrite (cfg_static _ _ (keeps_cfg _ _ K i)), Hs.
  - destruct (reaches e _ i).
    + eapply auto_outcome_post; [apply (keeps_cfg _ _ K) | apply (keeps_fires _ _ K) |].
      exact Hall.
    + destruct Hall as [Hc Hf]. split.
      * by rewrite (keeps_cfg _ _ K), Hc.
      * by rewrite (keeps_fires _ _ K), Hf.
Qed.


End UpdateEffects.

Section AutoTriggerCount.
Context {P : Type} {Plug : PixelNutPlugin P} {Fact : PluginFactory P}
  {Sup : PixelNutSupport}.
Implicit Types (e : PixelNutEngine P) (L : PluginLayer P).

(** What an update of one layer keeps of a layer, it keeps in every cell. *)
Lemma field_updLayer {B} (g : PluginLayer P -> B) i f e k :
  (forall L, g (f L) = g L) ->
  g (layerAt (updLayer i f e) k) = g (layerAt e k).
Proof.
  intros Hf. unfold layerAt. autorewrite with stack.
  apply (nthZ_setZ_keep g). apply Hf.
Qed.

(** One call of updateEffects and a layer with a count that is not
    "forever": the automatic firings and the count left add up as before,
    and a firing re-arms the layer from the new [timePrevUpdate]. *)
Lemma updateEffects_count e r i :
  updateEffects e = Some r ->
  0 <= i < Z.of_nat (length (pluginLayers e)) ->
  0 <= trigCount (layerAt e i) ->
  0 <= trigCount (layerAt r.2 i) /\
  autoFires i (events r.2) + trigCount (layerAt r.2 i)
  = autoFires i (events e) + trigCount (layerAt e i) /\
  (autoFires i (events r.2) = autoFires i (events e)
   \/ (autoFires i (events r.2) = autoFires i (events e) + 1 /\
       0 < timePrevUpdate r.2 /\
       exists secs,
         trigTimeMsecs (layerAt r.2 i)
         = to_uint32 (timePrevUpdate r.2 + 1000 * secs) /\
         (0 <= trigDelayRange (layerAt e i) ->
          trigDelayMin (layerAt e i) <= secs
          <= trigDelayMin (layerAt e i) + trigDelayRange (layerAt e i)))).
Proof.
  intros H Hin Hcnt.
  destruct (updateEffects_layer e r i H Hin) as (Ht & _ & _ & _ & Hout).
  cbv zeta in Hout. set (now := to_uint32 (msecs_at (calls e))) in *.
  destruct (reaches e _ i).
  - unfold auto_outcome in Hout. cbv zeta in Hout.
    change (layerAt (set_timePrevUpdate now (tick e)) i)
      with (layerAt e i) in Hout.
    change (timePrevUpdate (set_timePrevUpdate now (tick e)))
      with now in Hout.
    change (events (set_timePrevUpdate now (tick e)))
      with (events e) in Hout.
    destruct Hout as [_ [(Hf & Hc & _) |
                         (Hne & Hpos & Hf & Hc & secs & Htm & Hb)]].
    + rewrite Hf, Hc. split_and!; [done | done | by left].
    + destruct (Z.gtb_spec (trigCount (layerAt e i)) 0); [| lia].
      rewrite Hf, Hc, Ht. split_and!; [lia | lia |].
      right. split_and!; [done | lia |]. by exists secs.
  - destruct Hout as [Hc Hf]. unfold cfg in Hc.
    assert (trigCount (layerAt r.2 i) = trigCount (layerAt e i)) as ->
      by congruence.
    rewrite Hf. split_and!; [done | done | by left].
Qed.

(** Any number of calls of updateEffects in a row. *)
Lemma updateEffects_n_count i : forall n e e_n,
  updateEffects_n n e = Some e_n ->
  0 <= i < Z.of_nat (length (pluginLayers e)) ->
  0 <= trigCount (layerAt e i) ->
  0 <= trigCount (layerAt e_n i) /\
  autoFires i (events e) <= autoFires i (events e_n) /\
  autoFires i (events e_n) + trigCount (layerAt e_n i)
  = autoFires i (events e) + trigCount (layerAt e i) /\
  length (pluginLayers e_n) = length (pluginLayers e) /\
  static_cfg (layerAt e_n i) = static_cfg (layerAt e i).
Proof.
  induction n as [| n IH]; intros e e_n H Hin Hcnt.
  { injection H as <-. by split_and!. }
  cbn [updateEffects_n] in H.
  destruct (updateEffects e) as [r |] eqn:Hr; [| done]. cbn in H.
  destruct (updateEffects_count e r i Hr Hin Hcnt) as (Hc1 & Hsum1 & Hstep).
  destruct (updateEffects_layer e r i Hr Hin) as (_ & Hlen1 & _ & Hs1 & _).
  destruct (IH r.2 e_n H) as (Hc & Hmono & Hsum & Hlen & Hs);
    [by rewrite Hlen1 | done |].
  split_and!; [done | | lia | congruence | congruence].
  destruct Hstep as [Hf | (Hf & _)]; lia.
Qed.

(** The N command with a count between 1 and 32767 stores that count. *)
Lemma cmd_N_sets_count arg e k :
  0 <= indexLayerStack e < Z.of_nat (length (pluginLayers e)) ->
  GetNumValue3 arg 0 MAX_WORD_VALUE = k -> 1 <= k <= 32767 ->
  layerAt (cmd_N arg e) (indexLayerStack e)
  = set_trigCount k (layerAt e (indexLayerStack e)) /\
  dims (cmd_N arg e) = dims e.
Proof.
  intros Hin Hk Hr. unfold cmd_N, updTopLayer. cbv zeta.
  autorewrite with stack. rewrite Hk, to_short_small by lia.
  rewrite layerAt_updLayer_eq by done. cbn [trigCount set_trigCount].
  destruct (Z.eqb_spec k 0); [lia |].
  split; [by rewrite layerAt_updLayer_eq | apply dims_updLayer].
Qed.

(** The T command keeps the count and the minimum delay of every layer;
    with a digit after it, the range it stores is not negative. *)
Lemma cmd_T_arm_fields arg e :
  dims (cmd_T_arm arg e) = dims e /\
  (forall k, trigCount (layerAt (cmd_T_arm arg e) k) = trigCount (layerAt e k)) /\
  (forall k, trigDelayMin (layerAt (cmd_T_arm arg e) k)
             = trigDelayMin (layerAt e k)) /\
  (0 <= indexLayerStack e < Z.of_nat (length (pluginLayers e)) ->
   0 <= trigDelayRange (layerAt (cmd_T_arm arg e) (indexLayerStack e))).
Proof.
  unfold cmd_T_arm, updTopLayer, getMsecs. cbv zeta. cbn [fst snd].
  set (e1 := updLayer (indexLayerStack e) _ e).
  assert (dims e1 = dims e) as Hd1 by apply dims_updLayer.
  set (rr := random _ _ (tick e1)).
  assert (dims rr.2 = dims e) as Hd2.
  { subst rr. rewrite dims_random. exact Hd1. }
  split_and!.
  - by rewrite dims_updLayer.
  - intros k. rewrite (field_updLayer trigCount) by done.
    subst rr. rewrite layerAt_random. autorewrite with stack.
    subst e1. by rewrite (field_updLayer trigCount).
  - intros k. rewrite (field_updLayer trigDelayMin) by done.
    subst rr. rewrite layerAt_random. autorewrite with stack.
    subst e1. by rewrite (field_updLayer trigDelayMin).
  - intros Hin. rewrite (field_updLayer trigDelayRange) by done.
    subst rr. rewrite layerAt_random. autorewrite with stack.
    subst e1. rewrite layerAt_updLayer_eq by done.
    cbn [trigDelayRange set_trigDelayRange]. unfold to_uint16.
    apply Z.mod_pos_bound. lia.
Qed.

Lemma cmd_T_fields arg e :
  isdigit (deref arg) = true ->
  dims (cmd_T arg e) = dims e /\
  (forall k, trigCount (layerAt (cmd_T arg e) k) = trigCount (layerAt e k)) /\
  (forall k, trigDelayMin (layerAt (cmd_T arg e) k)
             = trigDelayMin (layerAt e k)) /\
  (0 <= indexLayerStack e < Z.of_nat (length (pluginLayers e)) ->
   0 <= trigDelayRange (layerAt (cmd_T arg e) (indexLayerStack e))).
Proof.
  intros Hdig. unfold cmd_T. cbv zeta. rewrite Hdig.
  set (r := if _ <? 0 then _ else _).
  assert (keeps e r.2) as K1.
  { subst r. destruct (_ <? 0); cbn [snd]; [| apply keeps_refl].
    apply keeps_random, keeps_refl. }
  destruct (cmd_T_arm_fields arg r.2) as (Hd2 & Hc2 & Hm2 & Hr2).
  set (e2 := cmd_T_arm arg r.2) in *.
  pose proof (keeps_triggerLayer e2 e2 (indexLayerStack e2) r.1 (keeps_refl e2))
    as K3.
  set (e3 := triggerLayer _ _ e2) in *.
  pose proof (keeps_dims _ _ K1) as Hd1. pose proof (keeps_dims _ _ K3) as Hd3.
  assert (forall k, cfg (layerAt e3 k) = cfg (layerAt e2 k)) as Hc3
    by apply (keeps_cfg _ _ K3).
  assert (forall k, cfg (layerAt r.2 k) = cfg (layerAt e k)) as Hc1
    by apply (keeps_cfg _ _ K1).
  split_and!.
  - congruence.
  - intros k. specialize (Hc3 k). specialize (Hc1 k). specialize (Hc2 k).
    unfold cfg in *. congruence.
  - intros k. specialize (Hc3 k). specialize (Hc1 k). specialize (Hm2 k).
    unfold cfg in *. congruence.
  - intros Hin. rewrite <- (dims_indexLayerStack _ _ Hd1).
    specialize (Hc3 (indexLayerStack r.2)). unfold cfg in Hc3.
    assert (trigDelayRange (layerAt e3 (indexLayerStack r.2))
            = trigDelayRange (layerAt e2 (indexLayerStack r.2))) as ->
      by congruence.
    apply Hr2. rewrite (dims_indexLayerStack _ _ Hd1), (dims_length _ _ Hd1).
    done.
Qed.


End AutoTriggerCount.

(** ** The compositor *)

Lemma rdZ_in l i :
  0 <= i < Z.of_nat (length l) -> rdZ l i = Some (nthZ 0 l i).
Proof.
  intros Hi. unfold rdZ, nthZ. destruct (Z.ltb_spec i 0); [lia |].
  destruct (lookup_lt_is_Some_2 l (Z.to_nat i)) as [v Hv]; [lia |].
  rewrite Hv. f_equal. symmetry. by apply nth_lookup_Some.
Qed.

Lemma wrZ_in l i v :
  0 <= i < Z.of_nat (length l) -> wrZ l i v = Some (setZ l i v).
Proof.
  intros Hi. unfold wrZ, setZ.
  destruct (Z.leb_spec 0 i); [| lia]. destruct (Z.ltb_spec i (Z.of_nat (length l))); [| lia].
  destruct (Z.ltb_spec i 0); [lia | done].
Qed.

(** One turn of the walk merges one source pixel into one display pixel and
    leaves the other bytes of the display alone. *)
Lemma blendPixel_spec orv src y disp x :
  0 <= y -> y + 2 < Z.of_nat (length src) ->
  0 <= x -> x + 2 < Z.of_nat (length disp) ->
  exists disp1,
    blendPixel orv src y disp x = Some disp1 /\
    length disp1 = length disp /\
    forall b, nthZ 0 disp1 b
              = if (x <=? b) && (b <=? x + 2)
                then blend_byte orv src y (b - x) (nthZ 0 disp b)
                else nthZ 0 disp b.
Proof.
  intros Hy0 Hy Hx0 Hx. unfold blendPixel, blend_byte.
  repeat (rewrite rdZ_in by lia; cbn [mbind option_bind]).
  destruct orv.
  - repeat (rewrite rdZ_in by lia; cbn [mbind option_bind]).
    rewrite wrZ_in by lia. cbn [mbind option_bind].
    rewrite wrZ_in by (rewrite length_setZ; lia). cbn [mbind option_bind].
    rewrite wrZ_in by (rewrite !length_setZ; lia).
    eexists. split; [reflexivity |]. split; [by rewrite !length_setZ |].
    intros b.
    destruct (Z.leb_spec x b), (Z.leb_spec b (x + 2)); cbn [andb];
      try (rewrite !nthZ_setZ_ne by lia; done).
    destruct (decide (b = x)) as [-> | ?];
      [| destruct (decide (b = x + 1)) as [-> | ?];
         [| assert (b = x + 2) as -> by lia]].
    + rewrite !nthZ_setZ_ne by lia.
      rewrite nthZ_setZ_eq by lia. by rewrite Z.sub_diag, Z.add_0_r.
    + rewrite nthZ_setZ_ne by lia.
      rewrite nthZ_setZ_eq by (rewrite length_setZ; lia).
      by replace (x + 1 - x) with 1 by lia.
    + rewrite nthZ_setZ_eq by (rewrite !length_setZ; lia).
      by replace (x + 2 - x) with 2 by lia.
  - destruct ((nthZ 0 src y =? 0) && (nthZ 0 src (y + 1) =? 0)
              && (nthZ 0 src (y + 2) =? 0)) eqn:Hblack.
    + assert (negb (nthZ 0 src y =? 0) || negb (nthZ 0 src (y + 1) =? 0)
              || negb (nthZ 0 src (y + 2) =? 0) = false) as ->.
      { apply andb_prop in Hblack as [[H0 H1]%andb_prop H2].
        by rewrite H0, H1, H2. }
      eexists. split; [reflexivity |]. split; [done |].
      intros b. by destruct ((x <=? b) && (b <=? x + 2)).
    + assert (negb (nthZ 0 src y =? 0) || negb (nthZ 0 src (y + 1) =? 0)
              || negb (nthZ 0 src (y + 2) =? 0) = true) as ->.
      { destruct (nthZ 0 src y =? 0), (nthZ 0 src (y + 1) =? 0),
          (nthZ 0 src (y + 2) =? 0); done. }
      rewrite wrZ_in by lia. cbn [mbind option_bind].
      rewrite wrZ_in by (rewrite length_setZ; lia). cbn [mbind option_bind].
      rewrite wrZ_in by (rewrite !length_setZ; lia).
      eexists. split; [reflexivity |]. split; [by rewrite !length_setZ |].
      intros b.
      destruct (Z.leb_spec x b), (Z.leb_spec b (x + 2)); cbn [andb];
        try (rewrite !nthZ_setZ_ne by lia; done).
      destruct (decide (b = x)) as [-> | ?];
        [| destruct (decide (b = x + 1)) as [-> | ?];
           [| assert (b = x + 2) as -> by lia]].
      * rewrite !nthZ_setZ_ne by lia.
        rewrite nthZ_setZ_eq by lia. by rewrite Z.sub_diag, Z.add_0_r.
      * rewrite nthZ_setZ_ne by lia.
        rewrite nthZ_setZ_eq by (rewrite length_setZ; lia).
        by replace (x + 1 - x) with 1 by lia.
      * rewrite nthZ_setZ_eq by (rewrite !length_setZ; lia).
        by replace (x + 2 - x) with 2 by lia.
Qed.

Ltac zcmp :=
  unfold steps_up, wrap_once in *;
  repeat match goal with
    | |- context [?a >=? ?b] => rewrite (Z.geb_leb a b)
    | |- context [?a >? ?b] => rewrite (Z.gtb_ltb a b)
    | H : context [?a >=? ?b] |- _ => rewrite (Z.geb_leb a b) in H
    | H : context [?a >? ?b] |- _ => rewrite (Z.gtb_ltb a b) in H
    end;
  repeat match goal with
    | |- context [?a <=? ?b] => destruct (Z.leb_spec a b)
    | |- context [?a <? ?b] => destruct (Z.ltb_spec a b)
    | |- context [?a =? ?b] => destruct (Z.eqb_spec a b)
    | H : context [?a <=? ?b] |- _ => destruct (Z.leb_spec a b)
    | H : context [?a <? ?b] |- _ => destruct (Z.ltb_spec a b)
    | H : context [?a =? ?b] |- _ => destruct (Z.eqb_spec a b)
    end;
  cbn [andb orb negb] in *.

Lemma blend_at orv src y disp disp1 x pix d c :
  (forall b, nthZ 0 disp1 b
             = if (x <=? b) && (b <=? x + 2)
               then blend_byte orv src y (b - x) (nthZ 0 disp b)
               else nthZ 0 disp b) ->
  x = 3 * pix -> 0 <= c < 3 ->
  nthZ 0 disp1 (3 * d + c)
  = if d =? pix then blend_byte orv src y c (nthZ 0 disp (3 * d + c))
    else nthZ 0 disp (3 * d + c).
Proof.
  intros Hb -> Hc. rewrite Hb.
  destruct (Z.eqb_spec d pix) as [-> | Hne].
  - replace (3 * pix + c - 3 * pix) with c by lia.
    destruct (Z.leb_spec (3 * pix) (3 * pix + c)); [| lia].
    destruct (Z.leb_spec (3 * pix + c) (3 * pix + 2)); [done | lia].
  - destruct (Z.leb_spec (3 * pix) (3 * d + c)); [| done].
    destruct (Z.leb_spec (3 * d + c) (3 * pix + 2)); [lia | done].
Qed.

(** The walk upwards: from [pix] to [pixend], [m] steps further, the source
    going up from pixel [s]. *)
Lemma mergeLoop_up orv N src pixstart pixend :
  1 <= N <= 10922 -> 0 <= pixend < N ->
  forall (m : nat) fuel pix x s y disp,
    0 <= pix < N -> 0 <= s < N -> x = 3 * pix -> y = 3 * s ->
    steps_up N pix pixend = Z.of_nat m ->
    (m < fuel)%nat ->
    Z.of_nat (length disp) = 3 * N ->
    (forall k, 0 <= k <= Z.of_nat m ->
               3 * wrap_once N (s + k) + 2 < Z.of_nat (length src)) ->
    exists disp',
      mergeLoop fuel true orv (N - 1) pixstart pixend src pix x y disp
      = Some disp' /\
      length disp' = length disp /\
      forall d c, 0 <= d < N -> 0 <= c < 3 ->
        nthZ 0 disp' (3 * d + c) =
        if steps_up N pix d <=? Z.of_nat m
        then blend_byte orv src (3 * wrap_once N (s + steps_up N pix d)) c
               (nthZ 0 disp (3 * d + c))
        else nthZ 0 disp (3 * d + c).
Proof.
  intros HN Hend. induction m as [| m IH];
    intros fuel pix x s y disp Hpix Hs -> -> Hm Hfuel Hlen Hsrc;
    (destruct fuel as [| fuel]; [lia |]); cbn [mergeLoop];
    (destruct (blendPixel_spec orv src (3 * s) disp (3 * pix))
      as (disp1 & -> & Hl1 & Hb1);
     [lia | specialize (Hsrc 0); unfold wrap_once in Hsrc;
            rewrite Z.add_0_r in Hsrc;
            destruct (s >=? N) eqn:E; lia | lia | lia |]);
    cbn [mbind option_bind].
  - assert (pix = pixend) as -> by (zcmp; lia). rewrite Z.eqb_refl.
    exists disp1. split_and!; [done | done |]. intros d c Hd Hc.
    rewrite (blend_at _ _ _ _ _ _ pixend d c Hb1 eq_refl Hc).
    destruct (Z.eqb_spec d pixend) as [-> | Hd'].
    + replace (steps_up N pixend pixend) with 0 by (zcmp; lia).
      replace (wrap_once N (s + 0)) with s by (zcmp; lia). done.
    + by replace (steps_up N pixend d <=? Z.of_nat 0) with false
        by (symmetry; clear Hb1 Hsrc; zcmp; lia).
  - destruct (Z.eqb_spec pix pixend) as [-> | Hne].
    { unfold steps_up in Hm. rewrite Z.leb_refl in Hm. lia. }
    set (pix' := if pix >=? N - 1 then 0 else pix + 1).
    set (s' := if s >=? N - 1 then 0 else s + 1).
    destruct (IH fuel pix' (3 * pix') s' (3 * s') disp1)
      as (disp' & Hrun & Hl' & Hb').
    { subst pix'. zcmp; lia. }
    { subst s'. zcmp; lia. }
    { done. } { done. }
    { subst pix'. zcmp; lia. }
    { lia. }
    { lia. }
    { intros k Hk. specialize (Hsrc (k + 1)).
      subst s'. zcmp; try lia.
      all: try (replace (s + (k + 1) - N) with (0 + k) in Hsrc by lia; lia).
      all: try (replace (s + (k + 1)) with (s + 1 + k) in Hsrc by lia; lia).
      all: try (replace (s + (k + 1) - N) with (s + 1 + k - N) in Hsrc by lia;
                lia). }
    exists disp'. split_and!.
    + rewrite <- Hrun. subst pix' s'.
      destruct (pix >=? N - 1) eqn:E1.
      * destruct (3 * s >=? (N - 1) * 3) eqn:E2.
        -- replace (s >=? N - 1) with true by (symmetry; zcmp; lia). done.
        -- replace (s >=? N - 1) with false by (symmetry; zcmp; lia).
           rewrite to_short_small by lia. f_equal; lia.
      * rewrite !to_short_small by (zcmp; lia).
        destruct (3 * s >=? (N - 1) * 3) eqn:E2.
        -- replace (s >=? N - 1) with true by (symmetry; zcmp; lia).
           f_equal; lia.
        -- replace (s >=? N - 1) with false by (symmetry; zcmp; lia).
           f_equal; lia.
    + congruence.
    + intros d c Hd Hc. rewrite (Hb' d c Hd Hc).
      rewrite (blend_at _ _ _ _ _ _ pix d c Hb1 eq_refl Hc).
      destruct (Z.eqb_spec d pix) as [-> | Hd'].
      * replace (steps_up N pix' pix <=? Z.of_nat m) with false
          by (symmetry; subst pix'; zcmp; lia).
        replace (steps_up N pix pix) with 0 by (zcmp; lia).
        replace (0 <=? Z.of_nat (S m)) with true by (symmetry; zcmp; lia).
        replace (wrap_once N (s + 0)) with s by (zcmp; lia). done.
      * assert (steps_up N pix d = steps_up N pix' d + 1) as Hst
          by (subst pix'; zcmp; lia).
        assert (0 <= steps_up N pix' d < N) as Hrange
          by (subst pix'; zcmp; lia).
        rewrite Hst.
        replace (steps_up N pix' d + 1 <=? Z.of_nat (S m))
          with (steps_up N pix' d <=? Z.of_nat m)
          by (destruct (Z.leb_spec (steps_up N pix' d) (Z.of_nat m)),
                (Z.leb_spec (steps_up N pix' d + 1) (Z.of_nat (S m))); lia).
        replace (wrap_once N (s' + steps_up N pix' d))
          with (wrap_once N (s + (steps_up N pix' d + 1))); [done |].
        generalize dependent (steps_up N pix' d). intros t _ Ht.
        subst s'. zcmp; lia.
Qed.

(** The walk downwards: from [pix] to [pixstart], [m] steps further, the
    source still going up from pixel [s]. *)
Lemma mergeLoop_down orv N src pixstart pixend :
  1 <= N <= 10922 -> 0 <= pixstart < N ->
  forall (m : nat) fuel pix x s y disp,
    0 <= pix < N -> 0 <= s < N -> x = 3 * pix -> y = 3 * s ->
    steps_up N pixstart pix = Z.of_nat m ->
    (m < fuel)%nat ->
    Z.of_nat (length disp) = 3 * N ->
    (forall k, 0 <= k <= Z.of_nat m ->
               3 * wrap_once N (s + k) + 2 < Z.of_nat (length src)) ->
    exists disp',
      mergeLoop fuel false orv (N - 1) pixstart pixend src pix x y disp
      = Some disp' /\
      length disp' = length disp /\
      forall d c, 0 <= d < N -> 0 <= c < 3 ->
        nthZ 0 disp' (3 * d + c) =
        if steps_up N d pix <=? Z.of_nat m
        then blend_byte orv src (3 * wrap_once N (s + steps_up N d pix)) c
               (nthZ 0 disp (3 * d + c))
        else nthZ 0 disp (3 * d + c).
Proof.
  intros HN Hstart. induction m as [| m IH];
    intros fuel pix x s y disp Hpix Hs -> -> Hm Hfuel Hlen Hsrc;
    (destruct fuel as [| fuel]; [lia |]); cbn [mergeLoop];
    (destruct (blendPixel_spec orv src (3 * s) disp (3 * pix))
      as (disp1 & -> & Hl1 & Hb1);
     [lia | specialize (Hsrc 0); unfold wrap_once in Hsrc;
            rewrite Z.add_0_r in Hsrc;
            destruct (s >=? N) eqn:E; lia | lia | lia |]);
    cbn [mbind option_bind].
  - assert (pix = pixstart) as -> by (zcmp; lia). rewrite Z.eqb_refl.
    exists disp1. split_and!; [done | done |]. intros d c Hd Hc.
    rewrite (blend_at _ _ _ _ _ _ pixstart d c Hb1 eq_refl Hc).
    destruct (Z.eqb_spec d pixstart) as [-> | Hd'].
    + replace (steps_up N pixstart pixstart) with 0 by (zcmp; lia).
      replace (wrap_once N (s + 0)) with s by (zcmp; lia). done.
    + by replace (steps_up N d pixstart <=? Z.of_nat 0) with false
        by (symmetry; clear Hb1 Hsrc; zcmp; lia).
  - destruct (Z.eqb_spec pix pixstart) as [-> | Hne].
    { unfold steps_up in Hm. rewrite Z.leb_refl in Hm. lia. }
    set (pix' := if pix <=? 0 then N - 1 else pix - 1).
    set (s' := if s >=? N - 1 then 0 else s + 1).
    destruct (IH fuel pix' (3 * pix') s' (3 * s') disp1)
      as (disp' & Hrun & Hl' & Hb').
    { subst pix'. zcmp; lia. }
    { subst s'. zcmp; lia. }
    { done. } { done. }
    { subst pix'. zcmp; lia. }
    { lia. }
    { lia. }
    { intros k Hk. specialize (Hsrc (k + 1)).
      subst s'. zcmp; try lia.
      all: try (replace (s + (k + 1) - N) with (0 + k) in Hsrc by lia; lia).
      all: try (replace (s + (k + 1)) with (s + 1 + k) in Hsrc by lia; lia).
      all: try (replace (s + (k + 1) - N) with (s + 1 + k - N) in Hsrc by lia;
                lia). }
    exists disp'. split_and!.
    + rewrite <- Hrun. subst pix' s'.
      destruct (pix <=? 0) eqn:E1.
      * rewrite !to_short_small by lia.
        destruct (3 * s >=? (N - 1) * 3) eqn:E2.
        -- replace (s >=? N - 1) with true by (symmetry; zcmp; lia).
           f_equal; lia.
        -- replace (s >=? N - 1) with false by (symmetry; zcmp; lia).
           f_equal; lia.
      * rewrite !to_short_small by (zcmp; lia).
        destruct (3 * s >=? (N - 1) * 3) eqn:E2.
        -- replace (s >=? N - 1) with true by (symmetry; zcmp; lia).
           f_equal; lia.
        -- replace (s >=? N - 1) with false by (symmetry; zcmp; lia).
           f_equal; lia.
    + congruence.
    + intros d c Hd Hc. rewrite (Hb' d c Hd Hc).
      rewrite (blend_at _ _ _ _ _ _ pix d c Hb1 eq_refl Hc).
      destruct (Z.eqb_spec d pix) as [-> | Hd'].
      * replace (steps_up N pix pix' <=? Z.of_nat m) with false
          by (symmetry; subst pix'; zcmp; lia).
        replace (steps_up N pix pix) with 0 by (zcmp; lia).
        replace (0 <=? Z.of_nat (S m)) with true by (symmetry; zcmp; lia).
        replace (wrap_once N (s + 0)) with s by (zcmp; lia). done.
      * assert (steps_up N d pix = steps_up N d pix' + 1) as Hst
          by (subst pix'; zcmp; lia).
        assert (0 <= steps_up N d pix' < N) as Hrange
          by (subst pix'; zcmp; lia).
        rewrite Hst.
        replace (steps_up N d pix' + 1 <=? Z.of_nat (S m))
          with (steps_up N d pix' <=? Z.of_nat m)
          by (destruct (Z.leb_spec (steps_up N d pix') (Z.of_nat m)),
                (Z.leb_spec (steps_up N d pix' + 1) (Z.of_nat (S m))); lia).
        replace (wrap_once N (s' + steps_up N d pix'))
          with (wrap_once N (s + (steps_up N d pix' + 1))); [done |].
        generalize dependent (steps_up N d pix'). intros t _ Ht.
        subst s'. zcmp; lia.
Qed.

Section Compositor.
Context {P : Type} {Plug : PixelNutPlugin P}.
Implicit Types (e : PixelNutEngine P).

(** Merging one track: a track whose layer is not a redraw effect is skipped;
    otherwise each display pixel of the window gets its source pixel blended
    in, and every other byte of the display stays. *)
Lemma mergeTrack_spec e i disp :
  1 <= numPixels e <= 10922 ->
  Z.of_nat (length disp) = 3 * numPixels e ->
  (track_redrawn e i = true ->
   track_ready (numPixels e) (trackAt e i) = true) ->
  exists disp',
    mergeTrack e i disp = Some disp' /\
    length disp' = length disp /\
    forall d c, 0 <= d < numPixels e -> 0 <= c < 3 ->
      nthZ 0 disp' (3 * d + c) =
      if track_redrawn e i
      then merged_byte (numPixels e) (trackAt e i) d c (nthZ 0 disp (3 * d + c))
      else nthZ 0 disp (3 * d + c).
Proof.
  intros HN Hlen Hready. unfold mergeTrack, track_redrawn in *.
  set (N := numPixels e) in *. set (k := trackAt e i) in *.
  destruct (isRedraw _); cbn [negb]; [| by exists disp].
  specialize (Hready eq_refl). unfold track_ready in Hready.
  unfold merged_byte, window_source, pix_end_abs, pix_start_abs.
  set (dr := PluginTrack.draw k) in *.
  destruct (PluginTrack.pRedrawBuff k) as [src |];
    [| by rewrite andb_false_r in Hready].
  cbn [mbind option_bind].
  repeat match type of Hready with
         | _ && _ = true => apply andb_prop in Hready as [Hready ?]
         end.
  assert (0 <= PluginTrack.segOffset k < N) as Hoff by lia.
  assert (0 <= DrawProps.pixStart dr < N) as Hps by lia.
  assert (1 <= DrawProps.pixLen dr <= N) as Hpl by lia.
  assert (forall j, 0 <= j < DrawProps.pixLen dr ->
            3 * wrap_once N (DrawProps.pixStart dr + j) + 2
            < Z.of_nat (length src)) as Hsrc.
  { intros j Hj. match goal with H : _ || _ = true |- _ =>
      apply orb_prop in H as [[? ?]%andb_prop | ?] end;
      unfold wrap_once; destruct (Z.geb_spec (DrawProps.pixStart dr + j) N);
      lia. }
  clear Hready.
  rewrite (to_short_small (N - 1)) by lia.
  rewrite (to_short_small (PluginTrack.segOffset k + DrawProps.pixStart dr))
    by lia.
  set (a := wrap_once N (PluginTrack.segOffset k + DrawProps.pixStart dr)).
  assert ((if PluginTrack.segOffset k + DrawProps.pixStart dr >? N - 1
           then to_short (PluginTrack.segOffset k + DrawProps.pixStart dr
                          - (N - 1 + 1))
           else PluginTrack.segOffset k + DrawProps.pixStart dr) = a) as ->.
  { subst a. unfold wrap_once.
    destruct (Z.gtb_spec (PluginTrack.segOffset k + DrawProps.pixStart dr)
                (N - 1)),
      (Z.geb_spec (PluginTrack.segOffset k + DrawProps.pixStart dr) N);
      try lia.
    rewrite to_short_small by lia. lia. }
  assert (0 <= a < N) as Ha.
  { subst a. unfold wrap_once.
    destruct (Z.geb_spec (PluginTrack.segOffset k + DrawProps.pixStart dr) N);
      lia. }
  clearbody a.
  rewrite (to_short_small (a + DrawProps.pixLen dr - 1)) by lia.
  set (b := wrap_once N (a + DrawProps.pixLen dr - 1)).
  assert ((if a + DrawProps.pixLen dr - 1 >? N - 1
           then to_short (a + DrawProps.pixLen dr - 1 - (N - 1 + 1))
           else a + DrawProps.pixLen dr - 1) = b) as ->.
  { subst b. unfold wrap_once.
    destruct (Z.gtb_spec (a + DrawProps.pixLen dr - 1) (N - 1)),
      (Z.geb_spec (a + DrawProps.pixLen dr - 1) N); try lia.
    rewrite to_short_small by lia. lia. }
  assert (0 <= b < N /\ steps_up N a b = DrawProps.pixLen dr - 1) as [Hb Hab].
  { subst b. unfold wrap_once, steps_up.
    destruct (Z.geb_spec (a + DrawProps.pixLen dr - 1) N);
      match goal with |- context [?u <=? ?v] => destruct (Z.leb_spec u v) end;
      lia. }
  clearbody b.
  assert (steps_up N a b = Z.of_nat (Z.to_nat (DrawProps.pixLen dr - 1)))
    as Hm by lia.
  assert (forall j, 0 <= j <= Z.of_nat (Z.to_nat (DrawProps.pixLen dr - 1)) ->
            3 * wrap_once N (DrawProps.pixStart dr + j) + 2
            < Z.of_nat (length src)) as Hsrc'
    by (intros j Hj; apply Hsrc; lia).
  assert (forall t, (t <=? Z.of_nat (Z.to_nat (DrawProps.pixLen dr - 1)))
                    = (t <? DrawProps.pixLen dr)) as Hcmp.
  { intros t.
    destruct (Z.leb_spec t (Z.of_nat (Z.to_nat (DrawProps.pixLen dr - 1)))),
      (Z.ltb_spec t (DrawProps.pixLen dr)); lia. }
  destruct (DrawProps.goUpwards dr).
  - destruct (mergeLoop_up (DrawProps.orPixelValues dr) N src a b HN Hb
                (Z.to_nat (DrawProps.pixLen dr - 1)) (S (Z.to_nat N))
                a (to_short (a * 3)) (DrawProps.pixStart dr)
                (to_short (DrawProps.pixStart dr * 3)) disp)
      as (disp' & Hrun & Hl' & Hb'); try done; try lia.
    { rewrite to_short_small by lia. lia. }
    { rewrite to_short_small by lia. lia. }
    exists disp'. split_and!; [done | done |].
    intros d c Hd Hc. rewrite (Hb' d c Hd Hc), Hcmp.
    by destruct (steps_up N a d <? DrawProps.pixLen dr).
  - destruct (mergeLoop_down (DrawProps.orPixelValues dr) N src a b HN Ha
                (Z.to_nat (DrawProps.pixLen dr - 1)) (S (Z.to_nat N))
                b (to_short (b * 3)) (DrawProps.pixStart dr)
                (to_short (DrawProps.pixStart dr * 3)) disp)
      as (disp' & Hrun & Hl' & Hb'); try done; try lia.
    { rewrite to_short_small by lia. lia. }
    { rewrite to_short_small by lia. lia. }
    exists disp'. split_and!; [done | done |].
    intros d c Hd Hc. rewrite (Hb' d c Hd Hc), Hcmp.
    by destruct (steps_up N d b <? DrawProps.pixLen dr).
Qed.

Lemma memset0_all l n :
  Z.of_nat (length l) = n ->
  length (memset0 l n) = length l /\ forall b, nthZ 0 (memset0 l n) b = 0.
Proof.
  intros Hn. unfold memset0.
  replace (Z.to_nat n) with (length l) by lia.
  rewrite Nat.min_id, drop_all, app_nil_r. split.
  - by rewrite length_replicate.
  - intros b. unfold nthZ. destruct (b <? 0); [done |].
    generalize (Z.to_nat b). clear Hn. induction (length l) as [| m IH];
      intros [| j]; cbn; [done | done | done | apply IH].
Qed.

(** The tracks the loop over the track stack reaches, in the order it
    reaches them: those from [a] up to the top of the stack or the top
    enabled track, whichever is lower, that are redrawn. *)
Lemma mergeTracks_spec e (n : nat) :
  1 <= numPixels e <= 10922 ->
  forall a disp,
    Z.of_nat (length disp) = 3 * numPixels e ->
    (forall i, a <= i < a + Z.of_nat n -> i <= indexTrackEnable e ->
               track_redrawn e i = true ->
               track_ready (numPixels e) (trackAt e i) = true) ->
    exists disp',
      mergeTracks e (seqZ a (Z.of_nat n)) disp = Some disp' /\
      length disp' = length disp /\
      forall d c, 0 <= d < numPixels e -> 0 <= c < 3 ->
        nthZ 0 disp' (3 * d + c) =
        foldl (fun acc i => merged_byte (numPixels e) (trackAt e i) d c acc)
              (nthZ 0 disp (3 * d + c))
              (List.filter (track_redrawn e)
                 (seqZ a (Z.min (a + Z.of_nat n) (indexTrackEnable e + 1) - a))).
Proof.
  intros HN. induction n as [| n IH]; intros a disp Hlen Hready.
  - exists disp. split_and!; [done | done |]. intros d c _ _.
    replace (seqZ a _) with (@nil Z); [done |].
    unfold seqZ. by replace (Z.to_nat _) with 0%nat by lia.
  - rewrite seqZ_cons by lia.
    replace (Z.pred (Z.of_nat (S n))) with (Z.of_nat n) by lia.
    cbn [mergeTracks].
    destruct (Z.gtb_spec a (indexTrackEnable e)) as [Hgt | Hle].
    + exists disp. split_and!; [done | done |]. intros d c _ _.
      replace (seqZ a _) with (@nil Z); [done |].
      unfold seqZ. by replace (Z.to_nat _) with 0%nat by lia.
    + destruct (mergeTrack_spec e a disp HN Hlen)
        as (disp1 & -> & Hl1 & Hb1).
      { intros Hr. apply Hready; [lia | lia | done]. }
      cbn [mbind option_bind].
      destruct (IH (Z.succ a) disp1) as (disp' & -> & Hl' & Hb').
      { lia. }
      { intros i Hi. apply Hready. lia. }
      exists disp'. split_and!; [done | congruence |].
      intros d c Hd Hc. rewrite (Hb' d c Hd Hc), (Hb1 d c Hd Hc).
      rewrite (seqZ_cons a) by lia. cbn [List.filter].
      replace (Z.pred (Z.min (a + Z.of_nat (S n)) (indexTrackEnable e + 1) - a))
        with (Z.min (Z.succ a + Z.of_nat n) (indexTrackEnable e + 1) - Z.succ a)
        by lia.
      by destruct (track_redrawn e a).
Qed.

Lemma mergeBuffers_spec e :
  compositor_ready e = true ->
  exists disp',
    mergeBuffers e = Some disp' /\
    length disp' = length (pDisplayPixels e) /\
    forall d c, 0 <= d < numPixels e -> 0 <= c < 3 ->
      nthZ 0 disp' (3 * d + c) =
      foldl (fun acc i => merged_byte (numPixels e) (trackAt e i) d c acc)
            0 (contributing e).
Proof.
  unfold compositor_ready. intros Hready.
  apply andb_prop in Hready as [[[H1 H2]%andb_prop H3]%andb_prop Hall].
  assert (1 <= numPixels e <= 10922) as HN by lia.
  assert (Z.of_nat (length (pDisplayPixels e)) = numPixels e * 3) as Hlen by lia.
  destruct (memset0_all _ _ Hlen) as [Hl0 Hz].
  rewrite forallb_forall in Hall.
  unfold mergeBuffers.
  destruct (Z.le_gt_cases 0 (indexTrackStack e + 1)) as [Hpos | Hneg].
  - destruct (mergeTracks_spec e (Z.to_nat (indexTrackStack e + 1)) HN 0
                (memset0 (pDisplayPixels e) (numPixels e * 3)))
      as (disp' & Hrun & Hl' & Hb').
    { lia. }
    { intros i Hi Hen Hr. apply Hall. unfold contributing.
      apply filter_In. split; [| done].
      apply list_elem_of_In, elem_of_seqZ. lia. }
    rewrite Z2Nat.id in Hrun by done.
    exists disp'. split_and!; [done | congruence |].
    intros d c Hd Hc. rewrite (Hb' d c Hd Hc), Hz. unfold contributing.
    rewrite Z2Nat.id by done.
    by replace (Z.min (0 + (indexTrackStack e + 1)) (indexTrackEnable e + 1) - 0)
      with (Z.min (indexTrackStack e) (indexTrackEnable e) + 1) by lia.
  - exists (memset0 (pDisplayPixels e) (numPixels e * 3)).
    assert (forall m, m <= 0 -> seqZ 0 m = []) as Hnil.
    { intros m Hm. unfold seqZ. by replace (Z.to_nat m) with 0%nat by lia. }
    rewrite Hnil by lia. split_and!; [done | done |].
    intros d c _ _. rewrite Hz. unfold contributing. by rewrite Hnil by lia.
Qed.

(** Where every contributing track ORs, a fold of blends is a fold of ORs. *)
Lemma foldl_or_tracks e d c (l : list Z) acc :
  (forall i, In i l ->
     DrawProps.orPixelValues (PluginTrack.draw (trackAt e i)) = true) ->
  foldl (fun acc i => merged_byte (numPixels e) (trackAt e i) d c acc) acc l
  = foldl (fun acc i => Z.lor acc (source_byte (numPixels e) (trackAt e i) d c))
          acc l.
Proof.
  revert acc. induction l as [| i l IH]; intros acc Hor; [done |].
  cbn [foldl]. rewrite <- IH by (intros j Hj; apply Hor; by right).
  f_equal. unfold merged_byte, source_byte, blend_byte.
  rewrite (Hor i) by (by left).
  destruct (PluginTrack.pRedrawBuff _); [| by rewrite Z.lor_0_r].
  destruct (window_source _ _ _) as [s |]; [| by rewrite Z.lor_0_r].
  done.
Qed.

End Compositor.

Section CompositorBlending.
Context {P : Type} {Plug : PixelNutPlugin P}.
Implicit Types (e : PixelNutEngine P).

(** Under overwrite blending a black source pixel is skipped: the display
    pixel it would land on keeps its three bytes. *)
Lemma merged_byte_black n (k : PluginTrack.t) d c old src s :
  DrawProps.orPixelValues (PluginTrack.draw k) = false ->
  PluginTrack.pRedrawBuff k = Some src ->
  window_source n k d = Some s ->
  nthZ 0 src (3 * s) = 0 -> nthZ 0 src (3 * s + 1) = 0 ->
  nthZ 0 src (3 * s + 2) = 0 ->
  merged_byte n k d c old = old.
Proof.
  intros Hor Hsrc Hw H0 H1 H2. unfold merged_byte, blend_byte.
  by rewrite Hsrc, Hw, Hor, H0, H1, H2.
Qed.

Lemma contributing_ready e i :
  compositor_ready e = true -> In i (contributing e) ->
  track_redrawn e i = true /\
  track_ready (numPixels e) (trackAt e i) = true.
Proof.
  unfold compositor_ready. intros [_ Hall]%andb_prop Hin.
  rewrite forallb_forall in Hall. split; [| by apply Hall].
  unfold contributing in Hin. by apply filter_In in Hin as [_ ?].
Qed.

(** On an engine the compositor can run on, merging the buffers succeeds
    and keeps the size of the display. When every contributing track has
    orPixelValues set, each byte of each display pixel is the OR, starting
    from zero (the display is cleared first), of the bytes that the
    contributing tracks put on that pixel: the byte of the source pixel
    behind it where the track's window covers it, and 0 elsewhere. And
    merging a contributing track that overwrites leaves the three bytes of a
    display pixel as they were wherever the source pixel behind it is
    black. *)
Lemma mergeBuffers_or_blend_and_black e :
  compositor_ready e = true ->
  (exists disp',
     mergeBuffers e = Some disp' /\
     length disp' = length (pDisplayPixels e) /\
     ((forall i, In i (contributing e) ->
         DrawProps.orPixelValues (PluginTrack.draw (trackAt e i)) = true) ->
      forall d c, 0 <= d < numPixels e -> 0 <= c < 3 ->
        nthZ 0 disp' (3 * d + c) =
        foldl (fun acc i =>
                 Z.lor acc (source_byte (numPixels e) (trackAt e i) d c))
              0 (contributing e)))
  /\
  (forall i disp,
     In i (contributing e) ->
     DrawProps.orPixelValues (PluginTrack.draw (trackAt e i)) = false ->
     Z.of_nat (length disp) = 3 * numPixels e ->
     exists disp',
       mergeTrack e i disp = Some disp' /\
       forall d s src,
         0 <= d < numPixels e ->
         PluginTrack.pRedrawBuff (trackAt e i) = Some src ->
         window_source (numPixels e) (trackAt e i) d = Some s ->
         nthZ 0 src (3 * s) = 0 -> nthZ 0 src (3 * s + 1) = 0 ->
         nthZ 0 src (3 * s + 2) = 0 ->
         forall c, 0 <= c < 3 ->
           nthZ 0 disp' (3 * d + c) = nthZ 0 disp (3 * d + c)).
Proof.
  intros Hready. split.
  - destruct (mergeBuffers_spec e Hready) as (disp' & Hrun & Hlen & Hb).
    exists disp'. split_and!; [done | done |].
    intros Hor d c Hd Hc. rewrite (Hb d c Hd Hc).
    by apply foldl_or_tracks.
  - intros i disp Hin Hor Hlen.
    destruct (contributing_ready e i Hready Hin) as [Hr Hrdy].
    assert (1 <= numPixels e <= 10922) as HN.
    { unfold compositor_ready in Hready.
      apply andb_prop in Hready as [[[H1 H2]%andb_prop _]%andb_prop _]. lia. }
    destruct (mergeTrack_spec e i disp HN Hlen (fun _ => Hrdy))
      as (disp' & Hrun & _ & Hb).
    exists disp'. split; [done |].
    intros d s src Hd Hsrc Hw H0 H1 H2 c Hc.
    rewrite (Hb d c Hd Hc), Hr.
    by apply (merged_byte_black _ _ _ _ _ src s).
Qed.

End CompositorBlending.

(** ** The scenarios *)

Local Open Scope string_scope.

Local Ltac run :=
  vm_compute; repeat split; first [reflexivity | discriminate].

(** C1. clearStack does not destroy every layer's plugin, and does not run
    the destructors in reverse order of creation. On the stack of three
    layers (plugins at addresses 0, 2 and 3, created in that order) it frees
    the buffer of track 1, deletes the plugin at 0 and then the one at 2, and
    frees the buffer of track 0: the plugin of the top layer, at 3, is never
    deleted. On a stack of one layer the P command deletes no plugin at all.
    The tops, the segment and the display are reset as described. *)
Theorem clearStack_leaves_top_layer_plugin :
  map (fun L => option_map addr (pPlugin L)) (take 3 (pluginLayers three_layers))
  = [Some 0%nat; Some 2%nat; Some 3%nat] /\
  indexLayerStack three_layers = 2 /\
  events (clearStack three_layers)
  = ([EvFree 0; EvDelete 2; EvDelete 0; EvFree 1] ++ events three_layers)%list /\
  events (runCmds (Sup := Plat10) ["E0"; "P"] strip10)
  = [EvFree 0; EvBegin 0 0 10; EvNew 0 0] /\
  dims (clearStack three_layers)
  = (-1, -1, -1, 0, 10, 4, 3, 4%nat, 3%nat) /\
  (segOffset (clearStack three_layers), segCount (clearStack three_layers))
  = (0, 10) /\
  pDisplayPixels (clearStack three_layers) = replicate 30 0.
Proof. vm_compute. by split_and!. Qed.

Lemma NewPluginLayer_failure_atomic_witness :
  let r := NewPluginLayer (Sup := NoMem) 0 0 strip10 in
  r.1 = Status_Error_Memory /\
  same_stack strip10 r.2 /\
  events r.2
  = EvDelete (calls strip10)
    :: EvBegin (calls strip10) (to_byte (indexLayerStack strip10 + 1))
               (segCount strip10)
    :: EvNew (calls strip10) 0 :: events strip10.
Proof.
  intros r.
  destruct (NewPluginLayer_failure_atomic (Sup := NoMem) 0 0 strip10)
    as (_ & _ & H & _).
  destruct (H PNP_DrawAll) as (_ & _ & Hm); [run | run |].
  apply Hm; run.
Defined.

(** C3. The compositor does not always produce the OR of the tracks'
    redraw-buffer bytes: it can walk out of a redraw buffer. Where every
    contributing track has its window inside its buffer ([compositor_ready])
    the claim holds: the display is cleared, then with OR blending each byte
    of each display pixel is the OR of the bytes the contributing tracks put
    on it, and under overwrite blending a black source pixel leaves the
    display pixel as it was. But after "Y5 E0 K100 T G" on the strip of 10
    pixels the one track has a buffer of 15 bytes (its segment is 5 pixels
    long) and a window of 10 pixels (K maps its percentage over the whole
    strip): display pixel 5 is to take source pixel 5, whose bytes lie
    beyond the end of the buffer, so the walk of the compositor leaves the
    buffer ([None]) and updateEffects with it. *)
Theorem compositor_walks_out_of_short_buffer :
  (forall P (Plug : PixelNutPlugin P) (e : PixelNutEngine P),
     compositor_ready e = true ->
     (exists disp',
        mergeBuffers e = Some disp' /\
        length disp' = length (pDisplayPixels e) /\
        ((forall i, In i (contributing e) ->
            DrawProps.orPixelValues (PluginTrack.draw (trackAt e i)) = true) ->
         forall d c, 0 <= d < numPixels e -> 0 <= c < 3 ->
           nthZ 0 disp' (3 * d + c) =
           foldl (fun acc i =>
                    Z.lor acc (source_byte (numPixels e) (trackAt e i) d c))
                 0 (contributing e)))
     /\
     (forall i disp,
        In i (contributing e) ->
        DrawProps.orPixelValues (PluginTrack.draw (trackAt e i)) = false ->
        Z.of_nat (length disp) = 3 * numPixels e ->
        exists disp',
          mergeTrack e i disp = Some disp' /\
          forall d s src,
            0 <= d < numPixels e ->
            PluginTrack.pRedrawBuff (trackAt e i) = Some src ->
            window_source (numPixels e) (trackAt e i) d = Some s ->
            nthZ 0 src (3 * s) = 0 -> nthZ 0 src (3 * s + 1) = 0 ->
            nthZ 0 src (3 * s + 2) = 0 ->
            forall c, 0 <= c < 3 ->
              nthZ 0 disp' (3 * d + c) = nthZ 0 disp (3 * d + c)))
  /\
  (let k := trackAt short_segment 0 in
   indexTrackEnable short_segment = 0 /\
   contributing short_segment = [0] /\
   PluginTrack.segCount k = 5 /\
   PluginTrack.pRedrawBuff k = Some (replicate 15 0) /\
   DrawProps.pixStart (PluginTrack.draw k) = 0 /\
   DrawProps.pixLen (PluginTrack.draw k) = 10 /\
   DrawProps.orPixelValues (PluginTrack.draw k) = true /\
   window_source (numPixels short_segment) k 5 = Some 5 /\
   rdZ (replicate 15 0) (3 * 5) = None /\
   compositor_ready short_segment = false /\
   mergeBuffers short_segment = None /\
   updateEffects (Sup := Plat10) short_segment = None).
Proof.
  split.
  - intros P Plug e. apply mergeBuffers_or_blend_and_black.
  - vm_compute. by split_and!.
Qed.

Lemma compositor_or_blend_witness :
  compositor_ready two_tracks = true /\
  exists disp',
    mergeBuffers two_tracks = Some disp' /\
    length disp' = length (pDisplayPixels two_tracks).
Proof.
  assert (compositor_ready two_tracks = true) as Hready by run.
  split; [exact Hready |].
  destruct (proj1 compositor_walks_out_of_short_buffer _ _ two_tracks Hready)
    as [(disp' & Hrun & Hlen & _) _].
  exists disp'. split; [exact Hrun | exact Hlen].
Defined.





(** C6. The C command can leave pixCount above the track's own segment
    length: a track made on a segment of 5 pixels, then, with the staged
    segment back at the whole strip of 10, "C100" gives it a pixCount of
    10. *)
Theorem C_command_exceeds_track_segment :
  let e := runCmds (Sup := Plat10) ["Y5 E0 Y C100"] strip10 in
  indexTrackStack e = 0 /\
  PluginTrack.segCount (trackAt e 0) = 5 /\
  segCount e = 10 /\
  DrawProps.pixCount (PluginTrack.draw (trackAt e 0)) = 10.
Proof. vm_compute. by split_and!. Qed.

(** J and K are among the commands of C7, and without an argument they do
    not keep the property: a window that starts at pixel 4 and is 5 pixels
    long starts at 0 after "J" and is 1 pixel long after "K". *)
Lemma J_K_without_argument_reset :
  let e := runCmds (Sup := Plat10) ["E0 J50 K50"] strip10 in
  (DrawProps.pixStart (pdraw e), DrawProps.pixLen (pdraw e)) = (4, 5) /\
  DrawProps.pixStart (pdraw (execCmdStr (Sup := Plat10) "J" e).2) = 0 /\
  DrawProps.pixLen (pdraw (execCmdStr (Sup := Plat10) "K" e).2) = 1.
Proof. vm_compute. by split_and!. Qed.

Lemma clipped_commands_witness :
  let e := runCmds (Sup := Plat10) ["E0 J50 K50 H120 W30 B40 D7"] strip10 in
  DrawProps.degreeHue (pdraw (execCmdStr (Sup := Plat10) "H" e).2)
  = DrawProps.degreeHue (pdraw e) /\
  DrawProps.pixStart (pdraw (execCmdStr (Sup := Plat10) "J" e).2) = 0 /\
  DrawProps.pixLen (pdraw (execCmdStr (Sup := Plat10) "K" e).2) = 1.
Proof.
  intros e.
  assert (0 <= indexTrackStack e < Z.of_nat (length (pluginTracks e))) as H1
    by (vm_compute; split; [discriminate | reflexivity]).
  assert (no_space "" = true) as H2 by run.
  assert (isdigit (deref "") = false) as H3 by run.
  destruct (clipped_commands_without_argument (Sup := Plat10) e ""
              H1 H2 H3) as ([_ HH] & _ & _ & _ & [_ HJ] & [_ HK]).
  split; [exact HH | split; [exact HJ | exact HK]].
Defined.

(** The segment index of C8 does not persist between calls: two "Y3" in one
    call and "E0" in the next give the track segment index 0, while the same
    commands in one call give it 1. *)
Lemma segindex_forgotten_between_calls :
  PluginTrack.segIndex
    (trackAt (runCmds (Sup := Plat10) ["Y3 Y3"; "E0"] strip10) 0) = 0 /\
  PluginTrack.segIndex
    (trackAt (runCmds (Sup := Plat10) ["Y3 Y3 E0"] strip10) 0) = 1.
Proof. vm_compute. by split. Qed.

Lemma segindex_is_local_witness :
  let e := runCmds (Sup := Plat10) ["Y3 Y3"] strip10 in
  PluginTrack.segIndex
    (trackAt (execCmdStr (Sup := Plat10) "E0" e).2
             (indexTrackStack (execCmdStr (Sup := Plat10) "E0" e).2)) = 0.
Proof.
  intros e.
  destruct (segindex_is_local_to_one_call (Sup := Plat10) e "0") as (H & _ & _).
  apply (H (execCmdStr (Sup := Plat10) "E0" e).2).
  - run.
  - run.
  - run.
  - vm_compute. split; [discriminate | reflexivity].
Defined.



Lemma triggerForce_255_witness :
  exists evs,
    events (triggerForceLayer (Sup := Plat10) 255 100 two_tracks)
    = (evs ++ events two_tracks)%list /\
    In (EvTrigger 0 100) evs /\ In (EvTrigger 1 100) evs.
Proof.
  destruct (triggerForce_255_fires_unassigned_layers (Sup := Plat10)
              two_tracks 100) as (H & _ & _).
  destruct H as (evs & Hev & Hall); [run | run |].
  exists evs. split; [exact Hev |].
  split.
  - apply (Hall 0); [vm_compute; split; discriminate | run].
  - apply (Hall 1); [vm_compute; split; discriminate | run].
Defined.

Local Close Scope string_scope.

(** ** The command parser *)

Lemma atoi_from_nonneg s : forall acc, 0 <= acc -> 0 <= atoi_from acc s.
Proof.
  induction s as [| c s IH]; intros acc Hacc; cbn [atoi_from]; [done |].
  destruct (isdigit c); [| done]. apply IH. lia.
Qed.

(** atoi gives an [int], and a number that fits an [int] as it is written. *)
Lemma atoi_int s : - INT_MAX - 1 <= atoi s <= INT_MAX.
Proof.
  unfold atoi, to_int, INT_MAX.
  pose proof (Z.mod_pos_bound (strtol s + 2147483648) 4294967296). lia.
Qed.

Lemma atoi_as_written s : atoi_from 0 s <= INT_MAX -> atoi s = atoi_from 0 s.
Proof.
  intros Hle. pose proof (atoi_from_nonneg s 0 ltac:(done)) as Hpos.
  unfold atoi, strtol, to_int, INT_MAX, LONG_MAX in *.
  rewrite Z.min_l by lia. rewrite Z.mod_small by lia. lia.
Qed.

(** The strict parser gives -1 or a number of the range. *)
Lemma GetNumValue_cases str maxval :
  (isdigit (deref str) = true /\ 0 <= atoi str <= maxval /\
   GetNumValue str maxval = atoi str)
  \/
  ((isdigit (deref str) = false \/ maxval < atoi str \/ atoi str < 0) /\
   GetNumValue str maxval = -1).
Proof.
  unfold GetNumValue.
  destruct (isdigit (deref str)); cbn [negb].
  - destruct (Z.gtb_spec (atoi str) maxval).
    + right. split; [right; left; lia | done].
    + destruct (Z.ltb_spec (atoi str) 0).
      * right. split; [right; right; lia | done].
      * left. split_and!; [done | lia | lia | done].
  - right. split; [by left | done].
Qed.

(** The clipping parser gives the current value or a number of the range. *)
Lemma GetNumValue3_clips str curval maxval :
  0 <= maxval ->
  (isdigit (deref str) = false -> GetNumValue3 str curval maxval = curval) /\
  (isdigit (deref str) = true ->
   GetNumValue3 str curval maxval = Z.max 0 (Z.min (atoi str) maxval) /\
   0 <= GetNumValue3 str curval maxval <= maxval).
Proof.
  intros Hmax. unfold GetNumValue3.
  split; intros ->; cbn [negb]; [done |].
  destruct (Z.gtb_spec (atoi str) maxval); [lia |].
  destruct (Z.ltb_spec (atoi str) 0); lia.
Qed.

(** X1. The two argument parsers. Without a leading digit the strict one gives
    -1 and the clipping one the current value, untouched, whatever it is.
    With one, both work on the [int] that atoi returns: the clipping parser
    gives it held between 0 and [maxval], the strict parser gives -1 exactly
    when it is above [maxval] or negative, and the number itself otherwise,
    as the clipping parser then does. A number that fits an [int] is read as
    it is written: the clipping parser gives the smaller of it and [maxval],
    and the strict parser gives -1 exactly when it is above [maxval]. *)
Theorem numeric_argument_parsers str curval maxval :
  0 <= maxval ->
  (isdigit (deref str) = false ->
   GetNumValue str maxval = -1 /\ GetNumValue3 str curval maxval = curval) /\
  (isdigit (deref str) = true ->
   - INT_MAX - 1 <= atoi str <= INT_MAX /\
   GetNumValue3 str curval maxval = Z.max 0 (Z.min (atoi str) maxval) /\
   0 <= GetNumValue3 str curval maxval <= maxval /\
   (GetNumValue str maxval = -1 <-> maxval < atoi str \/ atoi str < 0) /\
   (GetNumValue str maxval <> -1 ->
    GetNumValue str maxval = atoi str /\
    GetNumValue3 str curval maxval = atoi str) /\
   (atoi_from 0 str <= INT_MAX ->
    atoi str = atoi_from 0 str /\
    GetNumValue3 str curval maxval = Z.min (atoi_from 0 str) maxval /\
    (GetNumValue str maxval = -1 <-> maxval < atoi_from 0 str))).
Proof.
  intros Hmax.
  destruct (GetNumValue3_clips str curval maxval Hmax) as [Hno Hyes].
  split.
  - intros Hd. split; [| by apply Hno].
    unfold GetNumValue. by rewrite Hd.
  - intros Hd. destruct (Hyes Hd) as [Hclip Hrange].
    assert (GetNumValue str maxval = -1 <-> maxval < atoi str \/ atoi str < 0)
      as Hstrict.
    { destruct (GetNumValue_cases str maxval)
        as [(_ & Hin & Hv) | [[Hf | Hout] Hv]].
      - split; lia.
      - congruence.
      - split; [intros _; exact Hout | done]. }
    split_and!; [apply atoi_int | apply atoi_int | done | lia | lia | done | |].
    + intros Hne.
      destruct (GetNumValue_cases str maxval)
        as [(_ & Hin & Hv) | [_ Hv]]; [| done].
      split; [done | lia].
    + intros Hfit. pose proof (atoi_as_written str Hfit) as Hw.
      pose proof (atoi_from_nonneg str 0 ltac:(done)) as Hpos.
      split_and!; [done | lia |].
      rewrite Hstrict, Hw. split; [intros [? | ?]; lia | by left].
Qed.

Lemma split_spaces_blank s :
  all_spaces s = true -> List.filter nonempty (split_spaces s) = [].
Proof.
  induction s as [| c s IH]; cbn [all_spaces split_spaces]; [done |].
  intros [Hc Hs]%andb_prop. rewrite Hc. cbn. by apply IH.
Qed.

Lemma all_spaces_toupper_str s : all_spaces (toupper_str s) = all_spaces s.
Proof.
  induction s as [| c s IH]; cbn [all_spaces toupper_str]; [done |].
  by rewrite toupper_space, IH.
Qed.

Lemma toupper_idem c : toupper (toupper c) = toupper c.
Proof. destruct c as [[] [] [] [] [] [] [] []]; reflexivity. Qed.

Lemma toupper_str_idem s : toupper_str (toupper_str s) = toupper_str s.
Proof.
  induction s as [| c s IH]; cbn [toupper_str]; [done |].
  by rewrite toupper_idem, IH.
Qed.

Lemma split_spaces_nonnil s : split_spaces s <> [].
Proof.
  destruct s as [| c s]; cbn [split_spaces]; [done |].
  destruct (Ascii.eqb c " "); [done |]. by destruct (split_spaces s).
Qed.

Lemma split_spaces_app s1 s2 :
  split_spaces (s1 ++ String " " s2) = (split_spaces s1 ++ split_spaces s2)%list.
Proof.
  induction s1 as [| c s1 IH]; [done |].
  cbn [String.append split_spaces]. rewrite IH.
  destruct (Ascii.eqb c " "); [done |].
  pose proof (split_spaces_nonnil s1).
  by destruct (split_spaces s1).
Qed.

Lemma toupper_str_app s1 s2 :
  toupper_str (s1 ++ s2) = (toupper_str s1 ++ toupper_str s2)%string.
Proof.
  induction s1 as [| c s1 IH]; [done |].
  cbn [String.append toupper_str]. by rewrite IH.
Qed.

Lemma strtok_app s1 s2 :
  strtok (s1 ++ String " " s2) = (strtok s1 ++ strtok s2)%list.
Proof. unfold strtok. by rewrite split_spaces_app, List.filter_app. Qed.

Section Dispatcher.
Context {P : Type} {Plug : PixelNutPlugin P} {Fact : PluginFactory P}
  {Sup : PixelNutSupport}.
Implicit Types (e : PixelNutEngine P).

(** X2. An empty command string, or one with only spaces, is ignored. *)
Theorem execCmdStr_blank_is_ignored s e :
  all_spaces s = true -> execCmdStr s e = (Status_Success, e).
Proof.
  intros Hs. unfold execCmdStr, strtok.
  by rewrite split_spaces_blank by (by rewrite all_spaces_toupper_str).
Qed.

(** X3. Commands are case-insensitive: a command string and its upper-case
    form do the same. *)
Theorem execCmdStr_ignores_case s e :
  execCmdStr (toupper_str s) e = execCmdStr s e.
Proof. unfold execCmdStr. by rewrite toupper_str_idem. Qed.

(** A run of tokens is the run of its first part and then, if that
    succeeded, of the rest. *)
Lemma execTokens_app l1 l2 segindex e :
  execTokens (l1 ++ l2) segindex e
  = let r := execTokens l1 segindex e in
    if Status_eqb r.1.1 Status_Success then execTokens l2 r.1.2 r.2 else r.
Proof.
  revert segindex e. induction l1 as [| c l1 IH]; intros segindex e; [done |].
  cbn [app execTokens].
  destruct (execCmd c segindex e) as [[st seg'] e'].
  destruct (Status_eqb st Status_Success) eqn:Hst; [apply IH |].
  cbn. by rewrite Hst.
Qed.

(** X4. The commands of one string run in order, the local segment index going
    from one to the next, and the first one that fails ends the call: what
    follows it is not executed. *)
Theorem execCmdStr_runs_in_sequence s1 s2 e :
  execCmdStr (s1 ++ String " " s2) e
  = let r := execTokens (strtok (toupper_str s1)) (-1) e in
    if Status_eqb r.1.1 Status_Success
    then let r2 := execTokens (strtok (toupper_str s2)) r.1.2 r.2 in
         (r2.1.1, r2.2)
    else (r.1.1, r.2).
Proof.
  unfold execCmdStr. rewrite toupper_str_app. cbn [toupper_str].
  replace (toupper " ") with " "%char by reflexivity.
  rewrite strtok_app, execTokens_app. cbv zeta.
  destruct (execTokens (strtok (toupper_str s1)) (-1) e) as [[st seg] e1].
  cbn [fst snd]. destruct (Status_eqb st Status_Success); [| done].
  by destruct (execTokens _ seg e1) as [[st2 seg2] e2].
Qed.

(** X5. What the engine does not know it refuses, and what needs a track it
    refuses while there is none: a token whose letter has no case in
    execCmdStr, and any token other than X, Y, E and P on an engine without a
    track, return BadCmd and leave the engine as it was. *)
Theorem execCmd_rejects_without_change c arg segindex e :
  known_command c = false \/
  (indexTrackStack e < 0 /\
   is_cmd c "X" = false /\ is_cmd c "Y" = false /\
   is_cmd c "E" = false /\ is_cmd c "P" = false) ->
  execCmd (String c arg) segindex e = (Status_Error_BadCmd, segindex, e).
Proof.
  intros [Hk | (Hno & HX & HY & HE & HP)].
  - unfold known_command in Hk. cbn [list_ascii_of_string existsb] in Hk.
    repeat (apply orb_false_elim in Hk as [? Hk]).
    rewrite execCmd_draw by done.
    destruct (indexTrackStack e >=? 0); [| done].
    unfold execDrawCmd, is_cmd. cbn [deref].
    by repeat match goal with H : Ascii.eqb c _ = false |- _ =>
      rewrite H; clear H end.
  - rewrite execCmd_draw by done.
    by destruct (Z.geb_spec (indexTrackStack e) 0); [lia |].
Qed.

End Dispatcher.

(** ** The stack manager *)

Section ClearStack.
Context {P : Type} {Plug : PixelNutPlugin P} {Fact : PluginFactory P}
  {Sup : PixelNutSupport}.
Implicit Types (e : PixelNutEngine P).

Lemma untouched_refl e : untouched_by_delete e e.
Proof. by repeat split. Qed.

Lemma untouched_trans e1 e2 e3 :
  untouched_by_delete e1 e2 -> untouched_by_delete e2 e3 ->
  untouched_by_delete e1 e3.
Proof.
  intros (A1 & A2 & A3 & A4) (B1 & B2 & B3 & B4).
  split_and!; try congruence.
Qed.

Lemma untouched_deletePlugin o e : untouched_by_delete e (deletePlugin o e).
Proof. destruct o; by repeat split. Qed.

Lemma untouched_foldl_delete (js : list Z) : forall e,
  untouched_by_delete e
    (foldl (fun e' j => deletePlugin (pPlugin (layerAt e' j)) e') e js).
Proof.
  induction js as [| j js IH]; intros e; [apply untouched_refl |].
  cbn [foldl]. eapply untouched_trans; [apply untouched_deletePlugin | apply IH].
Qed.

Lemma untouched_clearStack_layers i e :
  untouched_by_delete e (clearStack_layers i e).
Proof.
  unfold clearStack_layers. cbv zeta.
  set (js := seqZ _ _).
  destruct (untouched_foldl_delete js e) as (A1 & A2 & A3 & A4).
  set (e1 := foldl _ e js) in *. clearbody e1.
  split_and!; [exact A1 | exact A2 | | exact A4].
  etrans; [| exact A3]. reflexivity.
Qed.

Lemma clearStack_track_spec e i :
  let e' := clearStack_track e i in
  pluginTracks e' = pluginTracks e /\
  indexTrackStack e' = indexTrackStack e /\
  settings e' = settings e /\
  forall k, frees k (events e')
            = frees k (events e)
              + (if (i =? k) && bool_decide (is_Some (PluginTrack.pRedrawBuff (trackAt e i)))
                 then 1 else 0).
Proof.
  unfold clearStack_track. cbv zeta.
  destruct (untouched_clearStack_layers i e) as (A1 & A2 & A3 & A4).
  set (e1 := clearStack_layers i e) in *. clearbody e1.
  assert (trackAt e1 i = trackAt e i) as -> by (unfold trackAt; by rewrite A1).
  destruct (PluginTrack.pRedrawBuff (trackAt e i)) as [buf |].
  - split_and!; [exact A1 | exact A2 | exact A3 |].
    intros k. cbn [events logEvent frees]. rewrite logEvent_events.
    cbn [frees]. rewrite A4.
    rewrite bool_decide_eq_true_2 by eauto. rewrite andb_true_r. lia.
  - split_and!; [exact A1 | exact A2 | exact A3 |].
    intros k. rewrite A4. rewrite bool_decide_eq_false_2 by (by intros [? ?]).
    rewrite andb_false_r. lia.
Qed.

Lemma clearStack_tracks_spec (l : list Z) : List.NoDup l -> forall e,
  let e' := foldl clearStack_track e l in
  pluginTracks e' = pluginTracks e /\
  indexTrackStack e' = indexTrackStack e /\
  settings e' = settings e /\
  forall k, frees k (events e')
            = frees k (events e)
              + (if bool_decide (k ∈ l)
                    && bool_decide (is_Some (PluginTrack.pRedrawBuff (trackAt e k)))
                 then 1 else 0).
Proof.
  induction 1 as [| i l Hi Hl IH]; intros e.
  - cbn [foldl]. split_and!; try done. intros k.
    rewrite bool_decide_eq_false_2 by (by intros ?%elem_of_nil). cbn. lia.
  - cbn [foldl]. cbv zeta.
    destruct (clearStack_track_spec e i) as (A1 & A2 & A3 & A4).
    set (e1 := clearStack_track e i) in *. clearbody e1.
    destruct (IH e1) as (B1 & B2 & B3 & B4).
    set (e2 := foldl clearStack_track e1 l) in *. clearbody e2.
    split_and!; try congruence.
    intros k. rewrite B4, A4.
    assert (trackAt e1 k = trackAt e k) as -> by (unfold trackAt; by rewrite A1).
    destruct (Z.eqb_spec i k) as [-> | Hne].
    + rewrite (bool_decide_eq_false_2 (k ∈ l))
        by (by rewrite list_elem_of_In).
      rewrite (bool_decide_eq_true_2 (k ∈ k :: l)) by (by left).
      cbn [andb]. lia.
    + cbn [andb].
      destruct (decide (k ∈ l)) as [Hin | Hnin].
      * rewrite (bool_decide_eq_true_2 (k ∈ l)) by done.
        rewrite (bool_decide_eq_true_2 (k ∈ i :: l)) by (by right). lia.
      * rewrite (bool_decide_eq_false_2 (k ∈ l)) by done.
        rewrite (bool_decide_eq_false_2 (k ∈ i :: l))
          by (by intros [? | ?]%elem_of_cons).
        lia.
Qed.

Lemma nthZ_memset0 l n b :
  nthZ 0 (memset0 l n) b = if b <? n then 0 else nthZ 0 l b.
Proof.
  unfold memset0, nthZ.
  destruct (Z.ltb_spec b 0) as [Hneg | Hpos].
  { by destruct (b <? n). }
  destruct (Z.ltb_spec b n) as [Hlt | Hge].
  - destruct (decide (Z.to_nat b < Nat.min (Z.to_nat n) (length l))%nat).
    + rewrite app_nth1 by (by rewrite length_replicate).
      apply nth_lookup_Some with (d := 0). apply lookup_replicate_2. lia.
    + rewrite nth_overflow; [done |].
      rewrite length_app, length_replicate, length_drop. lia.
  - destruct (decide (Z.to_nat n <= length l)%nat).
    + rewrite app_nth2 by (rewrite length_replicate; lia).
      rewrite length_replicate.
      rewrite !nth_lookup, lookup_drop. f_equal. f_equal. lia.
    + rewrite !nth_overflow; [done | lia |].
      rewrite length_app, length_replicate, length_drop. lia.
Qed.

Lemma length_memset0 l n : length (memset0 l n) = length l.
Proof.
  unfold memset0. rewrite length_app, length_replicate, length_drop. lia.
Qed.

Lemma elem_of_rev_seqZ i m n : i ∈ rev (seqZ m n) <-> m <= i < m + n.
Proof. by rewrite list_elem_of_In, <- in_rev, <- list_elem_of_In, elem_of_seqZ. Qed.

Lemma NoDup_rev_seqZ m n : List.NoDup (rev (seqZ m n)).
Proof. apply List.NoDup_rev, NoDup_ListNoDup, NoDup_seqZ. Qed.

Lemma clearStack_resets e :
  let e' := clearStack e in
  indexLayerStack e' = -1 /\ indexTrackStack e' = -1 /\
  indexTrackEnable e' = -1 /\
  segOffset e' = 0 /\ segCount e' = numPixels e /\
  numPixels e' = numPixels e /\
  maxPluginLayers e' = maxPluginLayers e /\
  maxPluginTracks e' = maxPluginTracks e /\
  length (pDisplayPixels e') = length (pDisplayPixels e) /\
  forall b, nthZ 0 (pDisplayPixels e') b
            = if b <? numPixels e * 3 then 0 else nthZ 0 (pDisplayPixels e) b.
Proof.
  unfold clearStack. cbv zeta.
  destruct (clearStack_tracks_spec (rev (seqZ 0 (indexTrackStack e + 1)))
              (NoDup_rev_seqZ _ _) e) as (_ & _ & Hs & _).
  set (e1 := foldl clearStack_track e _) in *. clearbody e1.
  unfold settings in Hs.
  injection Hs as _ _ _ HmL HmT _ _ _ HN HD _ _ _ _ _ _.
  cbn [indexLayerStack indexTrackStack indexTrackEnable segOffset segCount
       numPixels maxPluginLayers maxPluginTracks pDisplayPixels
       set_pDisplayPixels set_segCount set_segOffset set_indexTrackStack
       set_indexLayerStack set_indexTrackEnable].
  rewrite HN, HD.
  split_and!; try done.
  - apply length_memset0.
  - intros b. apply nthZ_memset0.
Qed.

Lemma resets_with_time (c : PixelNutEngine P) e :
  (indexLayerStack c = -1 /\ indexTrackStack c = -1 /\
   indexTrackEnable c = -1 /\
   segOffset c = 0 /\ segCount c = numPixels e /\
   numPixels c = numPixels e /\
   maxPluginLayers c = maxPluginLayers e /\
   maxPluginTracks c = maxPluginTracks e /\
   length (pDisplayPixels c) = length (pDisplayPixels e) /\
   forall b, nthZ 0 (pDisplayPixels c) b
             = if b <? numPixels e * 3 then 0 else nthZ 0 (pDisplayPixels e) b) ->
  let c' := set_timePrevUpdate 0 c in
  indexLayerStack c' = -1 /\ indexTrackStack c' = -1 /\
  indexTrackEnable c' = -1 /\
  segOffset c' = 0 /\ segCount c' = numPixels e /\
  numPixels c' = numPixels e /\
  maxPluginLayers c' = maxPluginLayers e /\
  maxPluginTracks c' = maxPluginTracks e /\
  length (pDisplayPixels c') = length (pDisplayPixels e) /\
  forall b, nthZ 0 (pDisplayPixels c') b
            = if b <? numPixels e * 3 then 0 else nthZ 0 (pDisplayPixels e) b.
Proof. intros H. exact H. Qed.

Lemma execCmd_P arg segindex e :
  execCmd (String "P" arg) segindex e
  = (Status_Success, segindex, set_timePrevUpdate 0 (clearStack e)).
Proof. reflexivity. Qed.

(** X6. clearStack empties both stacks, disables every track, puts the segment
    staging back on the whole strip, keeps the sizes, and blacks out the
    first numPixels*3 bytes of the display, whatever the stack held; the P
    command does just that, always succeeds, and sets the time of the
    previous update back to 0. *)
Theorem clearStack_resets_the_engine arg segindex e :
  let r := execCmd (String "P" arg) segindex e in
  r.1 = (Status_Success, segindex) /\
  timePrevUpdate r.2 = 0 /\
  forall e', e' = clearStack e \/ e' = r.2 ->
    indexLayerStack e' = -1 /\ indexTrackStack e' = -1 /\
    indexTrackEnable e' = -1 /\
    segOffset e' = 0 /\ segCount e' = numPixels e /\
    numPixels e' = numPixels e /\
    maxPluginLayers e' = maxPluginLayers e /\
    maxPluginTracks e' = maxPluginTracks e /\
    length (pDisplayPixels e') = length (pDisplayPixels e) /\
    forall b, nthZ 0 (pDisplayPixels e') b
              = if b <? numPixels e * 3 then 0 else nthZ 0 (pDisplayPixels e) b.
Proof.
  cbv zeta. rewrite execCmd_P.
  generalize (clearStack_resets e). generalize (clearStack e). intros c H.
  split; [reflexivity |]. split; [reflexivity |].
  intros e' [-> | ->]; [exact H |].
  exact (resets_with_time c e H).
Qed.

(** X7. clearStack frees the redraw buffer of every track of the stack that has
    one, once, and frees nothing else. *)
Theorem clearStack_frees_each_buffer_once e i :
  frees i (events (clearStack e))
  = frees i (events e)
    + (if (0 <=? i) && (i <=? indexTrackStack e)
          && bool_decide (is_Some (PluginTrack.pRedrawBuff (trackAt e i)))
       then 1 else 0).
Proof.
  unfold clearStack. cbv zeta.
  destruct (clearStack_tracks_spec (rev (seqZ 0 (indexTrackStack e + 1)))
              (NoDup_rev_seqZ _ _) e) as (_ & _ & _ & Hf).
  set (e1 := foldl clearStack_track e _) in *. clearbody e1.
  cbn [events set_pDisplayPixels set_segCount set_segOffset
       set_indexTrackStack set_indexLayerStack set_indexTrackEnable].
  rewrite Hf. f_equal.
  assert (bool_decide (i ∈ rev (seqZ 0 (indexTrackStack e + 1)))
          = (0 <=? i) && (i <=? indexTrackStack e)) as ->; [| done].
  destruct (Z.leb_spec 0 i), (Z.leb_spec i (indexTrackStack e)); cbn [andb].
  - apply bool_decide_eq_true_2, elem_of_rev_seqZ. lia.
  - apply bool_decide_eq_false_2. rewrite elem_of_rev_seqZ. lia.
  - apply bool_decide_eq_false_2. rewrite elem_of_rev_seqZ. lia.
  - apply bool_decide_eq_false_2. rewrite elem_of_rev_seqZ. lia.
Qed.

End ClearStack.

Section StackInvariant.
Context {P : Type} {Plug : PixelNutPlugin P} {Fact : PluginFactory P}
  {Sup : PixelNutSupport}.
Implicit Types (e : PixelNutEngine P).

Lemma dims_updTrack i f e : dims (updTrack i f e) = dims e.
Proof. unfold dims, updTrack. cbn. by rewrite length_setZ. Qed.

Lemma dims_updDraw i f e : dims (updDraw i f e) = dims e.
Proof. apply dims_updTrack. Qed.

Lemma dims_triggerLayer layer force e :
  dims (triggerLayer layer force e) = dims e.
Proof. apply (keeps_dims _ _ (keeps_triggerLayer e e layer force (keeps_refl e))). Qed.

Ltac dims_step :=
  repeat first [ rewrite dims_updDraw | rewrite dims_updTrack
               | rewrite dims_updLayer | rewrite dims_triggerLayer
               | rewrite dims_random ].

(** Every command of the second switch but G leaves the stack indices, the
    clock, the sizes and the lengths of the two arrays alone. *)
Lemma execDrawCmd_dims c arg e :
  is_cmd c "G" = false -> dims (execDrawCmd c arg e).2 = dims e.
Proof.
  intros HG. unfold execDrawCmd.
  repeat match goal with
         | |- context [if is_cmd c ?l then _ else _] =>
             destruct (is_cmd c l) eqn:?
         end; try discriminate; cbn [snd]; try reflexivity.
  - unfold cmd_J, updPdraw. by dims_step.
  - unfold cmd_K, updPdraw. by dims_step.
  - unfold cmd_U, updPdraw. by dims_step.
  - unfold cmd_V, updPdraw. by dims_step.
  - unfold cmd_H, updPdraw. by dims_step.
  - unfold cmd_W, updPdraw. by dims_step.
  - unfold cmd_B, updPdraw. by dims_step.
  - unfold cmd_C, updPdraw. by dims_step.
  - unfold cmd_D, updPdraw. by dims_step.
  - unfold cmd_Q, updPdraw. cbv zeta.
    repeat match goal with
           | |- context [if ?b then _ else _] => destruct b
           end; by dims_step.
  - unfold cmd_I, updTopLayer. destruct (isdigit _); by dims_step.
  - unfold cmd_A, updTopLayer. by dims_step.
  - unfold cmd_F, updTopLayer. destruct (isdigit _); by dims_step.
  - unfold cmd_N, updTopLayer. cbv zeta.
    match goal with |- context [if ?b then _ else _] => destruct b end;
      by dims_step.
  - unfold cmd_O, updTopLayer. by dims_step.
  - destruct (isdigit (deref arg)) eqn:Hd.
    + by destruct (cmd_T_fields arg e Hd) as [? _].
    + unfold cmd_T. cbv zeta. rewrite Hd.
      destruct (_ <? 0); cbn [fst snd]; by dims_step.
Qed.

Lemma stack_in_bounds_dims e e' :
  dims e' = dims e -> stack_in_bounds e -> stack_in_bounds e'.
Proof.
  unfold dims, stack_in_bounds. intros H. injection H as -> -> -> _ _ -> -> _ _.
  done.
Qed.

(** A successful NewPluginLayer found room on the stacks it pushed on. *)
Lemma NewPluginLayer_success_room plugin segindex e e' :
  NewPluginLayer plugin segindex e = (Status_Success, e') ->
  indexLayerStack e + 1 < maxPluginLayers e /\
  indexLayerStack e' = indexLayerStack e + 1 /\
  (indexTrackStack e' = indexTrackStack e /\ 0 <= indexTrackStack e
   \/ indexTrackStack e' = indexTrackStack e + 1 /\
      indexTrackStack e + 1 < maxPluginTracks e) /\
  indexTrackEnable e' = indexTrackEnable e /\
  settings e' = settings e.
Proof.
  unfold NewPluginLayer. intros H.
  destruct (Z.geb_spec (indexLayerStack e + 1) (maxPluginLayers e)); [done |].
  destruct (makePlugin plugin) as [p |]; [| done].
  cbv zeta in H. cbn [addr] in H.
  set (e1 := logEvent (EvNew (calls e) plugin) (tick e)) in *.
  assert (indexTrackStack e1 = indexTrackStack e) as HT1 by done.
  assert (maxPluginTracks e1 = maxPluginTracks e) as HM1 by done.
  assert (indexLayerStack e1 = indexLayerStack e) as HL1 by done.
  assert (indexTrackEnable e1 = indexTrackEnable e) as HE1 by done.
  assert (settings e1 = settings e) as HS1 by done.
  rewrite HT1, HM1 in H.
  destruct (stackPlugin_success_tops (mkPtr (calls e) p)
              (isRedraw (Some (mkPtr (calls e) p))) segindex e1 e')
    as [HL HT].
  { destruct (isRedraw _); cbn [negb andb orb] in H.
    - by destruct (Z.geb_spec (indexTrackStack e + 1) (maxPluginTracks e)).
    - by destruct (Z.ltb_spec (indexTrackStack e) 0). }
  assert (indexTrackEnable e' = indexTrackEnable e1 /\ settings e' = settings e1)
    as [HE HS].
  { clear HL HT. clearbody e1.
    destruct (isRedraw _); cbn [negb andb orb] in H.
    - destruct (_ >=? _); [done |].
      unfold stackPlugin, allocRedrawBuff, malloc in H. cbn [fst snd] in H.
      destruct (malloc_at _); cbn [negb] in H; [| done].
      injection H as <-. by autorewrite with stack.
    - destruct (_ <? 0); [done |].
      unfold stackPlugin in H. injection H as <-. by autorewrite with stack. }
  rewrite HL, HT, HE, HS, HL1, HT1, HE1, HS1.
  split_and!; try done; try lia.
  destruct (isRedraw _); cbn [negb andb orb] in H.
  - destruct (Z.geb_spec (indexTrackStack e + 1) (maxPluginTracks e)); [done |].
    right. lia.
  - destruct (Z.ltb_spec (indexTrackStack e) 0); [done |]. left. lia.
Qed.

Lemma stack_in_bounds_set e e' :
  indexLayerStack e' = indexLayerStack e ->
  indexTrackStack e' = indexTrackStack e ->
  indexTrackEnable e' = indexTrackEnable e ->
  maxPluginLayers e' = maxPluginLayers e ->
  maxPluginTracks e' = maxPluginTracks e ->
  stack_in_bounds e -> stack_in_bounds e'.
Proof. unfold stack_in_bounds. by intros -> -> -> -> ->. Qed.

Lemma stack_in_bounds_E plugin segindex e :
  stack_in_bounds e -> stack_in_bounds (NewPluginLayer plugin segindex e).2.
Proof.
  intros Hb. destruct (NewPluginLayer _ _ e) as [st e'] eqn:HN. cbn [snd].
  assert (st = Status_Success \/ st <> Status_Success) as [-> | Hst]
    by (destruct st; [by left | by right ..]).
  - destruct (NewPluginLayer_success_room _ _ _ _ HN)
      as (Hroom & HL & HT & HE & HS).
    unfold settings in HS. injection HS as _ _ _ HmL HmT _ _ _ _ _ _ _ _ _ _ _.
    unfold stack_in_bounds in *. rewrite HL, HE, HmL, HmT. lia.
  - destruct (NewPluginLayer_failure _ _ _ _ _ HN Hst)
      as [(HL & HT & HE & _ & _ & _ & _ & HS) _].
    unfold settings in HS. injection HS as _ _ _ HmL HmT _ _ _ _ _ _ _ _ _ _ _.
    by apply (stack_in_bounds_set e).
Qed.

Lemma stack_in_bounds_reset (c : PixelNutEngine P) e :
  indexLayerStack c = -1 -> indexTrackStack c = -1 ->
  indexTrackEnable c = -1 ->
  maxPluginLayers c = maxPluginLayers e ->
  maxPluginTracks c = maxPluginTracks e ->
  stack_in_bounds e -> stack_in_bounds (set_timePrevUpdate 0 c).
Proof.
  intros HL HT HE HmL HmT Hb. unfold stack_in_bounds in *.
  change (indexLayerStack (set_timePrevUpdate 0 c)) with (indexLayerStack c).
  change (indexTrackStack (set_timePrevUpdate 0 c)) with (indexTrackStack c).
  change (indexTrackEnable (set_timePrevUpdate 0 c)) with (indexTrackEnable c).
  change (maxPluginLayers (set_timePrevUpdate 0 c)) with (maxPluginLayers c).
  change (maxPluginTracks (set_timePrevUpdate 0 c)) with (maxPluginTracks c).
  rewrite HL, HT, HE, HmL, HmT. lia.
Qed.

Lemma stack_in_bounds_P e :
  stack_in_bounds e -> stack_in_bounds (set_timePrevUpdate 0 (clearStack e)).
Proof.
  intros Hb.
  destruct (clearStack_resets e)
    as (HL & HT & HE & _ & _ & _ & HmL & HmT & _).
  exact (stack_in_bounds_reset (clearStack e) e HL HT HE HmL HmT Hb).
Qed.

Lemma stack_in_bounds_G e : stack_in_bounds e -> stack_in_bounds (cmd_G e).
Proof.
  intros Hb. unfold cmd_G.
  destruct (negb _); [| done].
  unfold stack_in_bounds in *.
  change (indexLayerStack (set_indexTrackEnable (indexTrackStack e) e))
    with (indexLayerStack e).
  change (indexTrackStack (set_indexTrackEnable (indexTrackStack e) e))
    with (indexTrackStack e).
  change (indexTrackEnable (set_indexTrackEnable (indexTrackStack e) e))
    with (indexTrackStack e).
  change (maxPluginLayers (set_indexTrackEnable (indexTrackStack e) e))
    with (maxPluginLayers e).
  change (maxPluginTracks (set_indexTrackEnable (indexTrackStack e) e))
    with (maxPluginTracks e).
  lia.
Qed.

Lemma execDrawCmd_G c arg e :
  is_cmd c "G" = true -> (execDrawCmd c arg e).2 = cmd_G e.
Proof.
  unfold is_cmd. cbn [deref]. intros ->%Ascii.eqb_eq. reflexivity.
Qed.

Lemma stack_in_bounds_draw c arg e :
  stack_in_bounds e -> stack_in_bounds (execDrawCmd c arg e).2.
Proof.
  intros Hb. destruct (is_cmd c "G") eqn:HG.
  - rewrite execDrawCmd_G by done. by apply stack_in_bounds_G.
  - apply (stack_in_bounds_dims e); [by apply execDrawCmd_dims | exact Hb].
Qed.

Lemma stack_in_bounds_execCmd cmd segindex e :
  stack_in_bounds e -> stack_in_bounds (execCmd cmd segindex e).2.
Proof.
  intros Hb. unfold execCmd. cbv zeta.
  destruct (is_cmd (deref cmd) "X"); [exact Hb |].
  destruct (is_cmd (deref cmd) "Y"); [destruct (_ >? 0); exact Hb |].
  destruct (is_cmd (deref cmd) "E").
  { destruct (_ >=? 0); [| exact Hb].
    pose proof (stack_in_bounds_E
                  (GetNumValue (cmd_arg cmd) MAX_PLUGIN_VALUE)
                  (if segindex <? 0 then 0 else segindex) e Hb) as H.
    destruct (NewPluginLayer _ _ e) as [st e']. exact H. }
  destruct (is_cmd (deref cmd) "P"); [by apply stack_in_bounds_P |].
  destruct (indexTrackStack e >=? 0); [| exact Hb].
  pose proof (stack_in_bounds_draw (deref cmd) (cmd_arg cmd) e Hb) as H.
  destruct (execDrawCmd _ _ e) as [st e']. exact H.
Qed.

Lemma stack_in_bounds_execTokens cmds : forall segindex e,
  stack_in_bounds e -> stack_in_bounds (execTokens cmds segindex e).2.
Proof.
  induction cmds as [| cmd cmds IH]; intros segindex e Hb; [done |].
  cbn [execTokens].
  pose proof (stack_in_bounds_execCmd cmd segindex e Hb) as H1.
  destruct (execCmd cmd segindex e) as [[st seg'] e']. cbn [snd] in H1.
  destruct (Status_eqb st Status_Success); [by apply IH | done].
Qed.

(** X8. No command string takes the stacks out of their arrays: if the two
    stack tops are between -1 and the last cell, and the top enabled track
    between -1 and the top track, they still are after execCmdStr, whatever
    the string and whether it succeeds or not. *)
Theorem execCmdStr_keeps_stack_in_bounds s e :
  stack_in_bounds e -> stack_in_bounds (execCmdStr s e).2.
Proof.
  intros Hb. unfold execCmdStr.
  pose proof (stack_in_bounds_execTokens (strtok (toupper_str s)) (-1) e Hb).
  by destruct (execTokens _ _ e) as [[st seg] e'].
Qed.

(** X9. The segment staging commands, on a strip of at least one pixel. X
    always succeeds and sets the segment offset: to the [int] that atoi
    returns for its argument when that is the index of a pixel of the strip,
    and to 0 otherwise (no digit, or an [int] that is negative or beyond the
    last pixel); so the offset is always on the strip. A Y that follows
    always succeeds too: when the [int] that atoi returns for its argument is
    at least 1 and the segment fits between the offset and the end of the
    strip, Y stages that count and the segment index goes up by one;
    otherwise Y stages the length of the whole strip and the segment index
    stays. Neither touches anything else of the engine. *)
Theorem segment_staging_stays_on_strip argX argY segindex e :
  1 <= numPixels e ->
  let rx := execCmd (String "X" argX) segindex e in
  let ry := execCmd (String "Y" argY) segindex rx.2 in
  let off := if isdigit (deref argX) && (0 <=? atoi argX)
                && (atoi argX <? numPixels e)
             then atoi argX else 0 in
  let fits := isdigit (deref argY) && (1 <=? atoi argY)
              && (off + atoi argY <=? numPixels e) in
  rx = (Status_Success, segindex, set_segOffset off e) /\
  0 <= off < numPixels e /\
  ry = (Status_Success,
        if fits then segindex + 1 else segindex,
        set_segCount (if fits then atoi argY else numPixels e)
                     (set_segOffset off e)) /\
  (fits = true -> 1 <= segCount ry.2 /\
                  segOffset ry.2 + segCount ry.2 <= numPixels e).
Proof.
  intros HN rx ry off fits.
  assert (rx = (Status_Success, segindex, set_segOffset off e)) as Hrx.
  { subst rx off. unfold execCmd. cbn [deref cmd_arg].
    change (is_cmd "X" "X") with true. cbv iota zeta. do 2 f_equal.
    destruct (GetNumValue_cases argX (numPixels e - 1))
      as [(-> & Hin & ->) | [Hout ->]].
    - destruct (Z.geb_spec (atoi argX) 0); [| lia].
      destruct (Z.leb_spec 0 (atoi argX)); [| lia].
      by destruct (Z.ltb_spec (atoi argX) (numPixels e)); [| lia].
    - cbn [Z.geb Z.compare].
      destruct Hout as [-> | [Hbig | Hneg]]; [done | |].
      + destruct (isdigit (deref argX)), (Z.leb_spec 0 (atoi argX));
          cbn [andb]; try done.
        by destruct (Z.ltb_spec (atoi argX) (numPixels e)); [lia |].
      + destruct (isdigit (deref argX)); [| done].
        by destruct (Z.leb_spec 0 (atoi argX)); [lia |]. }
  assert (0 <= off < numPixels e) as Hoff.
  { subst off. destruct (isdigit (deref argX)); cbn [andb]; [| lia].
    destruct (Z.leb_spec 0 (atoi argX)); cbn [andb]; [| lia].
    destruct (Z.ltb_spec (atoi argX) (numPixels e)); lia. }
  assert (ry = (Status_Success,
                if fits then segindex + 1 else segindex,
                set_segCount (if fits then atoi argY else numPixels e)
                             (set_segOffset off e))) as Hry.
  { subst ry. rewrite Hrx. cbn [snd]. subst fits. unfold execCmd.
    cbn [deref cmd_arg].
    change (is_cmd "Y" "X") with false. change (is_cmd "Y" "Y") with true.
    cbv iota zeta.
    change (numPixels (set_segOffset off e)) with (numPixels e).
    change (segOffset (set_segOffset off e)) with off.
    destruct (GetNumValue_cases argY (numPixels e - off))
      as [(-> & Hin & ->) | [Hout ->]].
    - cbn [andb].
      destruct (Z.gtb_spec (atoi argY) 0), (Z.leb_spec 1 (atoi argY));
        cbn [andb]; try lia.
      + by destruct (Z.leb_spec (off + atoi argY) (numPixels e)); [| lia].
      + done.
    - cbn [Z.gtb Z.compare].
      destruct Hout as [-> | [Hbig | Hneg]]; [done | |].
      + destruct (isdigit (deref argY)), (Z.leb_spec 1 (atoi argY));
          cbn [andb]; try done.
        by destruct (Z.leb_spec (off + atoi argY) (numPixels e)); [lia |].
      + destruct (isdigit (deref argY)); [| done].
        by destruct (Z.leb_spec 1 (atoi argY)); [lia |]. }
  split_and!; [exact Hrx | lia | lia | exact Hry |].
  intros Hf. rewrite Hry, Hf. cbn [snd].
  change (segCount (set_segCount (atoi argY) (set_segOffset off e)))
    with (atoi argY).
  change (segOffset (set_segCount (atoi argY) (set_segOffset off e))) with off.
  subst fits. apply andb_prop in Hf as [[_ H1]%andb_prop H2].
  apply Z.leb_le in H1, H2. lia.
Qed.

(** X10. "E" is an error: an E command without a plugin number, or with one
    that atoi returns as an [int] above MAX_PLUGIN_VALUE or negative, returns
    BadVal and neither asks the factory for a plugin nor changes the
    engine. *)
Theorem E_without_plugin_number_is_BadVal arg segindex e :
  isdigit (deref arg) = false \/ MAX_PLUGIN_VALUE < atoi arg \/ atoi arg < 0 ->
  execCmd (String "E" arg) segindex e = (Status_Error_BadVal, segindex, e).
Proof.
  intros H. unfold execCmd. cbn [deref cmd_arg].
  change (is_cmd "E" "X") with false. change (is_cmd "E" "Y") with false.
  change (is_cmd "E" "E") with true. cbv iota zeta.
  destruct (GetNumValue_cases arg MAX_PLUGIN_VALUE)
    as [(Hd & Hin & _) | [_ ->]]; [| done].
  destruct H as [? | [? | ?]]; [congruence | lia | lia].
Qed.

(** X11. What a successful NewPluginLayer leaves on top of the layer stack: a
    layer that repeats forever, waits at least one second, takes the force
    last set, listens to no other layer and to no external trigger, has not
    been triggered, and draws on the top track. *)
Theorem NewPluginLayer_success_layer_defaults plugin segindex e e' :
  NewPluginLayer plugin segindex e = (Status_Success, e') ->
  0 <= indexLayerStack e + 1 < Z.of_nat (length (pluginLayers e)) ->
  let L := layerAt e' (indexLayerStack e') in
  indexLayerStack e' = indexLayerStack e + 1 /\
  trigTimeMsecs L = 0 /\ trigCount L = -1 /\ trigDelayMin L = 1 /\
  trigDelayRange L = 0 /\ trigForce L = curForce e /\
  trigExtern L = false /\ trigSource L = MAX_BYTE_VALUE /\
  trigActive L = false /\ track L = to_byte (indexTrackStack e').
Proof.
  intros HN Hin.
  destruct (NewPluginLayer_success _ _ _ _ HN) as [p [_ Hst]].
  destruct (stackPlugin_success_layer _ _ _ _ _ Hst Hin)
    as (HL & _ & Hcfg & Hact).
  unfold cfg in Hcfg. injection Hcfg as ? ? ? ? ? ? ? ?.
  by split_and!.
Qed.

(** X12. What a successful NewPluginLayer leaves on top of the track stack when
    the plugin is a drawing effect: a track on the staged segment with the
    segment index it was given, a zeroed buffer of three bytes per pixel of
    the segment, and the default draw properties (window on the whole
    segment, full brightness, count 1, OR blending, the engine's
    direction). *)
Theorem NewPluginLayer_success_track_defaults plugin segindex e e' :
  NewPluginLayer plugin segindex e = (Status_Success, e') ->
  indexTrackStack e' <> indexTrackStack e ->
  0 <= indexTrackStack e + 1 < Z.of_nat (length (pluginTracks e)) ->
  indexTrackStack e' = indexTrackStack e + 1 /\
  trackAt e' (indexTrackStack e')
  = PluginTrack.mk 0 (Some (replicate (Z.to_nat (segCount e * 3)) 0))
      (makeColorVals
         (DrawProps.mk 0 (segCount e) 1 0 0 0 MAX_PERCENTAGE 0 0 0
                       (goUpwards e) true))
      (to_byte (indexLayerStack e + 1)) 0 (to_byte segindex) 0
      (segOffset e) (segCount e).
Proof.
  intros HN Hne Hin.
  destruct (NewPluginLayer_success _ _ _ _ HN) as [p [_ Hst]].
  destruct (stackPlugin_success_tops _ _ _ _ _ Hst) as [_ HT].
  autorewrite with stack in HT.
  destruct (isRedraw _); [| done].
  destruct (stackPlugin_success_track _ _ _ _ Hst) as [HT' Htrk].
  { by autorewrite with stack. }
  split; [done |]. by rewrite Htrk.
Qed.

End StackInvariant.

(** ** Triggers *)

Section Triggers.
Context {P : Type} {Plug : PixelNutPlugin P} {Fact : PluginFactory P}
  {Sup : PixelNutSupport}.
Implicit Types (e : PixelNutEngine P) (L : PluginLayer P).

(** A loop that triggers the layers chosen by their trigger configuration:
    it triggers each chosen layer, and only those. *)
Lemma trigger_loop (sel : PluginLayer P -> bool) (force : Z) (idx : list Z) :
  (forall L L', cfg L = cfg L' -> sel L = sel L') ->
  forall e,
    let e' := foldl (fun e i => if sel (layerAt e i)
                                then triggerLayer i force e else e) e idx in
    keeps e e' /\
    exists evs, events e' = evs ++ events e /\
      (forall i, In i idx -> 0 <= i < 256 ->
         i < Z.of_nat (length (pluginLayers e)) ->
         sel (layerAt e i) = true ->
         In (EvTrigger i (to_short force)) evs /\
         trigActive (layerAt e' i) = true) /\
      (forall ev, In ev evs ->
         exists i, ev = EvTrigger (to_byte i) (to_short force) /\
                   In i idx /\ sel (layerAt e i) = true).
Proof.
  intros Hsel. induction idx as [| i idx IH]; intros e; cbn [foldl].
  - split; [apply keeps_refl |]. exists []. by split_and!.
  - cbv zeta.
    set (e1 := if sel (layerAt e i) then triggerLayer i force e else e).
    assert (keeps e e1) as K1.
    { subst e1. destruct (sel _); [| apply keeps_refl].
      apply keeps_triggerLayer, keeps_refl. }
    destruct (IH e1) as [K2 [evs2 [Hev2 [Hall Honly]]]].
    split; [by eapply keeps_trans |].
    assert (forall j, sel (layerAt e1 j) = sel (layerAt e j)) as Hsame
      by (intros j; apply Hsel, (keeps_cfg _ _ K1)).
    assert (exists evs1, events e1 = evs1 ++ events e /\
              (sel (layerAt e i) = true -> 0 <= i < 256 ->
               i < Z.of_nat (length (pluginLayers e)) ->
               In (EvTrigger i (to_short force)) evs1 /\
               trigActive (layerAt e1 i) = true) /\
              (forall ev, In ev evs1 ->
                 ev = EvTrigger (to_byte i) (to_short force) /\
                 sel (layerAt e i) = true))
      as [evs1 [Hev1 [Hhead Hone]]].
    { subst e1. destruct (sel (layerAt e i)) eqn:Hs.
      - exists [EvTrigger (to_byte i) (to_short force)]. split_and!.
        + by rewrite events_triggerLayer.
        + intros _ Hi Hlen. split.
          * left. by rewrite to_byte_small.
          * pose proof (trigActive_triggerLayer i force e) as Ha.
            rewrite to_byte_small in Ha by done. apply Ha. lia.
        + intros ev [<- | []]. by split.
      - exists []. split_and!; [done | done |]. intros ev []. }
    exists (evs2 ++ evs1). split_and!.
    + rewrite Hev2, Hev1. by rewrite app_assoc.
    + intros j [<- | Hj] Hj256 Hjlen Hs.
      * destruct (Hhead Hs Hj256 Hjlen) as [Hin Hact]. split.
        -- apply in_or_app. by right.
        -- by apply (keeps_active _ _ K2).
      * destruct (Hall j Hj Hj256) as [Hin Hact].
        -- by rewrite (keeps_length _ _ K1).
        -- by rewrite Hsame.
        -- split; [apply in_or_app; by left | done].
    + intros ev [Hin | Hin]%in_app_or.
      * destruct (Honly ev Hin) as (j & -> & Hj & Hs).
        exists j. split_and!; [done | by right | by rewrite <- Hsame].
      * destruct (Hone ev Hin) as [-> Hs]. exists i. by split_and!; [| left |].
Qed.

Lemma curForce_storeSink out e : curForce (storeSink out e) = curForce e.
Proof.
  unfold storeSink. destruct (pDrawPixels e), out; try done.
  by destruct (PluginTrack.pRedrawBuff _).
Qed.

Lemma curForce_callTrigger lay trk force e :
  curForce (callTrigger lay trk force e) = curForce e.
Proof.
  unfold callTrigger. cbv zeta.
  destruct (pPlugin _) as [pl |]; [| done].
  destruct (trigger _ _ _ _) as [[p' d'] out].
  by rewrite curForce_storeSink.
Qed.

Lemma curForce_RestorePropVals t a b c e :
  curForce (RestorePropVals t a b c e) = curForce e.
Proof.
  unfold RestorePropVals. cbv zeta.
  destruct (negb _); [done |].
  by repeat match goal with
            | |- context [let '(_, _) := ?x in _] => destruct x
            | |- context [if ?b then _ else _] => destruct b
            end.
Qed.

Lemma curForce_triggerLayer layer force e :
  curForce (triggerLayer layer force e) = curForce e.
Proof.
  unfold triggerLayer, getMsecs. cbv zeta.
  set (e1 := callTrigger _ _ _ _).
  assert (curForce e1 = curForce e) as H1
    by (subst e1; by rewrite curForce_callTrigger).
  clearbody e1.
  set (e2 := set_pDrawPixels (pDrawPixels e) e1).
  assert (curForce e2 = curForce e) as H2 by done. clearbody e2.
  set (e3 := if externPropMode e2 then _ else e2).
  assert (curForce e3 = curForce e) as H3.
  { subst e3. destruct (externPropMode e2); [| done].
    by rewrite curForce_RestorePropVals. }
  clearbody e3.
  by destruct (negb (negb _)).
Qed.

(** X13. The one-argument triggerForce keeps the force as the default of the
    layers made later, and triggers with it every layer of the stack that
    has external triggering on (the I command): each of them has its plugin's
    trigger called with that force, and is triggered afterwards. *)
Theorem triggerForce_fires_extern_layers force e :
  indexLayerStack e < 256 ->
  indexLayerStack e < Z.of_nat (length (pluginLayers e)) ->
  let e' := triggerForce force e in
  curForce e' = to_short force /\
  exists evs, events e' = evs ++ events e /\
    (forall i, 0 <= i <= indexLayerStack e ->
       trigExtern (layerAt e i) = true ->
       In (EvTrigger i (to_short force)) evs /\
       trigActive (layerAt e' i) = true).
Proof.
  intros H256 Hlen e'. subst e'. unfold triggerForce. cbv zeta.
  set (e0 := set_curForce (to_short force) e).
  change (indexLayerStack e0) with (indexLayerStack e).
  destruct (trigger_loop (fun L => trigExtern L) (to_short force)
              (seqZ 0 (indexLayerStack e + 1))
              ltac:(intros L L' Hc; unfold cfg in Hc; congruence) e0)
    as [K [evs [Hev [Hall Honly]]]].
  split.
  - clear. generalize (seqZ 0 (indexLayerStack e + 1)). intros l.
    change (to_short force) with (curForce e0) at 2.
    generalize e0. clear. induction l as [| i l IH]; intros e0; [done |].
    cbn [foldl]. rewrite IH. destruct (trigExtern _); [| done].
    apply curForce_triggerLayer.
  - exists evs. rewrite to_short_idem in *. split.
    + exact Hev.
    + intros i Hi Hext.
      apply Hall; [apply In_seqZ; lia | lia | | exact Hext].
      change (pluginLayers e0) with (pluginLayers e). lia.
Qed.

End Triggers.

Section TriggerSettings.
Context {P : Type} {Plug : PixelNutPlugin P} {Fact : PluginFactory P}
  {Sup : PixelNutSupport}.
Implicit Types (e : PixelNutEngine P) (L : PluginLayer P).

Lemma execCmd_layer (c : ascii) arg segindex e (f : PluginLayer P -> PluginLayer P) :
  0 <= indexTrackStack e ->
  0 <= indexLayerStack e < Z.of_nat (length (pluginLayers e)) ->
  execCmd (String c arg) segindex e
  = (Status_Success, segindex, updTopLayer f e) ->
  let r := execCmd (String c arg) segindex e in
  r.1 = (Status_Success, segindex) /\
  layerAt r.2 (indexLayerStack e) = f (layerAt e (indexLayerStack e)).
Proof.
  intros Ht Hl -> r. subst r. cbn [fst snd]. split; [done |].
  unfold updTopLayer. by rewrite layerAt_updLayer_eq.
Qed.

Ltac run_draw_cmd Ht :=
  unfold execCmd; cbn [deref cmd_arg is_cmd Ascii.eqb Bool.eqb];
  cbv iota zeta;
  match goal with
  | |- context [indexTrackStack ?e >=? 0] =>
      destruct (Z.geb_spec (indexTrackStack e) 0); [| lia]
  end;
  unfold execDrawCmd; cbn [deref is_cmd Ascii.eqb Bool.eqb]; cbv iota.

(** X14. The commands that set how a layer is triggered, on the top layer of an
    engine that has a track; a number is the [int] that atoi returns for the
    argument. O never leaves a minimum delay of 0 seconds: "O" and a number
    of 1 or less all give 1. N never leaves a count of 0: "N" and the number
    0 mean forever (-1). "F" asks for a random force (-1) and F<n> for the
    force n, held between 0 and 1000. I turns external triggering on unless
    its argument starts with 0. A<n> takes layer n, held between 0 and 255,
    as the trigger source, and "A" layer 0. *)
Theorem trigger_setting_commands arg segindex e :
  0 <= indexTrackStack e ->
  0 <= indexLayerStack e < Z.of_nat (length (pluginLayers e)) ->
  let top := indexLayerStack e in
  let after (c : ascii) := execCmd (String c arg) segindex e in
  ((after "O"%char).1 = (Status_Success, segindex) /\
   1 <= trigDelayMin (layerAt (after "O"%char).2 top) <= MAX_WORD_VALUE /\
   (isdigit (deref arg) = false \/ atoi arg <= 1 ->
    trigDelayMin (layerAt (after "O"%char).2 top) = 1)) /\
  ((after "N"%char).1 = (Status_Success, segindex) /\
   trigCount (layerAt (after "N"%char).2 top) <> 0 /\
   (isdigit (deref arg) = false \/ atoi arg = 0 ->
    trigCount (layerAt (after "N"%char).2 top) = -1)) /\
  ((after "F"%char).1 = (Status_Success, segindex) /\
   trigForce (layerAt (after "F"%char).2 top)
   = if isdigit (deref arg) then Z.max 0 (Z.min (atoi arg) MAX_FORCE_VALUE)
     else -1) /\
  ((after "I"%char).1 = (Status_Success, segindex) /\
   trigExtern (layerAt (after "I"%char).2 top)
   = negb (Ascii.eqb (deref arg) "0"%char)) /\
  ((after "A"%char).1 = (Status_Success, segindex) /\
   trigSource (layerAt (after "A"%char).2 top)
   = if isdigit (deref arg) then Z.max 0 (Z.min (atoi arg) MAX_BYTE_VALUE)
     else 0).
Proof.
  intros Ht Hl top after. subst top after. cbv beta.
  split_and!.
  - run_draw_cmd Ht. done.
  - run_draw_cmd Ht. cbn [snd]. unfold cmd_O, updTopLayer. cbv zeta.
    rewrite layerAt_updLayer_eq by done.
    cbn [trigDelayMin set_trigDelayMin].
    assert (0 <= to_uint16 (GetNumValue3 arg 1 MAX_WORD_VALUE) < 65536)
      by (unfold to_uint16; apply Z.mod_pos_bound; lia).
    unfold MAX_WORD_VALUE in *.
    destruct (Z.eqb_spec (to_uint16 (GetNumValue3 arg 1 65535)) 0); lia.
  - run_draw_cmd Ht. cbn [snd]. unfold cmd_O, updTopLayer. cbv zeta.
    rewrite layerAt_updLayer_eq by done.
    cbn [trigDelayMin set_trigDelayMin].
    assert (0 <= to_uint16 (GetNumValue3 arg 1 MAX_WORD_VALUE) < 65536)
      by (unfold to_uint16; apply Z.mod_pos_bound; lia).
    unfold MAX_WORD_VALUE in *.
    destruct (Z.eqb_spec (to_uint16 (GetNumValue3 arg 1 65535)) 0); lia.
  - run_draw_cmd Ht. cbn [snd]. unfold cmd_O, updTopLayer. cbv zeta.
    rewrite layerAt_updLayer_eq by done.
    cbn [trigDelayMin set_trigDelayMin].
    intros Harg.
    destruct (GetNumValue3_clips arg 1 MAX_WORD_VALUE) as [Hno Hyes]; [done |].
    destruct (isdigit (deref arg)) eqn:Hd.
    + destruct Harg as [? | Hle]; [done |].
      destruct (Hyes eq_refl) as [-> _]. unfold MAX_WORD_VALUE.
      destruct (Z.le_gt_cases (atoi arg) 0).
      * by rewrite Z.max_l by lia.
      * assert (atoi arg = 1) as -> by lia. reflexivity.
    + rewrite (Hno eq_refl). reflexivity.
  - run_draw_cmd Ht. done.
  - run_draw_cmd Ht. cbn [snd]. unfold cmd_N, updTopLayer. cbv zeta.
    set (e1 := updLayer _ _ e).
    assert (indexLayerStack e1 = indexLayerStack e) as HL1 by done.
    rewrite HL1.
    destruct (Z.eqb_spec (trigCount (layerAt e1 (indexLayerStack e))) 0).
    + rewrite layerAt_updLayer_eq
        by (subst e1; unfold updLayer; cbn; by rewrite length_setZ).
      done.
    + done.
  - run_draw_cmd Ht. cbn [snd]. unfold cmd_N, updTopLayer. cbv zeta.
    set (e1 := updLayer _ _ e).
    assert (indexLayerStack e1 = indexLayerStack e) as HL1 by done.
    rewrite HL1. intros Harg.
    assert (trigCount (layerAt e1 (indexLayerStack e)) = 0) as Hz.
    { subst e1. rewrite layerAt_updLayer_eq by done.
      cbn [trigCount set_trigCount].
      destruct (GetNumValue3_clips arg 0 MAX_WORD_VALUE) as [Hno Hyes]; [done |].
      destruct (isdigit (deref arg)) eqn:Hd.
      - destruct Harg as [? | Hz]; [done |].
        destruct (Hyes eq_refl) as [-> _]. rewrite Hz. reflexivity.
      - by rewrite (Hno eq_refl). }
    rewrite Hz. cbn [Z.eqb].
    rewrite layerAt_updLayer_eq
      by (subst e1; unfold updLayer; cbn; by rewrite length_setZ).
    reflexivity.
  - run_draw_cmd Ht. done.
  - run_draw_cmd Ht. cbn [snd]. unfold cmd_F, updTopLayer.
    destruct (GetNumValue3_clips arg 0 MAX_FORCE_VALUE) as [Hno Hyes]; [done |].
    destruct (isdigit (deref arg)) eqn:Hd;
      rewrite layerAt_updLayer_eq by done;
      cbn [trigForce set_trigForce]; [| done].
    destruct (Hyes eq_refl) as [-> _].
    apply to_short_small. unfold MAX_FORCE_VALUE. lia.
  - run_draw_cmd Ht. done.
  - run_draw_cmd Ht. cbn [snd]. unfold cmd_I, updTopLayer, GetBoolValue.
    destruct (isdigit (deref arg)) eqn:Hd;
      rewrite layerAt_updLayer_eq by done;
      cbn [trigExtern set_trigExtern].
    + destruct (Ascii.eqb (deref arg) "0"%char); [done |].
      by destruct (Ascii.eqb (deref arg) "1"%char).
    + destruct (Ascii.eqb_spec (deref arg) "0"%char) as [Heq | ?]; [| done].
      rewrite Heq in Hd. discriminate.
  - run_draw_cmd Ht. done.
  - run_draw_cmd Ht. cbn [snd]. unfold cmd_A, updTopLayer.
    rewrite layerAt_updLayer_eq by done.
    cbn [trigSource set_trigSource].
    destruct (GetNumValue3_clips arg 0 MAX_BYTE_VALUE) as [Hno Hyes]; [done |].
    destruct (isdigit (deref arg)) eqn:Hd.
    + destruct (Hyes eq_refl) as [-> _].
      apply to_byte_small. unfold MAX_BYTE_VALUE. lia.
    + by rewrite (Hno eq_refl).
Qed.


(** X16. While no track is activated the compositor produces a black display:
    the buffers of the tracks on the stack, whatever they hold, are not
    merged. *)
Theorem nothing_enabled_merges_to_black e :
  indexTrackEnable e < 0 ->
  exists disp,
    mergeBuffers e = Some disp /\
    length disp = length (pDisplayPixels e) /\
    forall b, b < numPixels e * 3 -> nthZ 0 disp b = 0.
Proof.
  intros Hen. exists (memset0 (pDisplayPixels e) (numPixels e * 3)).
  split_and!.
  - unfold mergeBuffers.
    destruct (Z.le_gt_cases (indexTrackStack e + 1) 0) as [Hle | Hgt].
    + unfold seqZ. by replace (Z.to_nat _) with 0%nat by lia.
    + rewrite seqZ_cons by lia. cbn [mergeTracks].
      by destruct (Z.gtb_spec 0 (indexTrackEnable e)); [| lia].
  - apply length_memset0.
  - intros b Hb. rewrite nthZ_memset0.
    by destruct (Z.ltb_spec b (numPixels e * 3)); [| lia].
Qed.

End TriggerSettings.

(** ** The plugin factory *)

Ltac factory_cases H :=
  match type of H with
  | context [match ?id with Z0 => _ | Zpos _ => _ | Zneg _ => _ end] =>
      destruct id as [| q | q]; cbn in H; try discriminate;
      repeat (destruct q as [q | q |]; cbn in H; try discriminate)
  end.

Lemma PluginFactoryCore_makePlugin_id plugin p :
  PluginFactoryCore_makePlugin plugin = Some p -> plugin = PNP_id p.
Proof.
  unfold PluginFactoryCore_makePlugin. intros H.
  factory_cases H; injection H as <-; reflexivity.
Qed.

Lemma PluginFactoryAdv_makePlugin_id plugin p :
  PluginFactoryAdv_makePlugin plugin = Some p -> plugin = PNP_id p.
Proof.
  unfold PluginFactoryAdv_makePlugin, PluginFactoryCore_makePlugin. intros H.
  factory_cases H; injection H as <-; reflexivity.
Qed.

(** X17. The two factories: each plugin class has one number, the advanced
    factory makes every class from its number and nothing else, the core
    factory makes exactly the ten drawing effects (the numbers up to 52), and
    the advanced factory falls back on it, so it makes whatever the core
    factory makes. *)
Theorem plugin_numbers_are_one_to_one plugin p :
  (PluginFactoryAdv_makePlugin plugin = Some p <-> plugin = PNP_id p) /\
  (PluginFactoryCore_makePlugin plugin = Some p <->
   plugin = PNP_id p /\ plugin <= 52) /\
  (PluginFactoryCore_makePlugin plugin = Some p ->
   PluginFactoryAdv_makePlugin plugin = Some p).
Proof.
  split_and!.
  - split; [apply PluginFactoryAdv_makePlugin_id |].
    intros ->. by destruct p.
  - split.
    + intros H. pose proof (PluginFactoryCore_makePlugin_id _ _ H) as ->.
      split; [done |]. destruct p; cbn in *; (lia || discriminate).
    + intros [-> Hle]. destruct p; cbn in *; (reflexivity || lia).
  - intros H. pose proof (PluginFactoryCore_makePlugin_id _ _ H) as ->.
    destruct p; cbn in *; (reflexivity || discriminate).
Qed.

(** ** PNP_CometHeads *)

Section CometHeadsPlugin.
Import CometHeads.
Context {D : Type} {Comets : PixelNutComets D}.
Implicit Types (p : CometHeads.t D).

Lemma maxheads_of_range pixLength : 1 <= maxheads_of pixLength <= 12.
Proof.
  unfold maxheads_of. cbv zeta.
  destruct (Z.ltb_spec (to_uint16 (cdiv pixLength 8)) 1); [lia |].
  destruct (Z.gtb_spec (to_uint16 (cdiv pixLength 8)) 12); lia.
Qed.

(** X18. begin asks the comet class for one head per 8 pixels, never fewer than
    1 nor more than 12, and when that fails and it asked for more than one, it
    asks once more, for a single head; it leaves the plugin with no head
    drawn, waiting for its first trigger. *)
Theorem CometHeads_begin_asks_for_1_to_12_heads id pixlen n p :
  let r := begin id pixlen n p in
  let h := maxheads_of (to_uint16 pixlen) in
  1 <= h <= 12 /\
  (0 <= pixlen < 65536 ->
   h = Z.max 1 (Z.min 12 (pixlen / 8))) /\
  r.2 = (if bool_decide (cometHeadCreate n h = None) && (1 <? h)
         then [h; 1] else [h]) /\
  cdata r.1 = (if bool_decide (cometHeadCreate n h = None) && (1 <? h)
               then cometHeadCreate (S n) 1 else cometHeadCreate n h) /\
  headCount r.1 = 0 /\ firstime r.1 = true /\
  pixLength r.1 = to_uint16 pixlen /\ myid r.1 = to_byte id.
Proof.
  intros r h. subst r h. split; [apply maxheads_of_range |]. split.
  - intros Hp. rewrite to_uint16_small by lia. unfold maxheads_of, cdiv.
    rewrite Z.quot_div_nonneg by lia.
    assert (0 <= pixlen / 8 < 8192) as Hq
      by (split; [apply Z.div_pos; lia | apply Z.div_lt_upper_bound; lia]).
    rewrite to_uint16_small by lia. cbv zeta.
    destruct (Z.ltb_spec (pixlen / 8) 1); [lia |].
    destruct (Z.gtb_spec (pixlen / 8) 12); lia.
  - unfold begin. cbv zeta.
    set (h := maxheads_of (to_uint16 pixlen)).
    destruct (cometHeadCreate n h) as [c |] eqn:Hc.
    + rewrite bool_decide_eq_false_2 by done. by cbn.
    + rewrite bool_decide_eq_true_2 by done. cbn [andb].
      rewrite Z.gtb_ltb. by destruct (1 <? h).
Qed.

Lemma trigger_later force p :
  firstime p = false ->
  let r := trigger force p in
  firstime r.1 = false /\ repMode r.1 = repMode p /\
  forceVal r.1 = to_short force /\
  r.2 = if repMode p then Some (to_short force >=? 0)
        else if to_short force >=? 0 then Some false else None.
Proof.
  intros Hf. unfold trigger. cbv zeta. rewrite Hf.
  destruct (repMode p) eqn:Hr; [done |].
  by destruct (to_short force >=? 0).
Qed.

Lemma last_cons_default {A} (a d : A) l :
  List.last (a :: l) d = List.last l a.
Proof.
  revert a d. induction l as [| b l IH]; intros a d; [done |].
  change (List.last (a :: b :: l) d) with (List.last (b :: l) d).
  by rewrite !IH.
Qed.

Lemma triggers_later fs : forall p,
  firstime p = false ->
  let r := triggers fs p in
  firstime r.1 = false /\ repMode r.1 = repMode p /\
  forceVal r.1 = List.last (map to_short fs) (forceVal p) /\
  r.2 = map (fun f => if repMode p then Some (to_short f >=? 0)
                      else if to_short f >=? 0 then Some false else None) fs.
Proof.
  induction fs as [| f fs IH]; intros p Hf; [done |].
  cbn [triggers]. cbv zeta.
  destruct (trigger_later f p Hf) as (Hf1 & Hr1 & Hv1 & Ho1).
  destruct (IH (trigger f p).1 Hf1) as (Hf2 & Hr2 & Hv2 & Ho2).
  cbn [fst snd map]. rewrite Hf2, Hr2, Hr1, Hv2, Ho2, Ho1, Hr1, Hv1.
  rewrite last_cons_default. by split_and!.
Qed.


(** X20. nextstep hands the kept force to sendForce exactly when the number of
    heads the comet class reports differs from the number the plugin
    remembers, and then remembers the new number. *)
Theorem CometHeads_nextstep_sends_force_on_change d sink p :
  0 <= headCount p < 65536 ->
  let r := nextstep d sink p in
  let count := (cometHeadDraw (cdata p) (myid p) d sink (pixLength p)).1.1 in
  r.2 = (if count =? headCount p then None else Some (forceVal p)) /\
  headCount r.1.1 = to_uint16 count /\
  forceVal r.1.1 = forceVal p /\ repMode r.1.1 = repMode p /\
  firstime r.1.1 = firstime p.
Proof.
  intros Hh r count. subst r count. unfold nextstep. cbv zeta.
  destruct (Z.eqb_spec (cometHeadDraw (cdata p) (myid p) d sink (pixLength p)).1.1
              (headCount p)) as [Heq | Hne]; cbn [negb fst snd headCount
              forceVal repMode firstime]; [| done].
  split_and!; try done. rewrite Heq. by rewrite to_uint16_small.
Qed.

End CometHeadsPlugin.

(** ** External control of the properties *)

Section ExternProps.
Context {P : Type} {Plug : PixelNutPlugin P} {Fact : PluginFactory P}
  {Sup : PixelNutSupport}.
Implicit Types (e : PixelNutEngine P) (k : PluginTrack.t).

(** A loop over distinct tracks whose turn for track [i] rewrites that track
    alone, by a rule the turns do not change, rewrites every track of the
    list by that rule and leaves the others. *)
Lemma foldl_tracks (step : PixelNutEngine P -> Z -> PixelNutEngine P)
    (new : PixelNutEngine P -> PluginTrack.t -> PluginTrack.t) :
  (forall e i, step e i = updTrack i (new e) e \/ 
               (step e i = e /\ new e (trackAt e i) = trackAt e i)) ->
  (forall e i f k, new (updTrack i f e) k = new e k) ->
  forall l, List.NoDup l -> forall e,
    pluginLayers (foldl step e l) = pluginLayers e /\
    settings (foldl step e l) = settings e /\
    forall j, trackAt (foldl step e l) j
              = if bool_decide (j ∈ l)
                   && bool_decide (0 <= j < Z.of_nat (length (pluginTracks e)))
                then new e (trackAt e j) else trackAt e j.
Proof.
  intros Hstep Hnew. induction 1 as [| i l Hi Hl IH]; intros e.
  - cbn [foldl]. split_and!; [done | done |]. intros j.
    by rewrite bool_decide_eq_false_2 by (by intros ?%elem_of_nil).
  - cbn [foldl].
    assert (pluginLayers (step e i) = pluginLayers e /\
            settings (step e i) = settings e /\
            length (pluginTracks (step e i)) = length (pluginTracks e) /\
            (forall k, new (step e i) k = new e k) /\
            forall j, trackAt (step e i) j
                      = if (i =? j)
                           && bool_decide (0 <= j < Z.of_nat (length (pluginTracks e)))
                        then new e (trackAt e j) else trackAt e j)
      as (A1 & A2 & A3 & A4 & A5).
    { destruct (Hstep e i) as [-> | [-> Hid]].
      - split_and!; [done | done | | by intros; apply Hnew |].
        + unfold updTrack. cbn. by rewrite length_setZ.
        + intros j. destruct (Z.eqb_spec i j) as [<- | Hne]; cbn [andb].
          * destruct (decide (0 <= i < Z.of_nat (length (pluginTracks e)))).
            -- rewrite bool_decide_eq_true_2 by done.
               by apply trackAt_updTrack_eq.
            -- rewrite bool_decide_eq_false_2 by done.
               unfold trackAt, updTrack. cbn. by rewrite setZ_out.
          * by apply trackAt_updTrack_ne.
      - split_and!; try done. intros j.
        destruct (Z.eqb_spec i j) as [<- | Hne]; cbn [andb]; [| done].
        by destruct (bool_decide _). }
    destruct (IH (step e i)) as (B1 & B2 & B3).
    split_and!; [congruence | congruence |].
    intros j. rewrite B3, A3, A4, A5.
    destruct (Z.eqb_spec i j) as [<- | Hne]; cbn [andb].
    + rewrite (bool_decide_eq_false_2 (i ∈ l)) by (by rewrite list_elem_of_In).
      rewrite (bool_decide_eq_true_2 (i ∈ i :: l)) by (by left).
      done.
    + destruct (decide (j ∈ l)).
      * rewrite (bool_decide_eq_true_2 (j ∈ l)) by done.
        by rewrite (bool_decide_eq_true_2 (j ∈ i :: l)) by (by right).
      * rewrite (bool_decide_eq_false_2 (j ∈ l)) by done.
        rewrite (bool_decide_eq_false_2 (j ∈ i :: l)); [done |].
        by intros [? | ?]%elem_of_cons.
Qed.

Lemma NoDup_seqZ_list m n : List.NoDup (seqZ m n).
Proof. apply NoDup_ListNoDup, NoDup_seqZ. Qed.

(** SetPropColor, track by track *)
Lemma SetPropColor_tracks e :
  pluginLayers (SetPropColor e) = pluginLayers e /\
  settings (SetPropColor e) = settings e /\
  forall j, trackAt (SetPropColor e) j
    = if (0 <=? j) && (j <=? indexTrackStack e)
         && (j <? Z.of_nat (length (pluginTracks e)))
         && (PluginTrack.disable (trackAt e j) =? 0)
      then
        let k := trackAt e j in
        let hue := negb (Z.land (PluginTrack.ctrlBits k) ExtControlBit_DegreeHue =? 0) in
        let white := negb (Z.land (PluginTrack.ctrlBits k) ExtControlBit_PcentWhite =? 0) in
        let d := PluginTrack.draw k in
        let d := if hue then DrawProps.set_degreeHue (externDegreeHue e) d else d in
        let d := if white then DrawProps.set_pcentWhite (externPcentWhite e) d else d in
        let d := if hue || white then makeColorVals d else d in
        PluginTrack.set_draw d k
      else trackAt e j.
Proof.
  unfold SetPropColor.
  pose (new := fun e k =>
    if negb (PluginTrack.disable k =? 0) then k
    else
      let hue := negb (Z.land (PluginTrack.ctrlBits k) ExtControlBit_DegreeHue =? 0) in
      let white := negb (Z.land (PluginTrack.ctrlBits k) ExtControlBit_PcentWhite =? 0) in
      let d := PluginTrack.draw k in
      let d := if hue then DrawProps.set_degreeHue (externDegreeHue e) d else d in
      let d := if white then DrawProps.set_pcentWhite (externPcentWhite e) d else d in
      let d := if hue || white then makeColorVals d else d in
      PluginTrack.set_draw d k).
  destruct (foldl_tracks SetPropColor_track new) with
    (l := seqZ 0 (indexTrackStack e + 1)) (e := e) as (A1 & A2 & A3).
  - intros e0 i. unfold SetPropColor_track, updDraw, updTrack, new.
    cbv beta zeta.
    destruct (negb (PluginTrack.disable (trackAt e0 i) =? 0)); [by right |].
    left.
    destruct (negb (Z.land _ ExtControlBit_DegreeHue =? 0)),
      (negb (Z.land _ ExtControlBit_PcentWhite =? 0)); reflexivity.
  - done.
  - apply NoDup_seqZ_list.
  - split_and!; [done | done |]. intros j. rewrite A3. unfold new. cbv zeta.
    destruct (Z.leb_spec 0 j), (Z.leb_spec j (indexTrackStack e)),
      (Z.ltb_spec j (Z.of_nat (length (pluginTracks e)))); cbn [andb];
      try (rewrite (bool_decide_eq_false_2 (j ∈ _))
             by (rewrite elem_of_seqZ; lia); done);
      try (rewrite (bool_decide_eq_false_2 (0 <= j < _)) by lia;
           by rewrite andb_false_r).
    rewrite (bool_decide_eq_true_2 (j ∈ _)) by (rewrite elem_of_seqZ; lia).
    rewrite (bool_decide_eq_true_2 (0 <= j < _)) by lia. cbn [andb].
    by destruct (PluginTrack.disable (trackAt e j) =? 0).
Qed.

(** SetPropCount, track by track *)
Lemma SetPropCount_tracks e :
  pluginLayers (SetPropCount e) = pluginLayers e /\
  settings (SetPropCount e) = settings e /\
  forall j, trackAt (SetPropCount e) j
    = if (0 <=? j) && (j <=? indexTrackStack e)
         && (j <? Z.of_nat (length (pluginTracks e)))
         && (PluginTrack.disable (trackAt e j) =? 0)
         && negb (Z.land (PluginTrack.ctrlBits (trackAt e j))
                         ExtControlBit_PixCount =? 0)
      then
        PluginTrack.set_draw
          (DrawProps.set_pixCount
             (to_uint16 (mapValue (externPcentCount e) 0 MAX_PERCENTAGE 1
                                  (PluginTrack.segCount (trackAt e j))))
             (PluginTrack.draw (trackAt e j)))
          (trackAt e j)
      else trackAt e j.
Proof.
  unfold SetPropCount.
  pose (new := fun e k =>
    if negb (PluginTrack.disable k =? 0) then k
    else if negb (Z.land (PluginTrack.ctrlBits k) ExtControlBit_PixCount =? 0)
    then PluginTrack.set_draw
           (DrawProps.set_pixCount
              (to_uint16 (mapValue (externPcentCount e) 0 MAX_PERCENTAGE 1
                                   (PluginTrack.segCount k)))
              (PluginTrack.draw k)) k
    else k).
  destruct (foldl_tracks SetPropCount_track new) with
    (l := seqZ 0 (indexTrackStack e + 1)) (e := e) as (A1 & A2 & A3).
  - intros e0 i. unfold SetPropCount_track, updDraw, updTrack, new.
    cbv beta zeta.
    destruct (negb (PluginTrack.disable (trackAt e0 i) =? 0)); [by right |].
    destruct (negb (Z.land _ ExtControlBit_PixCount =? 0)); [by left | by right].
  - done.
  - apply NoDup_seqZ_list.
  - split_and!; [done | done |]. intros j. rewrite A3. unfold new.
    destruct (Z.leb_spec 0 j), (Z.leb_spec j (indexTrackStack e)),
      (Z.ltb_spec j (Z.of_nat (length (pluginTracks e)))); cbn [andb];
      try (rewrite (bool_decide_eq_false_2 (j ∈ _))
             by (rewrite elem_of_seqZ; lia); done);
      try (rewrite (bool_decide_eq_false_2 (0 <= j < _)) by lia;
           by rewrite andb_false_r).
    rewrite (bool_decide_eq_true_2 (j ∈ _)) by (rewrite elem_of_seqZ; lia).
    rewrite (bool_decide_eq_true_2 (0 <= j < _)) by lia. cbn [andb].
    by destruct (PluginTrack.disable (trackAt e j) =? 0).
Qed.

(** X21. setColorProperty and setCountProperty keep the new values, and touch
    the tracks only in property mode, and then only tracks that are not
    disabled and have the bit of the property set by Q: a track that is
    disabled or has no control bit stays as it is, the colour call never
    changes a pixel count, the count call never changes a hue or a
    whiteness, and in property mode a track of the stack with the hue bit
    (the whiteness bit) gets the hue (the whiteness) the engine has kept. *)
Theorem property_setters_respect_control_bits hue white count e :
  let ec := setColorProperty hue white e in
  let en := setCountProperty count e in
  (externPropMode e = false ->
   pluginTracks ec = pluginTracks e /\ pluginTracks en = pluginTracks e) /\
  (forall i,
     PluginTrack.disable (trackAt e i) <> 0 \/
     PluginTrack.ctrlBits (trackAt e i) = 0 ->
     trackAt ec i = trackAt e i /\ trackAt en i = trackAt e i) /\
  (forall i,
     DrawProps.pixCount (PluginTrack.draw (trackAt ec i))
     = DrawProps.pixCount (PluginTrack.draw (trackAt e i)) /\
     DrawProps.degreeHue (PluginTrack.draw (trackAt en i))
     = DrawProps.degreeHue (PluginTrack.draw (trackAt e i)) /\
     DrawProps.pcentWhite (PluginTrack.draw (trackAt en i))
     = DrawProps.pcentWhite (PluginTrack.draw (trackAt e i))) /\
  (forall i,
     externPropMode e = true ->
     0 <= i <= indexTrackStack e -> i < Z.of_nat (length (pluginTracks e)) ->
     PluginTrack.disable (trackAt e i) = 0 ->
     (Z.land (PluginTrack.ctrlBits (trackAt e i)) ExtControlBit_DegreeHue <> 0 ->
      DrawProps.degreeHue (PluginTrack.draw (trackAt ec i)) = externDegreeHue ec) /\
     (Z.land (PluginTrack.ctrlBits (trackAt e i)) ExtControlBit_PcentWhite <> 0 ->
      DrawProps.pcentWhite (PluginTrack.draw (trackAt ec i)) = externPcentWhite ec)).
Proof.
  intros ec en. subst ec en. unfold setColorProperty, setCountProperty.
  cbv zeta.
  set (e1 := set_externPcentWhite _ (set_externDegreeHue _ e)).
  set (e2 := set_externPcentCount _ e).
  assert (pluginTracks e1 = pluginTracks e) as HT1 by done.
  assert (pluginTracks e2 = pluginTracks e) as HT2 by done.
  assert (indexTrackStack e1 = indexTrackStack e) as HI1 by done.
  assert (externPropMode e1 = externPropMode e) as HM1 by done.
  assert (externPropMode e2 = externPropMode e) as HM2 by done.
  assert (forall i, trackAt e1 i = trackAt e i) as HA1 by done.
  assert (forall i, trackAt e2 i = trackAt e i) as HA2 by done.
  destruct (SetPropColor_tracks e1) as (_ & HS1 & HC).
  destruct (SetPropCount_tracks e2) as (_ & _ & HN).
  assert (externDegreeHue (SetPropColor e1) = externDegreeHue e1 /\
          externPcentWhite (SetPropColor e1) = externPcentWhite e1)
    as [HxH HxW].
  { unfold settings in HS1. by injection HS1. }
  rewrite HM1, HM2. clearbody e1 e2.
  split_and!.
  - intros ->. by split.
  - intros i Hi. split.
    + destruct (externPropMode e); [| by rewrite HA1].
      rewrite HC. cbv zeta. rewrite !HA1.
      destruct Hi as [Hd | Hb].
      * destruct (Z.eqb_spec (PluginTrack.disable (trackAt e i)) 0); [done |].
        by rewrite andb_false_r.
      * rewrite Hb. cbn [Z.land Z.eqb negb orb].
        destruct (_ && _); [| done]. by destruct (trackAt e i).
    + destruct (externPropMode e); [| by rewrite HA2].
      rewrite HN, HA2.
      destruct Hi as [Hd | Hb].
      * destruct (Z.eqb_spec (PluginTrack.disable (trackAt e i)) 0); [done |].
        by rewrite andb_false_r.
      * rewrite Hb. cbn. by rewrite andb_false_r.
  - intros i. split_and!.
    + destruct (externPropMode e); [| by rewrite HA1].
      rewrite HC. cbv zeta. rewrite !HA1. destruct (_ && _); [| done].
      by destruct (negb (Z.land _ ExtControlBit_DegreeHue =? 0)),
        (negb (Z.land _ ExtControlBit_PcentWhite =? 0)).
    + destruct (externPropMode e); [| by rewrite HA2].
      rewrite HN, HA2. by destruct (_ && _).
    + destruct (externPropMode e); [| by rewrite HA2].
      rewrite HN, HA2. by destruct (_ && _).
  - intros i Hmode Hi Hlen Hdis.
    assert (trackAt (SetPropColor e1) i
            = let k := trackAt e i in
              let hue := negb (Z.land (PluginTrack.ctrlBits k) ExtControlBit_DegreeHue =? 0) in
              let white := negb (Z.land (PluginTrack.ctrlBits k) ExtControlBit_PcentWhite =? 0) in
              let d := PluginTrack.draw k in
              let d := if hue then DrawProps.set_degreeHue (externDegreeHue e1) d else d in
              let d := if white then DrawProps.set_pcentWhite (externPcentWhite e1) d else d in
              let d := if hue || white then makeColorVals d else d in
              PluginTrack.set_draw d k) as Hrow.
    { rewrite HC, HI1, HT1. cbv zeta. rewrite !HA1, Hdis.
      destruct (Z.leb_spec 0 i); [| lia].
      destruct (Z.leb_spec i (indexTrackStack e)); [| lia].
      by destruct (Z.ltb_spec i (Z.of_nat (length (pluginTracks e)))); [| lia]. }
    rewrite Hmode, HxH, HxW, Hrow. cbv zeta.
    split; intros Hbit.
    + destruct (Z.eqb_spec (Z.land (PluginTrack.ctrlBits (trackAt e i))
                                   ExtControlBit_DegreeHue) 0); [done |].
      cbn [negb orb].
      by destruct (negb (Z.land _ ExtControlBit_PcentWhite =? 0)).
    + destruct (Z.eqb_spec (Z.land (PluginTrack.ctrlBits (trackAt e i))
                                   ExtControlBit_PcentWhite) 0); [done |].
      cbn [negb orb].
      by destruct (negb (Z.land _ ExtControlBit_DegreeHue =? 0)).
Qed.

End ExternProps.

(** ** The window commands *)

Section WindowCommands.
Context {P : Type} {Plug : PixelNutPlugin P} {Fact : PluginFactory P}
  {Sup : PixelNutSupport}.
Implicit Types (e : PixelNutEngine P).

Ltac run_draw_cmd :=
  unfold execCmd; cbn [deref cmd_arg is_cmd Ascii.eqb Bool.eqb];
  cbv iota zeta;
  match goal with
  | |- context [indexTrackStack ?e >=? 0] =>
      destruct (Z.geb_spec (indexTrackStack e) 0); [| lia]
  end;
  unfold execDrawCmd; cbn [deref is_cmd Ascii.eqb Bool.eqb]; cbv iota.

Lemma updPdraw_tops f e :
  indexTrackStack (updPdraw f e) = indexTrackStack e /\
  length (pluginTracks (updPdraw f e)) = length (pluginTracks e).
Proof.
  unfold updPdraw, updDraw, updTrack. cbn. by rewrite length_setZ.
Qed.

(** X22. U and V on the top track. "U0" draws downwards, "U1" upwards, and U
    with anything else turns the direction round, so that two of them bring
    it back. "V0" ORs the track into the display, "V1" overwrites, and V with
    anything else switches between the two. Nothing else of the draw
    properties changes. *)
Theorem direction_and_blend_commands arg segindex e :
  0 <= indexTrackStack e < Z.of_nat (length (pluginTracks e)) ->
  let c0 := Ascii.eqb (deref arg) "0"%char in
  let c1 := Ascii.eqb (deref arg) "1"%char in
  let ru := execCmd (String "U" arg) segindex e in
  let rv := execCmd (String "V" arg) segindex e in
  ru.1 = (Status_Success, segindex) /\
  pdraw ru.2
  = DrawProps.set_goUpwards
      (if c0 then false else if c1 then true
       else negb (DrawProps.goUpwards (pdraw e))) (pdraw e) /\
  rv.1 = (Status_Success, segindex) /\
  pdraw rv.2
  = DrawProps.set_orPixelValues
      (if c0 then true else if c1 then false
       else negb (DrawProps.orPixelValues (pdraw e))) (pdraw e) /\
  (c0 = false -> c1 = false ->
   pdraw (execCmd (String "U" arg) segindex ru.2).2 = pdraw e /\
   pdraw (execCmd (String "V" arg) segindex rv.2).2 = pdraw e).
Proof.
  intros Ht c0 c1 ru rv. subst c0 c1 ru rv.
  assert (forall e0 : PixelNutEngine P,
            0 <= indexTrackStack e0 < Z.of_nat (length (pluginTracks e0)) ->
            (execCmd (String "U" arg) segindex e0).1 = (Status_Success, segindex) /\
            (execCmd (String "U" arg) segindex e0).2 = cmd_U arg e0 /\
            (execCmd (String "V" arg) segindex e0).1 = (Status_Success, segindex) /\
            (execCmd (String "V" arg) segindex e0).2 = cmd_V arg e0) as Hrun.
  { intros e0 H0. split_and!; run_draw_cmd; reflexivity. }
  destruct (Hrun e Ht) as (HU1 & HU2 & HV1 & HV2).
  rewrite HU1, HU2, HV1, HV2.
  assert (pdraw (cmd_U arg e)
          = DrawProps.set_goUpwards
              (if Ascii.eqb (deref arg) "0"%char then false
               else if Ascii.eqb (deref arg) "1"%char then true
               else negb (DrawProps.goUpwards (pdraw e))) (pdraw e)) as HpU.
  { unfold cmd_U. rewrite pdraw_updPdraw by done. by unfold GetBoolValue. }
  assert (pdraw (cmd_V arg e)
          = DrawProps.set_orPixelValues
              (if Ascii.eqb (deref arg) "0"%char then true
               else if Ascii.eqb (deref arg) "1"%char then false
               else negb (DrawProps.orPixelValues (pdraw e))) (pdraw e)) as HpV.
  { unfold cmd_V. rewrite pdraw_updPdraw by done. unfold GetBoolValue.
    destruct (Ascii.eqb (deref arg) "0"%char); [done |].
    destruct (Ascii.eqb (deref arg) "1"%char); [done |].
    by rewrite negb_involutive. }
  split_and!; [done | done | done | done |].
  intros H0 H1.
  assert (0 <= indexTrackStack (cmd_U arg e)
          < Z.of_nat (length (pluginTracks (cmd_U arg e)))) as HtU
    by (unfold cmd_U; destruct (updPdraw_tops
          (fun d => DrawProps.set_goUpwards
                      (GetBoolValue arg (DrawProps.goUpwards d)) d) e)
          as [-> ->]; done).
  assert (0 <= indexTrackStack (cmd_V arg e)
          < Z.of_nat (length (pluginTracks (cmd_V arg e)))) as HtV
    by (unfold cmd_V; destruct (updPdraw_tops
          (fun d => DrawProps.set_orPixelValues
                      (negb (GetBoolValue arg (negb (DrawProps.orPixelValues d))))
                      d) e)
          as [-> ->]; done).
  destruct (Hrun _ HtU) as (_ & -> & _ & _).
  destruct (Hrun _ HtV) as (_ & _ & _ & ->).
  split.
  - unfold cmd_U at 1. rewrite pdraw_updPdraw by done.
    rewrite HpU. unfold GetBoolValue. rewrite H0, H1.
    destruct (pdraw e). cbn. by rewrite negb_involutive.
  - unfold cmd_V at 1. rewrite pdraw_updPdraw by done.
    rewrite HpV. unfold GetBoolValue. rewrite H0, H1.
    destruct (pdraw e). cbn. by rewrite !negb_involutive.
Qed.

(** X23. Q with a number from 0 to 7 (the [int] that atoi returns for the
    argument) stores it as the control bits of the top track. Outside property mode that is all it does; in property mode the
    track also takes over, at once, the engine's hue and whiteness for the
    bits that are set. *)
Theorem Q_sets_control_bits arg segindex e :
  0 <= indexTrackStack e < Z.of_nat (length (pluginTracks e)) ->
  isdigit (deref arg) = true -> 0 <= atoi arg <= ExtControlBit_All ->
  let r := execCmd (String "Q" arg) segindex e in
  let top := indexTrackStack e in
  r.1 = (Status_Success, segindex) /\
  PluginTrack.ctrlBits (trackAt r.2 top) = atoi arg /\
  (externPropMode e = false ->
   r.2 = updTrack top (PluginTrack.set_ctrlBits (atoi arg)) e) /\
  (externPropMode e = true ->
   (Z.land (atoi arg) ExtControlBit_DegreeHue <> 0 ->
    DrawProps.degreeHue (PluginTrack.draw (trackAt r.2 top))
    = externDegreeHue e) /\
   (Z.land (atoi arg) ExtControlBit_PcentWhite <> 0 ->
    DrawProps.pcentWhite (PluginTrack.draw (trackAt r.2 top))
    = externPcentWhite e)).
Proof.
  intros Ht Hd Hle r top. subst r top.
  destruct Hle as [Hpos Hle]. unfold ExtControlBit_All in Hle.
  assert (GetNumValue arg ExtControlBit_All = atoi arg) as Hnum.
  { destruct (GetNumValue_cases arg ExtControlBit_All)
      as [(_ & _ & Hv) | [[Hf | [Hgt | Hneg]] _]];
      [done | congruence | unfold ExtControlBit_All in Hgt; lia | lia]. }
  assert ((execCmd (String "Q" arg) segindex e).1 = (Status_Success, segindex) /\
          (execCmd (String "Q" arg) segindex e).2 = cmd_Q arg e) as [-> ->]
    by (split; run_draw_cmd; reflexivity).
  unfold cmd_Q. cbv zeta. rewrite Hnum.
  rewrite (to_short_small (atoi arg)) by lia.
  rewrite (to_byte_small (atoi arg)) by lia.
  destruct (Z.geb_spec (atoi arg) 0); [| lia].
  set (e1 := updTrack (indexTrackStack e) (PluginTrack.set_ctrlBits (atoi arg)) e).
  assert (externPropMode e1 = externPropMode e) as -> by done.
  assert (trackAt e1 (indexTrackStack e)
          = PluginTrack.set_ctrlBits (atoi arg) (trackAt e (indexTrackStack e)))
    as He1 by (subst e1; by rewrite trackAt_updTrack_eq).
  assert (indexTrackStack e1 = indexTrackStack e /\
          length (pluginTracks e1) = length (pluginTracks e) /\
          externDegreeHue e1 = externDegreeHue e /\
          externPcentWhite e1 = externPcentWhite e) as (Hi1 & Hl1 & Hh1 & Hw1).
  { subst e1. unfold updTrack. cbn. by rewrite length_setZ. }
  destruct (externPropMode e) eqn:Hmode.
  - (* property mode *)
    assert (forall (f : DrawProps.t -> DrawProps.t) (e0 : PixelNutEngine P),
              indexTrackStack e0 = indexTrackStack e ->
              length (pluginTracks e0) = length (pluginTracks e) ->
              trackAt (updPdraw f e0) (indexTrackStack e)
              = PluginTrack.set_draw
                  (f (PluginTrack.draw (trackAt e0 (indexTrackStack e))))
                  (trackAt e0 (indexTrackStack e)) /\
              indexTrackStack (updPdraw f e0) = indexTrackStack e /\
              length (pluginTracks (updPdraw f e0)) = length (pluginTracks e) /\
              externDegreeHue (updPdraw f e0) = externDegreeHue e0 /\
              externPcentWhite (updPdraw f e0) = externPcentWhite e0) as Hupd.
    { intros f e0 H0 H1. unfold updPdraw, updDraw. rewrite H0.
      rewrite trackAt_updTrack_eq by lia.
      unfold updTrack. cbn. by rewrite length_setZ. }
    set (e2 := if negb (Z.land (atoi arg) ExtControlBit_DegreeHue =? 0)
               then updPdraw (DrawProps.set_degreeHue (externDegreeHue e1)) e1
               else e1).
    assert (indexTrackStack e2 = indexTrackStack e /\
            length (pluginTracks e2) = length (pluginTracks e) /\
            externPcentWhite e2 = externPcentWhite e /\
            PluginTrack.ctrlBits (trackAt e2 (indexTrackStack e)) = atoi arg /\
            (Z.land (atoi arg) ExtControlBit_DegreeHue <> 0 ->
             DrawProps.degreeHue (PluginTrack.draw (trackAt e2 (indexTrackStack e)))
             = externDegreeHue e)) as (Hi2 & Hl2 & Hw2 & Hc2 & Hh2).
    { subst e2.
      destruct (Z.eqb_spec (Z.land (atoi arg) ExtControlBit_DegreeHue) 0);
        cbn [negb].
      - split_and!; try done. by rewrite He1.
      - destruct (Hupd (DrawProps.set_degreeHue (externDegreeHue e1)) e1 Hi1 Hl1)
          as (-> & -> & -> & _ & ->).
        split_and!; try done. by rewrite He1. }
    clearbody e2.
    set (e3 := if negb (Z.land (atoi arg) ExtControlBit_PcentWhite =? 0)
               then updPdraw (DrawProps.set_pcentWhite (externPcentWhite e2)) e2
               else e2).
    assert (indexTrackStack e3 = indexTrackStack e /\
            length (pluginTracks e3) = length (pluginTracks e) /\
            PluginTrack.ctrlBits (trackAt e3 (indexTrackStack e)) = atoi arg /\
            (Z.land (atoi arg) ExtControlBit_DegreeHue <> 0 ->
             DrawProps.degreeHue (PluginTrack.draw (trackAt e3 (indexTrackStack e)))
             = externDegreeHue e) /\
            (Z.land (atoi arg) ExtControlBit_PcentWhite <> 0 ->
             DrawProps.pcentWhite (PluginTrack.draw (trackAt e3 (indexTrackStack e)))
             = externPcentWhite e)) as (Hi3 & Hl3 & Hc3 & Hh3 & Hw3).
    { subst e3.
      destruct (Z.eqb_spec (Z.land (atoi arg) ExtControlBit_PcentWhite) 0);
        cbn [negb].
      - by split_and!.
      - destruct (Hupd (DrawProps.set_pcentWhite (externPcentWhite e2)) e2 Hi2 Hl2)
          as (-> & -> & -> & _ & _).
        split_and!; try done; intros _; cbn; exact Hw2. }
    clearbody e3.
    set (e4 := if negb (Z.land (atoi arg) ExtControlBit_PixCount =? 0)
               then updPdraw _ e3 else e3).
    assert (indexTrackStack e4 = indexTrackStack e /\
            length (pluginTracks e4) = length (pluginTracks e) /\
            PluginTrack.ctrlBits (trackAt e4 (indexTrackStack e)) = atoi arg /\
            (Z.land (atoi arg) ExtControlBit_DegreeHue <> 0 ->
             DrawProps.degreeHue (PluginTrack.draw (trackAt e4 (indexTrackStack e)))
             = externDegreeHue e) /\
            (Z.land (atoi arg) ExtControlBit_PcentWhite <> 0 ->
             DrawProps.pcentWhite (PluginTrack.draw (trackAt e4 (indexTrackStack e)))
             = externPcentWhite e)) as (Hi4 & Hl4 & Hc4 & Hh4 & Hw4).
    { subst e4.
      destruct (Z.eqb_spec (Z.land (atoi arg) ExtControlBit_PixCount) 0);
        cbn [negb].
      - by split_and!.
      - match goal with |- context [updPdraw ?f e3] =>
          destruct (Hupd f e3 Hi3 Hl3) as (-> & -> & -> & _ & _) end.
        by split_and!. }
    clearbody e4.
    destruct (Hupd makeColorVals e4 Hi4 Hl4) as (Hrow & _).
    cbn [fst snd]. rewrite Hrow.
    split_and!; [done | cbn; exact Hc4 | done |].
    intros _. split; intros Hbit; cbn; [by apply Hh4 | by apply Hw4].
  - cbn [fst snd]. split_and!; [done | by rewrite He1 | done | done].
Qed.

End WindowCommands.

Section CompositorOrder.
Context {P : Type} {Plug : PixelNutPlugin P}.
Implicit Types (e : PixelNutEngine P).

(** X24. On an engine the compositor can run on ([compositor_ready]: a strip
    of 1 to 10922 pixels, and every contributing track with its segment and
    its window on the strip and the source pixels of the window inside its
    redraw buffer), the compositor merges the contributing tracks in the
    order of the stack, each with its own blending, starting from a black
    display; so the top contributing track has the last word: where it
    overwrites and the source pixel behind a display pixel is not black, the
    display pixel is that source pixel, whatever the tracks below drew
    there. *)
Theorem compositor_top_track_has_the_last_word e below t :
  compositor_ready e = true ->
  contributing e = below ++ [t] ->
  exists disp',
    mergeBuffers e = Some disp' /\
    (forall d c, 0 <= d < numPixels e -> 0 <= c < 3 ->
       nthZ 0 disp' (3 * d + c)
       = merged_byte (numPixels e) (trackAt e t) d c
           (foldl (fun acc i => merged_byte (numPixels e) (trackAt e i) d c acc)
                  0 below)) /\
    (forall d s src c,
       0 <= d < numPixels e -> 0 <= c < 3 ->
       DrawProps.orPixelValues (PluginTrack.draw (trackAt e t)) = false ->
       PluginTrack.pRedrawBuff (trackAt e t) = Some src ->
       window_source (numPixels e) (trackAt e t) d = Some s ->
       nthZ 0 src (3 * s) <> 0 \/ nthZ 0 src (3 * s + 1) <> 0
       \/ nthZ 0 src (3 * s + 2) <> 0 ->
       nthZ 0 disp' (3 * d + c) = nthZ 0 src (3 * s + c)).
Proof.
  intros Hready Hc.
  destruct (mergeBuffers_spec e Hready) as (disp' & Hrun & _ & Hb).
  exists disp'. split; [exact Hrun |].
  assert (forall d c, 0 <= d < numPixels e -> 0 <= c < 3 ->
            nthZ 0 disp' (3 * d + c)
            = merged_byte (numPixels e) (trackAt e t) d c
                (foldl (fun acc i => merged_byte (numPixels e) (trackAt e i) d c acc)
                       0 below)) as Hform.
  { intros d c Hd Hcc. rewrite (Hb d c Hd Hcc), Hc. by rewrite foldl_app. }
  split; [exact Hform |].
  intros d s src c Hd Hcc Hor Hsrc Hw Hnb.
  rewrite (Hform d c Hd Hcc). unfold merged_byte, blend_byte.
  rewrite Hsrc, Hw, Hor.
  destruct (Z.eqb_spec (nthZ 0 src (3 * s)) 0),
    (Z.eqb_spec (nthZ 0 src (3 * s + 1)) 0),
    (Z.eqb_spec (nthZ 0 src (3 * s + 2)) 0); cbn [andb]; try done.
  by destruct Hnb as [? | [? | ?]].
Qed.

End CompositorOrder.

(** ** Layers that have not been triggered *)

Section IdleLayers.
Context {P : Type} {Plug : PixelNutPlugin P} {Fact : PluginFactory P}
  {Sup : PixelNutSupport}.
Implicit Types (e : PixelNutEngine P) (L : PluginLayer P).

Lemma idle_refl j e : trigActive (layerAt e j) = false -> idle j e e.
Proof. by repeat split. Qed.

Lemma idle_trans j e1 e2 e3 : idle j e1 e2 -> idle j e2 e3 -> idle j e1 e3.
Proof.
  intros (A1 & A2 & A3 & A4 & A5) (B1 & B2 & B3 & B4 & B5).
  split_and!; congruence.
Qed.

(** A step that changes no layer's [trigActive], logs no nextstep of layer
    [j], and keeps the size of the layer stack. *)
Lemma idle_same j e e' :
  (forall k, trigActive (layerAt e' k) = trigActive (layerAt e k)) ->
  nextsteps j (events e') = nextsteps j (events e) ->
  autoFires j (events e') = autoFires j (events e) ->
  indexLayerStack e' = indexLayerStack e ->
  length (pluginLayers e') = length (pluginLayers e) ->
  trigActive (layerAt e j) = false -> idle j e e'.
Proof. intros H1 H2 H2' H3 H4 H. split_and!; try done. by rewrite H1. Qed.

Lemma layers_storeSink out e : pluginLayers (storeSink out e) = pluginLayers e.
Proof.
  unfold storeSink. destruct (pDrawPixels e), out; try done.
  by destruct (PluginTrack.pRedrawBuff _).
Qed.

Lemma top_storeSink out e : indexLayerStack (storeSink out e) = indexLayerStack e.
Proof.
  unfold storeSink. destruct (pDrawPixels e), out; try done.
  by destruct (PluginTrack.pRedrawBuff _).
Qed.

Lemma length_updLayer i f e :
  length (pluginLayers (updLayer i f e)) = length (pluginLayers e).
Proof. unfold updLayer. cbn. by rewrite length_setZ. Qed.

(** Calls of a plugin change the plugin of the layer and the draw
    properties and pixels of the track, nothing else of the layers. *)
Lemma callTrigger_layers lay trk force e :
  (forall k, trigActive (layerAt (callTrigger lay trk force e) k)
             = trigActive (layerAt e k)) /\
  indexLayerStack (callTrigger lay trk force e) = indexLayerStack e /\
  length (pluginLayers (callTrigger lay trk force e))
  = length (pluginLayers e).
Proof.
  unfold callTrigger. cbv zeta.
  change (layerAt (logEvent (EvTrigger lay force) e) lay) with (layerAt e lay).
  destruct (pPlugin (layerAt e lay)) as [pl |]; [| by split_and!].
  destruct (trigger _ _ _ _) as [[p' d'] out].
  split_and!.
  - intros k. unfold layerAt at 1. rewrite layers_storeSink.
    change (nthZ zeroLayer (pluginLayers (updDraw trk (fun _ => d') ?x)) k)
      with (layerAt x k).
    by rewrite (field_updLayer trigActive).
  - by rewrite top_storeSink.
  - rewrite layers_storeSink.
    change (pluginLayers (updDraw trk (fun _ => d') ?x)) with (pluginLayers x).
    by rewrite length_updLayer.
Qed.

Lemma callNextstep_layers lay trk e :
  (forall k, trigActive (layerAt (callNextstep lay trk e) k)
             = trigActive (layerAt e k)) /\
  indexLayerStack (callNextstep lay trk e) = indexLayerStack e /\
  length (pluginLayers (callNextstep lay trk e)) = length (pluginLayers e) /\
  events (callNextstep lay trk e) = EvNextstep lay :: events e.
Proof.
  unfold callNextstep. cbv zeta.
  change (layerAt (logEvent (EvNextstep lay) e) lay) with (layerAt e lay).
  destruct (pPlugin (layerAt e lay)) as [pl |]; [| by split_and!].
  destruct (nextstep _ _ _) as [[p' d'] out].
  split_and!.
  - intros k. unfold layerAt at 1. rewrite layers_storeSink.
    change (nthZ zeroLayer (pluginLayers (updDraw trk (fun _ => d') ?x)) k)
      with (layerAt x k).
    by rewrite (field_updLayer trigActive).
  - by rewrite top_storeSink.
  - rewrite layers_storeSink.
    change (pluginLayers (updDraw trk (fun _ => d') ?x)) with (pluginLayers x).
    by rewrite length_updLayer.
  - by rewrite events_storeSink.
Qed.

Lemma RestorePropVals_layers t a b c e :
  pluginLayers (RestorePropVals t a b c e) = pluginLayers e /\
  indexLayerStack (RestorePropVals t a b c e) = indexLayerStack e.
Proof.
  unfold RestorePropVals. cbv zeta.
  destruct (negb _); [done |].
  by repeat match goal with
            | |- context [let '(_, _) := ?x in _] => destruct x
            | |- context [if ?b then _ else _] => destruct b
            end.
Qed.

Lemma nextsteps_app j evs1 evs2 :
  (forall ev, In ev evs1 -> ev <> EvNextstep j) ->
  nextsteps j (evs1 ++ evs2) = nextsteps j evs2.
Proof.
  induction evs1 as [| ev evs1 IH]; intros H; [done |].
  cbn [app nextsteps].
  rewrite IH by (intros ? ?; apply H; by right).
  destruct ev; try done.
  destruct (Z.eqb_spec lay j) as [-> | ?]; [| done].
  exfalso. by apply (H (EvNextstep j)); [left |].
Qed.

(** Triggering another layer leaves layer [j] untriggered. *)
Lemma idle_triggerLayer j layer force e :
  to_byte layer <> j ->
  trigActive (layerAt e j) = false -> idle j e (triggerLayer layer force e).
Proof.
  intros Hne Hj.
  split_and!.
  - unfold triggerLayer, getMsecs. cbv zeta.
    rewrite layerAt_updLayer_ne by done.
    set (e1 := callTrigger _ _ _ _).
    assert (trigActive (layerAt e1 j) = false) as H1.
    { subst e1. destruct (callTrigger_layers (to_byte layer)
        (track (layerAt e (to_byte layer))) (to_short force)
        (set_pDrawPixels
           (if negb (isRedraw (pPlugin (layerAt e (to_byte layer))))
            then SinkNull
            else SinkTrack (track (layerAt e (to_byte layer)))) e)) as [-> _].
      exact Hj. }
    clearbody e1.
    set (e2 := set_pDrawPixels (pDrawPixels e) e1).
    assert (trigActive (layerAt e2 j) = false) as H2 by exact H1.
    clearbody e2.
    set (e3 := if externPropMode e2 then _ else e2).
    assert (trigActive (layerAt e3 j) = false) as H3.
    { subst e3. destruct (externPropMode e2); [| done].
      match goal with
      | |- context [RestorePropVals ?t ?a ?b ?c e2] =>
          destruct (RestorePropVals_layers t a b c e2) as [HL _]
      end.
      match goal with
      | |- trigActive (layerAt ?x j) = false =>
          change (layerAt x j) with (nthZ zeroLayer (pluginLayers x) j)
      end.
      rewrite HL. exact H2. }
    clearbody e3.
    by destruct (negb (negb _)).
  - rewrite events_triggerLayer. reflexivity.
  - rewrite events_triggerLayer. reflexivity.
  - apply (keeps_indexLayerStack e), keeps_triggerLayer, keeps_refl.
  - apply (keeps_length e), keeps_triggerLayer, keeps_refl.
Qed.

Lemma idle_updLayer j i f e :
  (forall L, trigActive (f L) = trigActive L) ->
  trigActive (layerAt e j) = false -> idle j e (updLayer i f e).
Proof.
  intros Hf Hj. apply idle_same; try done.
  - intros k. by apply (field_updLayer trigActive).
  - apply length_updLayer.
Qed.

Lemma idle_random j lo hi e :
  trigActive (layerAt e j) = false -> idle j e (random lo hi e).2.
Proof.
  intros Hj. apply idle_same; try done.
  - intros k. by rewrite layerAt_random.
  - by rewrite events_random.
  - by rewrite events_random.
  - apply (dims_indexLayerStack _ _ (dims_random lo hi e)).
  - apply (dims_length _ _ (dims_random lo hi e)).
Qed.

Lemma idle_CheckAutoTrigger_layer j r i e :
  0 <= i < 256 ->
  trigActive (layerAt e j) = false ->
  idle j e (CheckAutoTrigger_layer r i e).
Proof.
  intros Hi Hj. unfold CheckAutoTrigger_layer. cbv zeta.
  assert (idle j e (rebaseTrigger r i e)) as I1.
  { unfold rebaseTrigger. destruct (_ && _); [| by apply idle_refl].
    by apply idle_updLayer. }
  set (e1 := rebaseTrigger r i e) in *. clearbody e1.
  destruct (autoTriggerDue i e1) eqn:Hdue; [| exact I1].
  assert (i <> j) as Hne.
  { intros ->. unfold autoTriggerDue in Hdue. cbv zeta in Hdue.
    destruct I1 as [Hf _]. rewrite Hf in Hdue. discriminate. }
  eapply idle_trans; [exact I1 |]. destruct I1 as [Hj1 _].
  assert (idle j e1 (autoTrigger_fire i e1)) as I2.
  { unfold autoTrigger_fire. cbv zeta.
    set (e2 := logEvent (EvAutoTrigger i) e1).
    assert (idle j e1 e2) as Ia.
    { apply idle_same; try done. subst e2. rewrite logEvent_events.
      cbn [autoFires]. by destruct (Z.eqb_spec i j). }
    set (rr := if trigForce (layerAt e2 i) >=? 0 then _ else _).
    assert (idle j e2 rr.2) as Ib.
    { subst rr. destruct (_ >=? 0); [by apply idle_refl |].
      by apply idle_random. }
    eapply idle_trans; [exact Ia |]. eapply idle_trans; [exact Ib |].
    apply idle_triggerLayer; [by rewrite to_byte_small | by destruct Ib]. }
  eapply idle_trans; [exact I2 |]. destruct I2 as [Hj2 _].
  set (e2 := autoTrigger_fire i e1) in *. clearbody e2.
  assert (idle j e2 (autoTrigger_rearm i e2)) as I3.
  { unfold autoTrigger_rearm. cbv zeta.
    set (rr := random _ _ e2).
    assert (idle j e2 rr.2) as Ia by (by apply idle_random).
    eapply idle_trans; [exact Ia |].
    apply idle_updLayer; [done | by destruct Ia]. }
  eapply idle_trans; [exact I3 |]. destruct I3 as [Hj3 _].
  unfold autoTrigger_count.
  destruct (_ >? 0); [| by apply idle_refl].
  by apply idle_updLayer.
Qed.

Lemma idle_CheckAutoTrigger_loop j r layers : forall e,
  (forall i, In i layers -> 0 <= i < 256) ->
  trigActive (layerAt e j) = false ->
  idle j e (CheckAutoTrigger_loop r layers e).
Proof.
  induction layers as [| i layers IH]; intros e Hl Hj; [by apply idle_refl |].
  cbn [CheckAutoTrigger_loop].
  destruct (_ >? _); [by apply idle_refl |].
  assert (idle j e (CheckAutoTrigger_layer r i e)) as I1
    by (apply idle_CheckAutoTrigger_layer; [apply Hl; by left | done]).
  eapply idle_trans; [exact I1 |].
  apply IH; [intros ? ?; apply Hl; by right | by destruct I1].
Qed.

Lemma idle_set e e' j :
  pluginLayers e' = pluginLayers e -> events e' = events e ->
  indexLayerStack e' = indexLayerStack e ->
  trigActive (layerAt e j) = false -> idle j e e'.
Proof.
  intros HL HE HT Hj. unfold idle, layerAt. by rewrite HL, !HE, HT.
Qed.

Lemma idle_predraw_loop j i (layers : list Z) : forall e,
  trigActive (layerAt e j) = false ->
  idle j e
    (foldl (fun e k =>
              if (track (layerAt e k) =? i) && trigActive (layerAt e k)
                 && negb (isRedraw (pPlugin (layerAt e k)))
              then callNextstep k i e else e) e layers).
Proof.
  induction layers as [| k layers IH]; intros e Hj; [by apply idle_refl |].
  cbn [foldl].
  set (e1 := if (track (layerAt e k) =? i) && trigActive (layerAt e k)
                && negb (isRedraw (pPlugin (layerAt e k)))
             then callNextstep k i e else e).
  assert (idle j e e1) as I1.
  { subst e1.
    destruct (trigActive (layerAt e k)) eqn:Hk;
      [| rewrite andb_false_r; by apply idle_refl].
    destruct (_ && _); [| by apply idle_refl].
    destruct (callNextstep_layers k i e) as (Ha & Ht & Hl & Hev).
    split_and!; [by rewrite Ha | | by rewrite Hev | done | done].
    rewrite Hev. cbn [nextsteps].
    destruct (Z.eqb_spec k j) as [-> | ?]; [congruence | done]. }
  eapply idle_trans; [exact I1 |]. apply IH. by destruct I1.
Qed.

Lemma idle_redrawTrack j r i e :
  trigActive (layerAt e j) = false -> idle j e (redrawTrack r i e).2.
Proof.
  intros Hj. unfold redrawTrack. cbv zeta.
  destruct (negb (isRedraw _)); [by apply idle_refl |].
  set (e1 := if r
             then updTrack i (PluginTrack.set_msTimeRedraw (timePrevUpdate e)) e
             else e).
  assert (idle j e e1) as I1
    by (subst e1; destruct r; [by apply idle_set | by apply idle_refl]).
  assert (layerAt e1 (PluginTrack.layer (trackAt e i))
          = layerAt e (PluginTrack.layer (trackAt e i))) as Hlay
    by (subst e1; by destruct r).
  destruct (negb (trigActive (layerAt e1 _))) eqn:Hact; [exact I1 |].
  destruct (_ >? _); [exact I1 |]. cbn [snd].
  apply negb_false_iff in Hact.
  assert (PluginTrack.layer (trackAt e i) <> j) as Hne.
  { intros Heq. rewrite Heq in Hact. destruct I1 as [Hf _]. congruence. }
  eapply idle_trans; [exact I1 |]. destruct I1 as [Hj1 _].
  set (lay := PluginTrack.layer (trackAt e i)) in *.
  set (saved := savedProps i e1). clearbody saved.
  clearbody e1.
  set (e2 := set_pDrawPixels SinkNull e1).
  assert (idle j e1 e2) as I2 by (by apply idle_set).
  eapply idle_trans; [exact I2 |]. destruct I2 as [Hj2 _].
  change (indexLayerStack e2) with (indexLayerStack e1).
  set (e3 := foldl _ e2 _).
  assert (idle j e2 e3) as I3 by (by apply idle_predraw_loop).
  eapply idle_trans; [exact I3 |]. destruct I3 as [Hj3 _]. clearbody e3.
  set (e4 := if externPropMode e3 then _ else e3).
  assert (idle j e3 e4) as I4.
  { subst e4. destruct (externPropMode e3); [| by apply idle_refl].
    destruct (RestorePropVals_layers i saved.1.1 saved.1.2 saved.2 e3)
      as [HL HT].
    apply idle_set; [done | apply events_RestorePropVals | done | done]. }
  eapply idle_trans; [exact I4 |]. destruct I4 as [Hj4 _]. clearbody e4.
  set (e5 := set_pDrawPixels (SinkTrack i) e4).
  assert (idle j e4 e5) as I5 by (by apply idle_set).
  eapply idle_trans; [exact I5 |]. destruct I5 as [Hj5 _]. clearbody e5.
  set (e6 := callNextstep lay i e5).
  assert (idle j e5 e6) as I6.
  { subst e6. destruct (callNextstep_layers lay i e5) as (Ha & Ht & Hl & Hev).
    split_and!; [by rewrite Ha | | by rewrite Hev | done | done].
    rewrite Hev. cbn [nextsteps].
    by destruct (Z.eqb_spec lay j). }
  eapply idle_trans; [exact I6 |]. destruct I6 as [Hj6 _]. clearbody e6.
  set (e7 := set_pDrawPixels SinkDisplay e6).
  assert (idle j e6 e7) as I7 by (by apply idle_set).
  eapply idle_trans; [exact I7 |]. destruct I7 as [Hj7 _]. clearbody e7.
  by apply idle_set.
Qed.

Lemma idle_redrawTracks j r tracks : forall doshow e,
  trigActive (layerAt e j) = false ->
  idle j e (redrawTracks r tracks doshow e).2.
Proof.
  induction tracks as [| i tracks IH]; intros doshow e Hj;
    [by apply idle_refl |].
  cbn [redrawTracks].
  destruct (_ >? _); [by apply idle_refl |].
  pose proof (idle_redrawTrack j r i e Hj) as I1.
  destruct (redrawTrack r i e) as [drew e1]. cbn [snd] in I1.
  eapply idle_trans; [exact I1 |]. apply IH. by destruct I1.
Qed.

Lemma idle_updateEffects j e r :
  indexLayerStack e < 256 ->
  updateEffects e = Some r ->
  trigActive (layerAt e j) = false -> idle j e r.2.
Proof.
  intros H256 Hr Hj. unfold updateEffects, getMsecs in Hr.
  cbv zeta in Hr. cbn [fst snd] in Hr.
  set (e0 := set_timePrevUpdate _ (tick e)) in Hr.
  assert (idle j e e0) as I0 by (by apply idle_set).
  set (e1 := CheckAutoTrigger _ e0) in Hr.
  assert (idle j e0 e1) as I1.
  { subst e1. unfold CheckAutoTrigger. apply idle_CheckAutoTrigger_loop.
    - intros i Hi%In_seqZ. change (indexLayerStack e0) with (indexLayerStack e) in Hi.
      lia.
    - by destruct I0. }
  clearbody e0. clearbody e1.
  set (rr := redrawTracks _ _ _ e1) in Hr.
  assert (idle j e1 rr.2) as I2
    by (subst rr; apply idle_redrawTracks; by destruct I1).
  clearbody rr.
  assert (idle j e r.2); [| done].
  eapply idle_trans; [exact I0 |]. eapply idle_trans; [exact I1 |].
  destruct rr.1.
  - destruct (mergeBuffers rr.2) as [disp |]; [| done].
    cbn [mbind option_bind] in Hr. injection Hr as <-. cbn [snd].
    eapply idle_trans; [exact I2 |]. apply idle_set; try done. by destruct I2.
  - by injection Hr as <-.
Qed.

(** updateEffects never takes back a trigger: a layer that has been
    triggered still is afterwards. *)
Lemma active_CheckAutoTrigger_layer r i e j :
  trigActive (layerAt e j) = true ->
  trigActive (layerAt (CheckAutoTrigger_layer r i e) j) = true.
Proof.
  intros Hj. unfold CheckAutoTrigger_layer. cbv zeta.
  assert (trigActive (layerAt (rebaseTrigger r i e) j) = true) as H1.
  { unfold rebaseTrigger. destruct (_ && _); [| done].
    by rewrite (field_updLayer trigActive). }
  set (e1 := rebaseTrigger r i e) in *. clearbody e1.
  destruct (autoTriggerDue i e1); [| done].
  assert (trigActive (layerAt (autoTrigger_fire i e1) j) = true) as H2.
  { apply (keeps_active _ _ (autoTrigger_fire_keeps i e1)).
    by rewrite layerAt_logEvent. }
  set (e2 := autoTrigger_fire i e1) in *. clearbody e2.
  assert (trigActive (layerAt (autoTrigger_rearm i e2) j) = true) as H3.
  { unfold autoTrigger_rearm. cbv zeta.
    rewrite (field_updLayer trigActive) by done. by rewrite layerAt_random. }
  set (e3 := autoTrigger_rearm i e2) in *. clearbody e3.
  unfold autoTrigger_count. destruct (_ >? 0); [| done].
  by rewrite (field_updLayer trigActive).
Qed.

Lemma active_CheckAutoTrigger_loop r layers j : forall e,
  trigActive (layerAt e j) = true ->
  trigActive (layerAt (CheckAutoTrigger_loop r layers e) j) = true.
Proof.
  induction layers as [| i layers IH]; intros e Hj; [done |].
  cbn [CheckAutoTrigger_loop]. destruct (_ >? _); [done |].
  by apply IH, active_CheckAutoTrigger_layer.
Qed.

Lemma active_updateEffects j e r :
  updateEffects e = Some r ->
  trigActive (layerAt e j) = true -> trigActive (layerAt r.2 j) = true.
Proof.
  intros Hr Hj.
  apply (keeps_active _ _ (updateEffects_steps e r Hr)).
  unfold CheckAutoTrigger. by apply active_CheckAutoTrigger_loop.
Qed.

Lemma active_updateEffects_n j : forall n e e_n,
  updateEffects_n n e = Some e_n ->
  trigActive (layerAt e j) = true -> trigActive (layerAt e_n j) = true.
Proof.
  induction n as [| n IH]; intros e e_n Hrun Hj.
  - cbn in Hrun. by injection Hrun as <-.
  - cbn [updateEffects_n] in Hrun.
    destruct (updateEffects e) as [r |] eqn:Hr; [| done].
    cbn [mbind option_bind] in Hrun.
    apply (IH r.2 e_n Hrun). by apply (active_updateEffects j e r).
Qed.

Lemma untriggered_before j : forall n e e_n,
  indexLayerStack e < 256 ->
  updateEffects_n n e = Some e_n ->
  trigActive (layerAt e j) = false ->
  trigActive (layerAt e_n j) = false /\
  nextsteps j (events e_n) = nextsteps j (events e) /\
  autoFires j (events e_n) = autoFires j (events e).
Proof.
  induction n as [| n IH]; intros e e_n H256 Hrun Hj.
  - cbn in Hrun. injection Hrun as <-. by split_and!.
  - cbn [updateEffects_n] in Hrun.
    destruct (updateEffects e) as [r |] eqn:Hr; [| done].
    cbn [mbind option_bind] in Hrun.
    destruct (idle_updateEffects j e r H256 Hr Hj)
      as (Hj1 & Hn1 & Hf1 & Ht1 & Hl1).
    destruct (IH r.2 e_n) as (Hj2 & Hn2 & Hf2); [lia | done | done |].
    split_and!; [done | congruence | congruence].
Qed.


End IdleLayers.

(** ** The theorems at work on the scenarios *)

Local Open Scope string_scope.

Lemma numeric_argument_parsers_witness :
  GetNumValue3 "250" 7 100 = Z.max 0 (Z.min (atoi "250") 100) /\
  GetNumValue3 "x" 7 100 = 7 /\
  (GetNumValue "4294967346" 100 = -1 <->
   100 < atoi "4294967346" \/ atoi "4294967346" < 0).
Proof.
  destruct (numeric_argument_parsers "250" 7 100) as [_ Hyes]; [lia |].
  destruct (numeric_argument_parsers "x" 7 100) as [Hno _]; [lia |].
  destruct (numeric_argument_parsers "4294967346" 7 100) as [_ Hbig]; [lia |].
  assert (isdigit (deref "250") = true) as H1 by run.
  assert (isdigit (deref "x") = false) as H2 by run.
  assert (isdigit (deref "4294967346") = true) as H3 by run.
  split_and!.
  - exact (proj1 (proj2 (Hyes H1))).
  - exact (proj2 (Hno H2)).
  - exact (proj1 (proj2 (proj2 (proj2 (Hbig H3))))).
Defined.

Lemma execCmdStr_blank_witness :
  execCmdStr (Sup := Plat10) "   " two_tracks = (Status_Success, two_tracks).
Proof.
  apply (execCmdStr_blank_is_ignored (Sup := Plat10)). run.
Defined.

Lemma execCmd_rejects_witness :
  execCmd (Sup := Plat10) "Z9" 0 two_tracks = (Status_Error_BadCmd, 0, two_tracks) /\
  execCmd (Sup := Plat10) "H9" 0 strip10 = (Status_Error_BadCmd, 0, strip10).
Proof.
  split.
  - apply (execCmd_rejects_without_change (Sup := Plat10)). left. run.
  - apply (execCmd_rejects_without_change (Sup := Plat10)). right. run.
Defined.

Lemma stack_in_bounds_witness :
  stack_in_bounds (execCmdStr (Sup := Plat10) "E0 E100 E0 E0 E0 G" two_tracks).2.
Proof.
  apply (execCmdStr_keeps_stack_in_bounds (Sup := Plat10)). run.
Defined.

Lemma segment_staging_witness :
  execCmd (Sup := Plat10) "X4" 0 strip10
  = (Status_Success, 0, set_segOffset 4 strip10) /\
  execCmd (Sup := Plat10) "Y3" 0 (set_segOffset 4 strip10)
  = (Status_Success, 1, set_segCount 3 (set_segOffset 4 strip10)) /\
  execCmd (Sup := Plat10) "Y7" 0 (set_segOffset 4 strip10)
  = (Status_Success, 0, set_segCount 10 (set_segOffset 4 strip10)).
Proof.
  assert (1 <= numPixels strip10) as H by run.
  destruct (segment_staging_stays_on_strip (Sup := Plat10)
              "4" "3" 0 strip10 H) as (HX & _ & HY & _).
  destruct (segment_staging_stays_on_strip (Sup := Plat10)
              "4" "7" 0 strip10 H) as (_ & _ & HY7 & _).
  rewrite HX in HY, HY7. cbn [snd] in HY, HY7.
  split_and!.
  - etrans; [exact HX |]. vm_compute. reflexivity.
  - etrans; [exact HY |]. vm_compute. reflexivity.
  - etrans; [exact HY7 |]. vm_compute. reflexivity.
Defined.

Lemma E_without_plugin_number_witness :
  execCmd (Sup := Plat10) "E" 0 strip10 = (Status_Error_BadVal, 0, strip10).
Proof.
  apply (E_without_plugin_number_is_BadVal (Sup := Plat10)). left. run.
Defined.

Lemma NewPluginLayer_layer_defaults_witness :
  let e' := (NewPluginLayer (Sup := Plat10) 100 0 two_tracks).2 in
  indexLayerStack e' = indexLayerStack two_tracks + 1 /\
  trigCount (layerAt e' (indexLayerStack e')) = -1.
Proof.
  intros e'.
  assert (NewPluginLayer (Sup := Plat10) 100 0 two_tracks = (Status_Success, e'))
    as H by (vm_compute; reflexivity).
  assert (0 <= indexLayerStack two_tracks + 1
          < Z.of_nat (length (pluginLayers two_tracks))) as Hin by run.
  destruct (NewPluginLayer_success_layer_defaults (Sup := Plat10)
              100 0 two_tracks e' H Hin) as (H1 & _ & H3 & _).
  split; [exact H1 | exact H3].
Defined.

Lemma NewPluginLayer_track_defaults_witness :
  let e' := (NewPluginLayer (Sup := Plat10) 0 0 two_tracks).2 in
  indexTrackStack e' = indexTrackStack two_tracks + 1.
Proof.
  intros e'.
  assert (NewPluginLayer (Sup := Plat10) 0 0 two_tracks = (Status_Success, e'))
    as H by (vm_compute; reflexivity).
  assert (indexTrackStack e' <> indexTrackStack two_tracks) as Hne by run.
  assert (0 <= indexTrackStack two_tracks + 1
          < Z.of_nat (length (pluginTracks two_tracks))) as Hin by run.
  exact (proj1 (NewPluginLayer_success_track_defaults (Sup := Plat10)
                  0 0 two_tracks e' H Hne Hin)).
Defined.

Lemma triggerForce_extern_witness :
  let e := (execCmdStr (Sup := Plat10) "I" two_tracks).2 in
  curForce (triggerForce (Sup := Plat10) 300 e) = to_short 300.
Proof.
  intros e.
  assert (indexLayerStack e < 256) as H1 by run.
  assert (indexLayerStack e < Z.of_nat (length (pluginLayers e))) as H2 by run.
  exact (proj1 (triggerForce_fires_extern_layers (Sup := Plat10) 300 e H1 H2)).
Defined.

Lemma trigger_setting_witness :
  1 <= trigDelayMin
         (layerAt (execCmd (Sup := Plat10) "O0" 0 two_tracks).2
                  (indexLayerStack two_tracks)) <= MAX_WORD_VALUE.
Proof.
  assert (0 <= indexTrackStack two_tracks) as H1 by run.
  assert (0 <= indexLayerStack two_tracks
          < Z.of_nat (length (pluginLayers two_tracks))) as H2 by run.
  destruct (trigger_setting_commands (Sup := Plat10) "0" 0 two_tracks H1 H2)
    as ((_ & H & _) & _).
  exact H.
Defined.


Lemma nothing_enabled_witness :
  let e := runCmds (Sup := Plat10) ["E0"] strip10 in
  exists disp,
    mergeBuffers e = Some disp /\
    length disp = length (pDisplayPixels e) /\
    forall b, b < numPixels e * 3 -> nthZ 0 disp b = 0.
Proof.
  intros e. apply nothing_enabled_merges_to_black. run.
Defined.


Lemma CometHeads_nextstep_witness :
  (CometHeads.nextstep (Comets := ListComets)
     (PluginTrack.draw PluginTrack.zero) None comet40).2 = None.
Proof.
  assert (0 <= CometHeads.headCount comet40 < 65536) as H by run.
  destruct (CometHeads_nextstep_sends_force_on_change (Comets := ListComets)
              (PluginTrack.draw PluginTrack.zero) None comet40 H) as (Ho & _).
  etrans; [exact Ho |]. vm_compute. reflexivity.
Defined.

Lemma direction_and_blend_witness :
  DrawProps.goUpwards (pdraw (execCmd (Sup := Plat10) "U" 0 two_tracks).2)
  = false.
Proof.
  assert (0 <= indexTrackStack two_tracks
          < Z.of_nat (length (pluginTracks two_tracks))) as H by run.
  destruct (direction_and_blend_commands (Sup := Plat10) "" 0 two_tracks H)
    as (_ & Hp & _).
  rewrite Hp. vm_compute. reflexivity.
Defined.

Lemma Q_sets_control_bits_witness :
  PluginTrack.ctrlBits
    (trackAt (execCmd (Sup := Plat10) "Q5" 0 two_tracks).2
             (indexTrackStack two_tracks)) = atoi "5".
Proof.
  assert (0 <= indexTrackStack two_tracks
          < Z.of_nat (length (pluginTracks two_tracks))) as H by run.
  assert (isdigit (deref "5") = true) as H1 by run.
  assert (0 <= atoi "5" <= ExtControlBit_All) as H2 by run.
  exact (proj1 (proj2 (Q_sets_control_bits (Sup := Plat10)
                         "5" 0 two_tracks H H1 H2))).
Defined.

Lemma compositor_top_track_witness :
  exists disp', mergeBuffers two_tracks = Some disp'.
Proof.
  assert (compositor_ready two_tracks = true) as H by run.
  assert (contributing two_tracks = ([0] ++ [1])%list) as Hc
    by (vm_compute; reflexivity).
  destruct (compositor_top_track_has_the_last_word two_tracks [0] 1 H Hc)
    as (disp' & Hrun & _).
  exists disp'. exact Hrun.
Defined.

